(** * DotEnv Creator: a shallow embedding of [src/extension.ts]

    The extension copies an environment template ([.env.example] and the
    like) to [.env], marks placeholder values as snippet tab stops and
    offers to register [.env] in [.gitignore].

    Layout of this development:
    - JS strings: sequences of UTF-16 code units, with the few
      [String.prototype] and [Array.prototype] methods the extension calls;
    - regular expressions: the backtracking matcher on the fragment the
      source uses, and the assignment pattern as a value of it;
    - [processTemplateContent]: the line loop, as a fold over a record of
      its local variables;
    - [checkGitignore]: the ignore-file updater over a disk;
    - [findTemplateFiles]: the recursive locator over a directory tree with
      [readdirSync] and [statSync] calls that may throw;
    - [activate]: the command handler, as a function to the trace of its
      calls and the disk it leaves;
    - the theorems, component by component. *)

From Stdlib Require Import String Ascii List Bool Arith NArith Lia.
From Stdlib Require DecimalNat.
Import ListNotations.
Open Scope list_scope.

(* ================================================================= *)
(** ** JS strings *)

(** A JS string is a finite sequence of 16-bit code units.  Code units are
    kept as [N]; nothing below depends on the upper bound [65535]. *)
Definition codeUnit := N.
Definition jsstring := list codeUnit.

(** ASCII literals of the source, written as Rocq strings. *)
Definition lit (s : string) : jsstring :=
  map N_of_ascii (list_ascii_of_string s).

(** The two-character literals compared with [value]: two double quotes,
    two single quotes. *)
Definition emptyDoubleQuoted : jsstring := [34%N; 34%N].
Definition emptySingleQuoted : jsstring := [39%N; 39%N].

Definition LF : codeUnit := 10%N.

(** ECMAScript [LineTerminator]: LF, CR, LS, PS. *)
Definition isLineTerminator (c : codeUnit) : bool :=
  ((c =? 10) || (c =? 13) || (c =? 8232) || (c =? 8233))%N.

(** ECMAScript [WhiteSpace]: TAB, VT, FF, SP, NBSP, ZWNBSP and category Zs. *)
Definition isWhiteSpace (c : codeUnit) : bool :=
  ((c =? 9) || (c =? 11) || (c =? 12) || (c =? 32) || (c =? 160)
   || (c =? 5760) || ((8192 <=? c) && (c <=? 8202))
   || (c =? 8239) || (c =? 8287) || (c =? 12288) || (c =? 65279))%N.

(** What the regular expression class [\s] matches and what
    [String.prototype.trim] strips: [WhiteSpace] or [LineTerminator]. *)
Definition isSpace (c : codeUnit) : bool :=
  isWhiteSpace c || isLineTerminator c.

(** What [.] matches (no [s] flag): any code unit but a line terminator. *)
Definition isDot (c : codeUnit) : bool := negb (isLineTerminator c).

Definition isAsciiLetter (c : codeUnit) : bool :=
  (((65 <=? c) && (c <=? 90)) || ((97 <=? c) && (c <=? 122)))%N.
Definition isAsciiDigit (c : codeUnit) : bool :=
  ((48 <=? c) && (c <=? 57))%N.

(** [[A-Za-z_]] and [[A-Za-z0-9_]].  The [i] flag adds nothing to them:
    without the [u] flag, canonicalisation never maps a code unit of value
    128 or more to one below 128, so only ASCII letters match a letter. *)
Definition isKeyStart (c : codeUnit) : bool :=
  isAsciiLetter c || (c =? 95)%N.
Definition isKeyChar (c : codeUnit) : bool :=
  isAsciiLetter c || isAsciiDigit c || (c =? 95)%N.

Fixpoint takeWhile (p : codeUnit -> bool) (s : jsstring) : jsstring :=
  match s with
  | c :: r => if p c then c :: takeWhile p r else []
  | [] => []
  end.

Fixpoint dropWhile (p : codeUnit -> bool) (s : jsstring) : jsstring :=
  match s with
  | c :: r => if p c then dropWhile p r else s
  | [] => []
  end.

(** [s.split('\n')]: never empty; the pieces hold no LF. *)
Fixpoint split (s : jsstring) : list jsstring :=
  match s with
  | [] => [[]]
  | c :: r =>
      if (c =? LF)%N then [] :: split r
      else match split r with
           | l :: ls => (c :: l) :: ls
           | [] => [[c]]
           end
  end.

(** [a.join('\n')]. *)
Fixpoint join (a : list jsstring) : jsstring :=
  match a with
  | [] => []
  | [l] => l
  | l :: ls => l ++ LF :: join ls
  end.

(** [s.trim()]. *)
Definition trimStart (s : jsstring) : jsstring := dropWhile isSpace s.
Definition trimEnd (s : jsstring) : jsstring := rev (dropWhile isSpace (rev s)).
Definition trim (s : jsstring) : jsstring := trimEnd (trimStart s).

Definition jsstring_eqb (a b : jsstring) : bool :=
  if list_eq_dec N.eq_dec a b then true else false.

(** [s.startsWith(t)], [s.endsWith(t)], [s.includes(t)]. *)
Fixpoint startsWith (s t : jsstring) {struct t} : bool :=
  match t, s with
  | [], _ => true
  | _ :: _, [] => false
  | d :: t', c :: s' => (c =? d)%N && startsWith s' t'
  end.

Definition endsWith (s t : jsstring) : bool := startsWith (rev s) (rev t).

Fixpoint includes (s t : jsstring) : bool :=
  startsWith s t ||
  match s with
  | [] => false
  | _ :: s' => includes s' t
  end.

(** [Array.prototype.includes] on an array of strings. *)
Definition arrayIncludes (a : list jsstring) (x : jsstring) : bool :=
  existsb (jsstring_eqb x) a.

(** Numbers.  The counters of the source (the stop index, the offsets)
    are non-negative integers far below 2^53, where JS arithmetic is exact:
    they are kept as [nat].  Number to string, for such integers: *)
Fixpoint digits (d : Decimal.uint) : jsstring :=
  match d with
  | Decimal.Nil => []
  | Decimal.D0 d => 48%N :: digits d
  | Decimal.D1 d => 49%N :: digits d
  | Decimal.D2 d => 50%N :: digits d
  | Decimal.D3 d => 51%N :: digits d
  | Decimal.D4 d => 52%N :: digits d
  | Decimal.D5 d => 53%N :: digits d
  | Decimal.D6 d => 54%N :: digits d
  | Decimal.D7 d => 55%N :: digits d
  | Decimal.D8 d => 56%N :: digits d
  | Decimal.D9 d => 57%N :: digits d
  end.

Definition toString (n : nat) : jsstring := digits (Nat.to_uint n).

(* ================================================================= *)
(** ** The template processor: [processTemplateContent] *)

(** *** Regular expressions, as the engine runs them

    The fragment the source uses: the two anchors, one code unit of a
    class (a literal is a class of one), the greedy star of a class,
    concatenation and capturing groups.  Matching is the backtracking
    search of the language definition, written with continuations: a star
    first tries one more code unit and falls back to the continuation when
    that fails. *)
Inductive regex :=
| Bol
| Eol
| Class (p : codeUnit -> bool)
| Star (p : codeUnit -> bool)
| Cat (r1 r2 : regex)
| Group (r : regex).

Fixpoint starRun {R : Type} (p : codeUnit -> bool) (s : jsstring)
  (k : jsstring -> option R) : option R :=
  match s with
  | c :: s' =>
      if p c then
        match starRun p s' k with
        | Some x => Some x
        | None => k s
        end
      else k s
  | [] => k []
  end.

(** [run input r s caps k]: match [r] at the suffix [s] of [input], with
    the captures [caps] closed so far, and hand the rest and the captures
    to [k].  No [m] flag: [Bol] holds at the start of the input only and
    [Eol] at its end only. *)
Fixpoint run (input : jsstring) (r : regex) (s : jsstring)
  (caps : list jsstring)
  (k : jsstring -> list jsstring -> option (list jsstring))
  {struct r} : option (list jsstring) :=
  match r with
  | Bol => if length s =? length input then k s caps else None
  | Eol => match s with [] => k s caps | _ :: _ => None end
  | Class p =>
      match s with
      | c :: s' => if p c then k s' caps else None
      | [] => None
      end
  | Star p => starRun p s (fun s' => k s' caps)
  | Cat r1 r2 => run input r1 s caps (fun s' caps' => run input r2 s' caps' k)
  | Group r' =>
      run input r' s caps
        (fun s' caps' => k s' (caps' ++ [firstn (length s - length s') s]))
  end.

(** The search for the first start index at which the pattern matches. *)
Fixpoint execFrom (input : jsstring) (r : regex) (s : jsstring)
  : option (list jsstring) :=
  match run input r s [] (fun _ caps => Some caps) with
  | Some caps => Some caps
  | None =>
      match s with
      | [] => None
      | _ :: s' => execFrom input r s'
      end
  end.

(** [input.match(r)] for a pattern without the [g] flag: the capture
    groups of the first match, or [None] for [null]. *)
Definition regexMatch (r : regex) (input : jsstring) : option (list jsstring) :=
  execFrom input r input.

Definition isEqualsSign (c : codeUnit) : bool := (c =? 61)%N.

(** The pattern of the source, piece by piece: start of input; group 1, a
    key start and any key characters; any spaces; the equals sign; any
    spaces; group 2, any run of [.]; end of input.  The flag [i] is in the
    classes (see [isKeyStart]). *)
Definition envVarPattern : regex :=
  Cat Bol
  (Cat (Group (Cat (Class isKeyStart) (Star isKeyChar)))
  (Cat (Star isSpace)
  (Cat (Class isEqualsSign)
  (Cat (Star isSpace)
  (Cat (Group (Star isDot))
       Eol))))).

(** [const envVarMatch = line.match(...)], with the destructuring of the
    match into [key] and [value]. *)
Definition envVarMatch (line : jsstring) : option (jsstring * jsstring) :=
  match regexMatch envVarPattern line with
  | Some [key; value] => Some (key, value)
  | _ => None
  end.

(** What the search comes to on this pattern, in one pass without
    backtracking: the longest key, the spaces, the equals sign, the spaces,
    and the rest of the line if it holds no line terminator.
    [envVarMatch_greedy] proves it equal to [envVarMatch]. *)
Definition greedyMatch (line : jsstring) : option (jsstring * jsstring) :=
  match line with
  | c :: rest =>
      if isKeyStart c then
        let key := c :: takeWhile isKeyChar rest in
        match dropWhile isSpace (dropWhile isKeyChar rest) with
        | e :: afterEq =>
            if isEqualsSign e then
              let value := dropWhile isSpace afterEq in
              if forallb isDot value then Some (key, value) else None
            else None
        | [] => None
        end
      else None
  | [] => None
  end.

(** The tokens of the [value.includes(...)] chain, in source order. *)
Definition placeholderTokens : list jsstring :=
  [ lit "your-"; lit "YOUR_"; lit "example"; lit "EXAMPLE";
    lit "placeholder"; lit "PLACEHOLDER"; lit "change-me"; lit "CHANGE_ME";
    lit "xxx"; lit "XXX" ].

(** [isPlaceholder]: [!value] holds exactly of the empty string. *)
Definition isPlaceholder (value : jsstring) : bool :=
  match value with [] => true | _ :: _ => false end
  || jsstring_eqb value emptyDoubleQuoted
  || jsstring_eqb value emptySingleQuoted
  || includes value (lit "your-")
  || includes value (lit "YOUR_")
  || includes value (lit "example")
  || includes value (lit "EXAMPLE")
  || includes value (lit "placeholder")
  || includes value (lit "PLACEHOLDER")
  || includes value (lit "change-me")
  || includes value (lit "CHANGE_ME")
  || includes value (lit "xxx")
  || includes value (lit "XXX").

(** The local variables of the loop. *)
Module Loop.
Record state := mk {
  snippetLines : list jsstring;
  tabStopIndex : nat;
  hasTabStops : bool;
  firstValuePosition : option nat;
  currentPosition : nat
}.
End Loop.

(** The text the template literal of the placeholder branch puts after
    [keyPart]: dollar, open brace, the index, a colon, the value, close
    brace. *)
Definition tabStop (index : nat) (value : jsstring) : jsstring :=
  lit "${" ++ toString index ++ lit ":" ++ value ++ lit "}".

Definition push (st : Loop.state) (l : jsstring) : Loop.state :=
  Loop.mk (Loop.snippetLines st ++ [l]) (Loop.tabStopIndex st)
          (Loop.hasTabStops st) (Loop.firstValuePosition st)
          (Loop.currentPosition st).

(** One iteration of [for (const line of lines)]. *)
Definition loopBody (st : Loop.state) (line : jsstring) : Loop.state :=
  let st1 :=
    match envVarMatch line with
    | Some (key, value) =>
        let keyPart := key ++ lit "=" in
        if isPlaceholder value then
          let st' := push st (keyPart ++ tabStop (Loop.tabStopIndex st) value) in
          let st'' :=
            if Loop.hasTabStops st' then st'
            else Loop.mk (Loop.snippetLines st') (Loop.tabStopIndex st') true
                   (Some (Loop.currentPosition st' + length keyPart))
                   (Loop.currentPosition st') in
          Loop.mk (Loop.snippetLines st'') (S (Loop.tabStopIndex st''))
                  (Loop.hasTabStops st'') (Loop.firstValuePosition st'')
                  (Loop.currentPosition st'')
        else push st line
    | None => push st line
    end in
  Loop.mk (Loop.snippetLines st1) (Loop.tabStopIndex st1)
          (Loop.hasTabStops st1) (Loop.firstValuePosition st1)
          (Loop.currentPosition st1 + (length line + 1)).

Definition loopInit : Loop.state := Loop.mk [] 1 false None 0.

Definition runLoop (lines : list jsstring) : Loop.state :=
  fold_left loopBody lines loopInit.

Record ProcessedTemplate := {
  content : jsstring;
  snippetContent : jsstring;
  hasTabStops : bool;
  firstValuePosition : option nat
}.

Definition processTemplateContent (content : jsstring) : ProcessedTemplate :=
  let lines := split content in
  let st := runLoop lines in
  {| content := content;
     snippetContent := join (Loop.snippetLines st);
     hasTabStops := Loop.hasTabStops st;
     firstValuePosition := Loop.firstValuePosition st |}.

(** A line the loop turns into a tab stop. *)
Definition isPlaceholderLine (line : jsstring) : bool :=
  match envVarMatch line with
  | Some (_, value) => isPlaceholder value
  | None => false
  end.

(* ================================================================= *)
(** ** Paths and the file store *)

(** A path is the list of its components; [path.join(dir, name)] appends
    one.  A directory listing never holds a name with a separator in it, so
    distinct component lists are distinct paths. *)
Definition path := list jsstring.

Definition pathJoin (dir : path) (name : jsstring) : path := dir ++ [name].
Definition dirname (p : path) : path := removelast p.
Definition basename (p : path) : jsstring := last p [].
(** [path.relative(from, to)] where [from] is an ancestor of [to], which is
    how [activate] calls it. *)
Definition relative (from to : path) : path := skipn (length from) to.

Definition path_eqb (p q : path) : bool :=
  if list_eq_dec (list_eq_dec N.eq_dec) p q then true else false.

(** What [fs.existsSync], [fs.readFileSync(p, 'utf8')] and
    [fs.writeFileSync] see.  [readFileSync d p = None] and
    [canWrite d p = false] are the calls that throw. *)
Record Disk := {
  existsSync : path -> bool;
  readFileSync : path -> option jsstring;
  canWrite : path -> bool
}.

(** A call of [fs.writeFileSync] that throws is taken to throw before it
    touches the file, as it does on a file that is read-only or in a
    directory that is missing: the result is [None] and the disk is as it
    was.  A write that fails half-way, after the file was truncated, is not
    modelled. *)
Definition writeFileSync (d : Disk) (p : path) (c : jsstring) : option Disk :=
  if canWrite d p then
    Some {| existsSync := fun q => if path_eqb q p then true else existsSync d q;
            readFileSync := fun q => if path_eqb q p then Some c else readFileSync d q;
            canWrite := canWrite d |}
  else None.

(* ================================================================= *)
(** ** What the user and the editor see: events *)

Inductive Message :=
| NoWorkspaceFolderOpen
| NoTemplateFilesFound
| FailedToCreate
| CreatedSuccessfully
| AddedToGitignore.

(** The items of the existing-file warning and of the ignore-file prompt. *)
Inductive Action := OpenExisting | Overwrite | Cancel.
Inductive YesNo := Yes | No.

Record QuickPickItem := { label : jsstring; description : path }.

(** Every call of the handler that reaches outside it, in call order.  A
    prompt carries the answer it got; [None] is a dismissed prompt
    ([undefined]).  The calls to the editor (opening and showing a
    document, editing it, inserting a snippet) are taken to succeed; the
    calls that throw in this model are those of [fs]. *)
Inductive Event :=
| ShowErrorMessage (m : Message)
| ShowInformationMessage (m : Message)
| ShowQuickPick (items : list QuickPickItem) (answer : option QuickPickItem)
| ShowWarningMessage (answer : option Action)
| AskAddToGitignore (answer : option YesNo)
| OpenTextDocument (p : path)
| ShowTextDocument (p : path)
| DeleteFullRange
| InsertSnippet (s : jsstring)
| WriteFile (p : path) (c : jsstring).

Definition isWrite (e : Event) : bool :=
  match e with WriteFile _ _ => true | _ => false end.

Record User := {
  pickTemplate : list QuickPickItem -> option QuickPickItem;
  existingChoice : option Action;
  gitignoreChoice : option YesNo
}.

(** The result of running a piece of the handler: the disk it leaves, the
    events in order, and whether it ended by an exception it did not
    catch. *)
Record Outcome := {
  disk : Disk;
  trace : list Event;
  threw : bool
}.

(* ================================================================= *)
(** ** The ignore-file updater: [checkGitignore] *)

Definition isEnvEntry (line : jsstring) : bool :=
  let trimmed := trim line in
  jsstring_eqb trimmed (lit ".env")
  || jsstring_eqb trimmed (lit "/.env")
  || jsstring_eqb trimmed (lit "*.env").

(** [lines.some(...)] over [gitignoreContent.split('\n')]. *)
Definition hasEnv (gitignoreContent : jsstring) : bool :=
  existsb isEnvEntry (split gitignoreContent).

Definition newGitignoreContent (gitignoreContent : jsstring) : jsstring :=
  gitignoreContent
  ++ (if endsWith gitignoreContent [LF] then [] else [LF])
  ++ lit ".env" ++ [LF].

Definition gitignorePathOf (workspaceRoot : path) : path :=
  pathJoin workspaceRoot (lit ".gitignore").

(** The value of [gitignoreContent] after the [if (fs.existsSync(...))]:
    the empty string when there is no file; [None] when the read throws. *)
Definition readGitignore (workspaceRoot : path) (d : Disk) : option jsstring :=
  if existsSync d (gitignorePathOf workspaceRoot)
  then readFileSync d (gitignorePathOf workspaceRoot)
  else Some [].

Definition checkGitignore (workspaceRoot : path) (d : Disk) (u : User) : Outcome :=
  let gitignorePath := gitignorePathOf workspaceRoot in
  match readGitignore workspaceRoot d with
  | None => {| disk := d; trace := []; threw := true |}
  | Some gitignoreContent =>
      if hasEnv gitignoreContent then {| disk := d; trace := []; threw := false |}
      else
        let addToGitignore := gitignoreChoice u in
        match addToGitignore with
        | Some Yes =>
            let new := newGitignoreContent gitignoreContent in
            match writeFileSync d gitignorePath new with
            | Some d' =>
                {| disk := d';
                   trace := [AskAddToGitignore addToGitignore;
                             WriteFile gitignorePath new;
                             ShowInformationMessage AddedToGitignore];
                   threw := false |}
            | None =>
                {| disk := d; trace := [AskAddToGitignore addToGitignore];
                   threw := true |}
            end
        | _ => {| disk := d; trace := [AskAddToGitignore addToGitignore];
                  threw := false |}
        end
  end.

(* ================================================================= *)
(** ** The template locator: [findTemplateFiles] *)

(** What [statSync] and [readdirSync] report of a directory entry.
    [Dir readable files]: a directory; [readdirSync] throws on it when
    [readable] is [false].  [Other]: [statSync] succeeds, and the entry is
    neither a directory nor a regular file.  [NoStat]: [statSync] throws
    (a dangling link, an entry removed since the listing was read). *)
#[warnings="-register-all"]
Inductive node :=
| File
| Dir (readable : bool) (files : list (jsstring * node))
| Other
| NoStat.

Definition isDirectory (n : node) : bool :=
  match n with Dir _ _ => true | _ => false end.
Definition isFile (n : node) : bool :=
  match n with File => true | _ => false end.

Definition templatePatterns : list jsstring :=
  [lit ".env.example"; lit ".env.template"; lit ".env.sample"; lit ".env.dist"].

(** [searchDirectory], with the array [templates] it pushes to passed in
    and out.  The [try] spans the listing and the whole loop: a
    [readdirSync] that throws leaves [templates] as it is, and a [statSync]
    that throws leaves the loop with what was pushed so far.  A nested call
    catches its own exceptions, so it always returns. *)
Fixpoint searchDirectory (dirPath : path) (dir : node) (templates : list path)
  {struct dir} : list path :=
  match dir with
  | Dir true files =>
      (fix loop (files : list (jsstring * node)) (templates : list path)
         {struct files} : list path :=
         match files with
         | [] => templates
         | (file, n) :: rest =>
             let filePath := pathJoin dirPath file in
             match n with
             | NoStat => templates
             | _ =>
                 if isDirectory n && negb (startsWith file (lit "."))
                    && negb (jsstring_eqb file (lit "node_modules"))
                 then loop rest (searchDirectory filePath n templates)
                 else if isFile n && arrayIncludes templatePatterns file
                 then loop rest (templates ++ [filePath])
                 else loop rest templates
             end
         end) files templates
  | _ => templates
  end.

Definition findTemplateFiles (rootPath : path) (root : node) : list path :=
  searchDirectory rootPath root [].

(** The [for] loop of [searchDirectory] on its own, for the proofs. *)
Fixpoint searchEntries (dirPath : path) (files : list (jsstring * node))
  (templates : list path) : list path :=
  match files with
  | [] => templates
  | (file, n) :: rest =>
      let filePath := pathJoin dirPath file in
      match n with
      | NoStat => templates
      | _ =>
          if isDirectory n && negb (startsWith file (lit "."))
             && negb (jsstring_eqb file (lit "node_modules"))
          then searchEntries dirPath rest (searchDirectory filePath n templates)
          else if isFile n && arrayIncludes templatePatterns file
          then searchEntries dirPath rest (templates ++ [filePath])
          else searchEntries dirPath rest templates
      end
  end.

(** A directory the locator descends into, by its name. *)
Definition searchable (name : jsstring) : Prop :=
  startsWith name (lit ".") = false /\ name <> lit "node_modules".

(** The same test as the loop makes it, as one boolean. *)
Definition searchableb (name : jsstring) : bool :=
  negb (startsWith name (lit ".")) && negb (jsstring_eqb name (lit "node_modules")).

(** [resolves n names m]: following [names] down from [n] leads to [m]. *)
Inductive resolves : node -> list jsstring -> node -> Prop :=
| resolves_here n : resolves n [] n
| resolves_step r files name child names m :
    In (name, child) files ->
    resolves child names m ->
    resolves (Dir r files) (name :: names) m.

(** A tree on which no call fails: every directory can be listed and every
    entry can be examined. *)
Fixpoint healthy (n : node) : Prop :=
  match n with
  | File | Other => True
  | NoStat => False
  | Dir readable files =>
      readable = true /\
      (fix all (l : list (jsstring * node)) : Prop :=
         match l with
         | [] => True
         | (_, m) :: l' => healthy m /\ all l'
         end) files
  end.

(** The names of a listing are pairwise distinct, in every directory. *)
Fixpoint distinctNames (n : node) : Prop :=
  match n with
  | Dir _ files =>
      NoDup (map fst files) /\
      (fix all (l : list (jsstring * node)) : Prop :=
         match l with
         | [] => True
         | (_, m) :: l' => distinctNames m /\ all l'
         end) files
  | _ => True
  end.

(* ================================================================= *)
(** ** The command handler: [activate] *)

Record World := {
  workspaceFolders : option (list path);
  tree : node;
  files : Disk
}.

Definition done (d : Disk) (t : list Event) : Outcome :=
  {| disk := d; trace := t; threw := false |}.

(** The body of the [try] block, with [t] the events before it.  [None]
    stands for an exception, which the [catch] turns into one message. *)
Definition copyTemplate (workspaceRoot selectedTemplate envPath : path)
  (d : Disk) (u : User) : Outcome :=
  match readFileSync d selectedTemplate with
  | None => {| disk := d; trace := []; threw := true |}
  | Some templateContent =>
      let processedContent := processTemplateContent templateContent in
      match writeFileSync d envPath (content processedContent) with
      | None => {| disk := d; trace := []; threw := true |}
      | Some d1 =>
          let t1 :=
            [WriteFile envPath (content processedContent);
             OpenTextDocument envPath; ShowTextDocument envPath]
            ++ (if hasTabStops processedContent
                then [DeleteFullRange;
                      InsertSnippet (snippetContent processedContent)]
                else [])
            ++ [ShowInformationMessage CreatedSuccessfully] in
          let g := checkGitignore workspaceRoot d1 u in
          {| disk := disk g; trace := t1 ++ trace g; threw := threw g |}
      end
  end.

Definition tryCopyTemplate (workspaceRoot selectedTemplate envPath : path)
  (d : Disk) (u : User) (before : list Event) : Outcome :=
  let r := copyTemplate workspaceRoot selectedTemplate envPath d u in
  if threw r
  then done (disk r) (before ++ trace r ++ [ShowErrorMessage FailedToCreate])
  else done (disk r) (before ++ trace r).

(** From [const envPath = ...] on. *)
Definition withTemplate (workspaceRoot selectedTemplate : path)
  (d : Disk) (u : User) (before : list Event) : Outcome :=
  let envPath := pathJoin (dirname selectedTemplate) (lit ".env") in
  if existsSync d envPath then
    let action := existingChoice u in
    match action with
    | Some OpenExisting =>
        done d (before ++ [ShowWarningMessage action;
                           OpenTextDocument envPath; ShowTextDocument envPath])
    | Some Overwrite =>
        tryCopyTemplate workspaceRoot selectedTemplate envPath d u
          (before ++ [ShowWarningMessage action])
    | _ => done d (before ++ [ShowWarningMessage action])
    end
  else tryCopyTemplate workspaceRoot selectedTemplate envPath d u before.

(** The command registered by [activate].  An empty [workspaceFolders]
    array passes the first test and makes the handler throw at
    [workspaceFolders[0].uri]. *)
Definition activate (w : World) (u : User) : Outcome :=
  let d := files w in
  match workspaceFolders w with
  | None => done d [ShowErrorMessage NoWorkspaceFolderOpen]
  | Some [] => {| disk := d; trace := []; threw := true |}
  | Some (workspaceRoot :: _) =>
      let templateFiles := findTemplateFiles workspaceRoot (tree w) in
      match templateFiles with
      | [] => done d [ShowErrorMessage NoTemplateFilesFound]
      | [only] => withTemplate workspaceRoot only d u []
      | _ =>
          let items :=
            map (fun file => {| label := basename file;
                                description := relative workspaceRoot file |})
                templateFiles in
          let selected := pickTemplate u items in
          match selected with
          | None => done d [ShowQuickPick items selected]
          | Some item =>
              withTemplate workspaceRoot (workspaceRoot ++ description item)
                d u [ShowQuickPick items selected]
          end
      end
  end.

(* ================================================================= *)
(** ** Notions the statements use *)

(** The declarative reading of the assignment pattern: the line is a key,
    spaces, the equals sign, spaces and a value free of line terminators. *)
Definition assignmentShape (line key w1 w2 value : jsstring) : Prop :=
  line = key ++ w1 ++ 61%N :: w2 ++ value
  /\ (exists c k, key = c :: k /\ isKeyStart c = true /\ forallb isKeyChar k = true)
  /\ forallb isSpace w1 = true
  /\ forallb isSpace w2 = true
  /\ forallb isDot value = true.

(** How many of [lines] become tab stops. *)
Definition placeholderCount (lines : list jsstring) : nat :=
  length (filter isPlaceholderLine lines).

(** The offset at which the line after [before] starts: every line before
    it counts for its length and one line feed. *)
Fixpoint lineStart (before : list jsstring) : nat :=
  match before with
  | [] => 0
  | l :: ls => length l + 1 + lineStart ls
  end.

(** The lines pushed by the loop from stop index [index] on, as a function
    of the lines alone. *)
Fixpoint annotate (index : nat) (lines : list jsstring) : list jsstring :=
  match lines with
  | [] => []
  | line :: rest =>
      match envVarMatch line with
      | Some (key, value) =>
          if isPlaceholder value
          then ((key ++ lit "=") ++ tabStop index value)
               :: annotate (S index) rest
          else line :: annotate index rest
      | None => line :: annotate index rest
      end
  end.

(** What the loop pushes for a line, given the index it has reached. *)
Definition emitted (index : nat) (line : jsstring) : jsstring :=
  match envVarMatch line with
  | Some (key, value) =>
      if isPlaceholder value
      then (key ++ lit "=") ++ tabStop index value
      else line
  | None => line
  end.

(** The events by which the user backs out: a dismissed template choice,
    and at the existing-file warning a dismissal, Cancel or Open Existing. *)
Definition isBackOut (e : Event) : bool :=
  match e with
  | ShowQuickPick _ None => true
  | ShowWarningMessage None => true
  | ShowWarningMessage (Some Cancel) => true
  | ShowWarningMessage (Some OpenExisting) => true
  | _ => false
  end.

(** [located dirPath n p]: [p] names a regular file below [n] whose base
    name is a template name and which is reached from [n] through
    searchable directories only. *)
Definition located (dirPath : path) (n : node) (p : path) : Prop :=
  exists names base,
    p = dirPath ++ names ++ [base]
    /\ resolves n (names ++ [base]) File
    /\ In base templatePatterns
    /\ Forall searchable names.

(** The events that change a file or the text in the editor. *)
Definition changesSomething (e : Event) : bool :=
  match e with
  | WriteFile _ _ | DeleteFullRange | InsertSnippet _ => true
  | _ => false
  end.

(* ================================================================= *)
(** ** Sample inputs *)

Definition ws : path := [lit "ws"].

(** A workspace with a template at the top and one in [src], and templates
    in [.git] and [node_modules] that must stay hidden. *)
Definition sampleTree : node :=
  Dir true
    [ (lit ".env.example", File);
      (lit "src", Dir true [(lit ".env.sample", File); (lit "main.ts", File)]);
      (lit ".git", Dir true [(lit ".env.dist", File)]);
      (lit "node_modules", Dir true [(lit ".env.template", File)]) ].

(** A listing whose first entry cannot be examined, and one whose first
    entry is a directory that cannot be listed. *)
Definition treeWithVanishedEntry : node :=
  Dir true [(lit "gone", NoStat); (lit ".env.example", File)].
Definition treeWithLockedDirectory : node :=
  Dir true [(lit "locked", Dir false []); (lit ".env.example", File)].

(** A disk on which [.env] exists already (as does every path), holding
    one ignore file without the entry. *)
Definition fullDisk : Disk :=
  {| existsSync := fun _ => true;
     readFileSync := fun _ => Some (lit "node_modules");
     canWrite := fun _ => true |}.

Definition sampleWorld : World :=
  {| workspaceFolders := Some [ws]; tree := sampleTree; files := fullDisk |}.

Definition userWho (pick : option QuickPickItem) (existing : option Action)
  (gitignore : option YesNo) : User :=
  {| pickTemplate := fun _ => pick;
     existingChoice := existing;
     gitignoreChoice := gitignore |}.

Definition topTemplate : QuickPickItem :=
  {| label := lit ".env.example"; description := [lit ".env.example"] |}.

(* ================================================================= *)
(** ** Notions and sample inputs of the further properties *)

(** What the locator can see of a tree: a listing is cut at its first
    entry that cannot be examined, and a directory that cannot be listed
    counts as empty. *)
Fixpoint prune (n : node) : node :=
  match n with
  | Dir true files =>
      Dir true
        ((fix cut (l : list (jsstring * node)) : list (jsstring * node) :=
            match l with
            | [] => []
            | (name, m) :: l' =>
                match m with
                | NoStat => []
                | _ => (name, prune m) :: cut l'
                end
            end) files)
  | Dir false _ => Dir true []
  | NoStat => Other
  | File => File
  | Other => Other
  end.

(** The same cut, on a listing. *)
Fixpoint pruneEntries (l : list (jsstring * node)) : list (jsstring * node) :=
  match l with
  | [] => []
  | (name, m) :: l' =>
      match m with
      | NoStat => []
      | _ => (name, prune m) :: pruneEntries l'
      end
  end.

(** The events that change the text in the editor. *)
Definition isEditorEdit (e : Event) : bool :=
  match e with
  | DeleteFullRange | InsertSnippet _ => true
  | _ => false
  end.

(** A workspace with one template of two lines, no [.env] and no ignore
    file; every path can be written. *)
Definition oneTemplateTree : node := Dir true [(lit ".env.example", File)].

Definition twoLines : jsstring :=
  lit "API_KEY=your-key-here" ++ LF :: lit "PORT=8080".

Definition freshDisk : Disk :=
  {| existsSync := fun p => path_eqb p [lit "ws"; lit ".env.example"];
     readFileSync :=
       fun p => if path_eqb p [lit "ws"; lit ".env.example"]
                then Some twoLines else None;
     canWrite := fun _ => true |}.

Definition freshWorld : World :=
  {| workspaceFolders := Some [ws]; tree := oneTemplateTree; files := freshDisk |}.

(** The same disk with an ignore file that cannot be written. *)
Definition lockedIgnoreDisk : Disk :=
  {| existsSync := existsSync freshDisk;
     readFileSync := readFileSync freshDisk;
     canWrite := fun p => negb (path_eqb p [lit "ws"; lit ".gitignore"]) |}.

(** The same disk with a template that cannot be read. *)
Definition unreadableTemplateDisk : Disk :=
  {| existsSync := existsSync freshDisk;
     readFileSync := fun _ => None;
     canWrite := fun _ => true |}.

(** The events of the ignore-file updater, and those of the handler from
    the existing-file warning on. *)
Definition ignoreEvent (e : Event) : bool :=
  match e with
  | AskAddToGitignore _ | WriteFile _ _ => true
  | ShowInformationMessage AddedToGitignore => true
  | _ => false
  end.

Definition copyEvent (e : Event) : bool :=
  ignoreEvent e
  || match e with
     | ShowWarningMessage _ | OpenTextDocument _ | ShowTextDocument _
     | DeleteFullRange | InsertSnippet _ => true
     | ShowInformationMessage CreatedSuccessfully => true
     | ShowErrorMessage FailedToCreate => true
     | _ => false
     end.

(** The items the quick pick shows for the templates found. *)
Definition quickPickItems (workspaceRoot : path) (templateFiles : list path)
  : list QuickPickItem :=
  map (fun file => {| label := basename file;
                      description := relative workspaceRoot file |})
      templateFiles.

Definition isErrorMessage (e : Event) : bool :=
  match e with ShowErrorMessage _ => true | _ => false end.

(** The sample tree of two visible templates over the fresh disk. *)
Definition twoTemplateWorld : World :=
  {| workspaceFolders := Some [ws]; tree := sampleTree; files := freshDisk |}.





(** A disk that holds the ignore file of [ws], with the text [c], and no
    other file; only the ignore file can be written. *)
Definition ignoreFileDisk (c : jsstring) : Disk :=
  {| existsSync := fun p => path_eqb p [lit "ws"; lit ".gitignore"];
     readFileSync :=
       fun p => if path_eqb p [lit "ws"; lit ".gitignore"] then Some c else None;
     canWrite := fun p => path_eqb p [lit "ws"; lit ".gitignore"] |}.

(** A disk without any file, on which only the ignore file of [ws] can be
    written. *)
Definition emptyDisk : Disk :=
  {| existsSync := fun _ => false;
     readFileSync := fun _ => None;
     canWrite := fun p => path_eqb p [lit "ws"; lit ".gitignore"] |}.

(** [reaches n names m]: following [names] down from [n] leads to [m], and
    every directory on the way can be listed. *)
Inductive reaches : node -> list jsstring -> node -> Prop :=
| reaches_here n : reaches n [] n
| reaches_step files name child names m :
    In (name, child) files ->
    reaches child names m ->
    reaches (Dir true files) (name :: names) m.

(** Every entry of every listing the locator scans can be examined: the
    listing of [n] and those of the searchable directories below it that
    can be listed.  What lies in a directory the locator does not enter, or
    in one that cannot be listed, is left free. *)
Fixpoint scanExamines (n : node) : Prop :=
  match n with
  | Dir true files =>
      (fix all (l : list (jsstring * node)) : Prop :=
         match l with
         | [] => True
         | (name, m) :: l' =>
             m <> NoStat /\ (searchable name -> scanExamines m) /\ all l'
         end) files
  | _ => True
  end.

(** A template in a directory that cannot be listed. *)
Definition treeWithLockedTemplate : node :=
  Dir true [(lit "locked", Dir false [(lit ".env.example", File)])].

(** A workspace where [statSync] and [readdirSync] fail only out of the
    locator's way: a directory that cannot be listed, and an entry that
    cannot be examined inside [node_modules]. *)
Definition roughTree : node :=
  Dir true
    [ (lit ".env.example", File);
      (lit "locked", Dir false [(lit ".env.dist", File)]);
      (lit "node_modules",
        Dir true [(lit "gone", NoStat); (lit ".env.template", File)]);
      (lit "src", Dir true [(lit "deep", Dir true [(lit ".env.sample", File)])]) ].

(** A disk with the two visible templates of the sample tree, of
    different texts, and the item the quick pick shows for the second. *)
Definition twoTemplateDisk : Disk :=
  {| existsSync :=
       fun p => path_eqb p [lit "ws"; lit ".env.example"]
                || path_eqb p [lit "ws"; lit "src"; lit ".env.sample"];
     readFileSync :=
       fun p => if path_eqb p [lit "ws"; lit ".env.example"]
                then Some twoLines
                else if path_eqb p [lit "ws"; lit "src"; lit ".env.sample"]
                then Some (lit "B=xxx")
                else None;
     canWrite := fun _ => true |}.

Definition sampleItem : QuickPickItem :=
  {| label := lit ".env.sample"; description := [lit "src"; lit ".env.sample"] |}.

Definition pickingWorld : World :=
  {| workspaceFolders := Some [ws]; tree := sampleTree; files := twoTemplateDisk |}.

(** A disk on which a [.env] lies beside the template already, and the
    ignore file cannot be written. *)
Definition staleEnvDisk : Disk :=
  {| existsSync :=
       fun p => path_eqb p [lit "ws"; lit ".env.example"]
                || path_eqb p [lit "ws"; lit ".env"];
     readFileSync :=
       fun p => if path_eqb p [lit "ws"; lit ".env.example"]
                then Some twoLines
                else if path_eqb p [lit "ws"; lit ".env"]
                then Some (lit "OLD=1")
                else None;
     canWrite := fun p => negb (path_eqb p [lit "ws"; lit ".gitignore"]) |}.

(** The disk of the fresh workspace, with nothing that can be written. *)
Definition readOnlyDisk : Disk :=
  {| existsSync := existsSync freshDisk;
     readFileSync := readFileSync freshDisk;
     canWrite := fun _ => false |}.

(* ================================================================= *)
(** ** Theorems *)

(* ----------------------------------------------------------------- *)
(** *** Strings *)

Lemma jsstring_eqb_eq (a b : jsstring) : jsstring_eqb a b = true <-> a = b.
Proof.
  unfold jsstring_eqb. destruct (list_eq_dec N.eq_dec a b); split; congruence.
Qed.

Lemma jsstring_eqb_neq (a b : jsstring) : jsstring_eqb a b = false <-> a <> b.
Proof.
  unfold jsstring_eqb. destruct (list_eq_dec N.eq_dec a b); split; congruence.
Qed.

Lemma startsWith_spec (s t : jsstring) :
  startsWith s t = true <-> exists r, s = t ++ r.
Proof.
  revert s. induction t as [|d t IH]; intros s; simpl.
  - split; [intros _; now exists s | reflexivity].
  - destruct s as [|c s]; simpl.
    + split; [discriminate | intros [r H]; discriminate].
    + rewrite andb_true_iff, N.eqb_eq, IH. split.
      * intros [-> [r ->]]. now exists r.
      * intros [r H]. injection H as -> ->. eauto.
Qed.

Lemma includes_spec (s t : jsstring) :
  includes s t = true <-> exists pre post, s = pre ++ t ++ post.
Proof.
  induction s as [|c s IH].
  - simpl. rewrite orb_false_r, startsWith_spec. split.
    + intros [r H]. now exists [], r.
    + intros (pre & post & H). destruct pre; [now exists post|discriminate].
  - cbn [includes]. rewrite orb_true_iff, startsWith_spec, IH. split.
    + intros [[r H] | (pre & post & H)].
      * now exists [], r.
      * exists (c :: pre), post. now rewrite H.
    + intros (pre & post & H). destruct pre as [|c' pre].
      * left. now exists post.
      * right. injection H as _ H. now exists pre, post.
Qed.

Lemma split_not_nil (s : jsstring) : split s <> [].
Proof.
  induction s as [|c s IH]; simpl; [discriminate|].
  destruct (c =? LF)%N; [discriminate|]. destruct (split s); discriminate.
Qed.

Lemma join_cons (l : jsstring) (ls : list jsstring) :
  ls <> [] -> join (l :: ls) = l ++ LF :: join ls.
Proof. destruct ls; [congruence | reflexivity]. Qed.

Lemma join_cons_cons (c : codeUnit) (l : jsstring) (ls : list jsstring) :
  join ((c :: l) :: ls) = c :: join (l :: ls).
Proof. destruct ls; reflexivity. Qed.

(** Splitting at the line feeds and joining with line feeds gives the
    text back. *)
Lemma join_split (s : jsstring) : join (split s) = s.
Proof.
  induction s as [|c s IH]; [reflexivity|]. simpl.
  destruct (N.eqb_spec c LF) as [->|Hc].
  - rewrite join_cons by apply split_not_nil. now rewrite IH.
  - pose proof (split_not_nil s) as Hne.
    destruct (split s) as [|l ls]; [congruence|].
    rewrite join_cons_cons. now rewrite IH.
Qed.

Lemma split_app_LF (a b : jsstring) :
  split (a ++ LF :: b) = split a ++ split b.
Proof.
  induction a as [|c a IH]; simpl.
  - reflexivity.
  - destruct (c =? LF)%N.
    + now rewrite IH.
    + rewrite IH. pose proof (split_not_nil a).
      destruct (split a); [congruence | reflexivity].
Qed.

Lemma split_no_LF (s : jsstring) : ~ In LF s -> split s = [s].
Proof.
  induction s as [|c s IH]; intros H; [reflexivity|]. simpl.
  destruct (N.eqb_spec c LF) as [->|Hc].
  - exfalso. apply H. now left.
  - rewrite IH; [reflexivity|]. intros Hin. apply H. now right.
Qed.

Lemma split_lines_no_LF (s l : jsstring) : In l (split s) -> ~ In LF l.
Proof.
  revert l. induction s as [|c s IH]; intros l; simpl.
  - intros [<-|[]]. simpl. tauto.
  - destruct (N.eqb_spec c LF) as [->|Hc].
    + intros [<-|H]; [simpl; tauto | now apply IH].
    + pose proof (split_not_nil s) as Hne.
      destruct (split s) as [|l0 ls]; [congruence|].
      intros [<-|H].
      * intros [E|Hin]; [congruence|]. eapply IH; [now left | exact Hin].
      * apply IH. now right.
Qed.

(* ----------------------------------------------------------------- *)
(** *** The plain copy *)

(** C1. The [content] field of the processed template is the input text,
    code unit for code unit, whatever the input (the empty text
    included); and it is this field that the handler writes to [.env]: when
    the copy step writes at all, its first event is the write of the text
    it read from the template, to [envPath]. *)
Theorem plain_copy_is_input :
  (forall text : jsstring, content (processTemplateContent text) = text)
  /\ content (processTemplateContent []) = []
  /\ (forall workspaceRoot selectedTemplate envPath d u templateContent,
        readFileSync d selectedTemplate = Some templateContent ->
        canWrite d envPath = true ->
        exists rest,
          trace (copyTemplate workspaceRoot selectedTemplate envPath d u)
          = WriteFile envPath templateContent :: rest).
Proof.
  split; [reflexivity|]. split; [reflexivity|].
  intros root sel env d u c Hread Hwrite.
  unfold copyTemplate, writeFileSync. rewrite Hread, Hwrite. simpl.
  eexists. reflexivity.
Qed.

Lemma plain_copy_is_input_witness :
  exists rest,
    trace (copyTemplate ws (ws ++ [lit ".env.example"]) (ws ++ [lit ".env"])
             fullDisk (userWho None None None))
    = WriteFile (ws ++ [lit ".env"]) (lit "node_modules") :: rest.
Proof.
  apply (proj2 (proj2 plain_copy_is_input)
           ws (ws ++ [lit ".env.example"]) (ws ++ [lit ".env"])
           fullDisk (userWho None None None) (lit "node_modules"));
    reflexivity.
Defined.

(* ----------------------------------------------------------------- *)
(** *** The assignment pattern *)

Lemma isSpace_not_keyChar (c : codeUnit) : isSpace c = true -> isKeyChar c = false.
Proof.
  intros H. destruct (isKeyChar c) eqn:K; [exfalso | reflexivity].
  unfold isSpace, isWhiteSpace, isLineTerminator in H.
  unfold isKeyChar, isAsciiLetter, isAsciiDigit in K.
  repeat rewrite ?orb_true_iff, ?andb_true_iff, ?N.eqb_eq, ?N.leb_le in H.
  repeat rewrite ?orb_true_iff, ?andb_true_iff, ?N.eqb_eq, ?N.leb_le in K.
  lia.
Qed.

Lemma takeWhile_dropWhile (p : codeUnit -> bool) (s : jsstring) :
  takeWhile p s ++ dropWhile p s = s.
Proof.
  induction s as [|c s IH]; [reflexivity|]. simpl.
  destruct (p c); [simpl; now rewrite IH | reflexivity].
Qed.

Lemma takeWhile_all (p : codeUnit -> bool) (s : jsstring) :
  forallb p (takeWhile p s) = true.
Proof.
  induction s as [|c s IH]; [reflexivity|]. simpl.
  destruct (p c) eqn:E; [simpl; now rewrite E | reflexivity].
Qed.

Lemma dropWhile_head (p : codeUnit -> bool) (s : jsstring) :
  match dropWhile p s with c :: _ => p c = false | [] => True end.
Proof.
  induction s as [|c s IH]; [exact I|]. simpl.
  destruct (p c) eqn:E; [exact IH | exact E].
Qed.

Lemma dropWhile_app_all (p : codeUnit -> bool) (a b : jsstring) :
  forallb p a = true -> dropWhile p (a ++ b) = dropWhile p b.
Proof.
  induction a as [|c a IH]; [reflexivity|]. simpl.
  intros H. apply andb_true_iff in H as [-> H]. now apply IH.
Qed.

Lemma takeWhile_app_all (p : codeUnit -> bool) (a b : jsstring) :
  forallb p a = true -> takeWhile p (a ++ b) = a ++ takeWhile p b.
Proof.
  induction a as [|c a IH]; [reflexivity|]. simpl.
  intros H. apply andb_true_iff in H as [-> H]. now rewrite IH.
Qed.

Lemma dropWhile_stop (p : codeUnit -> bool) (c : codeUnit) (s : jsstring) :
  p c = false -> dropWhile p (c :: s) = c :: s.
Proof. intros H. simpl. now rewrite H. Qed.

Lemma forallb_dropWhile (p q : codeUnit -> bool) (s : jsstring) :
  forallb q s = true -> forallb q (dropWhile p s) = true.
Proof.
  induction s as [|c s IH]; [reflexivity|]. intros H. simpl.
  destruct (p c); [|exact H].
  simpl in H. apply andb_true_iff in H as [_ H]. now apply IH.
Qed.

(** A greedy star comes to its longest run when the continuation, if it
    fails there, fails at every shorter run as well. *)
Lemma starRun_greedy {R : Type} (p : codeUnit -> bool) (s : jsstring)
  (k : jsstring -> option R) :
  (k (dropWhile p s) = None ->
   forall i, i < length (takeWhile p s) -> k (skipn i s) = None) ->
  starRun p s k = k (dropWhile p s).
Proof.
  induction s as [|c s IH]; intros H; [reflexivity|]. cbn [starRun dropWhile].
  cbn [takeWhile dropWhile] in H. destruct (p c) eqn:Hc; [|reflexivity].
  rewrite IH by (intros Hk i Hi; apply (H Hk (S i)); simpl; lia).
  destruct (k (dropWhile p s)) eqn:Hk; [reflexivity|].
  apply (H eq_refl 0). simpl. lia.
Qed.

(** A star followed by the end of input takes the whole rest or fails. *)
Lemma starRun_to_end {R : Type} (p : codeUnit -> bool) (s : jsstring)
  (k : jsstring -> option R) :
  (forall c r, k (c :: r) = None) ->
  starRun p s k = if forallb p s then k [] else None.
Proof.
  intros Hk. induction s as [|c s IH]; [reflexivity|]. cbn [starRun forallb].
  destruct (p c); [|apply Hk]. rewrite IH. cbn [andb].
  destruct (forallb p s); [|apply Hk].
  destruct (k []); [reflexivity | apply Hk].
Qed.

Lemma skipn_in_takeWhile (p : codeUnit -> bool) (s : jsstring) (i : nat) :
  i < length (takeWhile p s) ->
  exists c r pre, skipn i s = c :: r /\ p c = true
                  /\ skipn i s = pre ++ dropWhile p s.
Proof.
  revert i. induction s as [|c s IH]; intros i Hi; [simpl in Hi; lia|].
  cbn [takeWhile] in Hi. destruct (p c) eqn:Hc; [|simpl in Hi; lia].
  destruct i as [|i].
  - exists c, s, (c :: takeWhile p s). cbn [skipn dropWhile]. rewrite Hc.
    cbn [app]. now rewrite takeWhile_dropWhile.
  - cbn [length] in Hi. destruct (IH i) as (c' & r & pre & H1 & H2 & H3); [lia|].
    exists c', r, pre. cbn [skipn dropWhile]. rewrite Hc. auto.
Qed.

Lemma firstn_takeWhile (p : codeUnit -> bool) (c : codeUnit) (s : jsstring) :
  firstn (length (c :: s) - length (dropWhile p s)) (c :: s)
  = c :: takeWhile p s.
Proof.
  rewrite <- (takeWhile_dropWhile p s) at 1 3.
  cbn [length]. rewrite length_app.
  replace (S (length (takeWhile p s) + length (dropWhile p s))
           - length (dropWhile p s))
    with (S (length (takeWhile p s))) by lia.
  cbn [firstn]. f_equal.
  rewrite firstn_app, firstn_all, Nat.sub_diag. cbn [firstn].
  apply app_nil_r.
Qed.

Lemma isKeyChar_not_space (c : codeUnit) : isKeyChar c = true -> isSpace c = false.
Proof.
  intros H. destruct (isSpace c) eqn:E; [|reflexivity].
  apply isSpace_not_keyChar in E. congruence.
Qed.

Lemma isKeyChar_not_equals (c : codeUnit) :
  isKeyChar c = true -> isEqualsSign c = false.
Proof.
  unfold isEqualsSign. destruct (N.eqb_spec c 61%N) as [->|]; [|reflexivity].
  discriminate.
Qed.

Lemma isSpace_not_equals (c : codeUnit) :
  isSpace c = true -> isEqualsSign c = false.
Proof.
  unfold isEqualsSign. destruct (N.eqb_spec c 61%N) as [->|]; [|reflexivity].
  discriminate.
Qed.

(** The match of the pattern at start index 0. *)
Lemma run_envVarPattern (line : jsstring) :
  run line envVarPattern line [] (fun _ caps => Some caps)
  = match greedyMatch line with
    | Some (key, value) => Some [key; value]
    | None => None
    end.
Proof.
  unfold envVarPattern. cbn [run]. rewrite Nat.eqb_refl.
  destruct line as [|c rest]; [reflexivity|]. cbn [greedyMatch].
  destruct (isKeyStart c); [|reflexivity].
  (* the key characters *)
  rewrite starRun_greedy.
  2:{ intros _ i Hi.
      destruct (skipn_in_takeWhile _ _ _ Hi) as (c' & r & _ & -> & Hc' & _).
      cbn [starRun]. rewrite (isKeyChar_not_space c' Hc').
      now rewrite (isKeyChar_not_equals c' Hc'). }
  (* the spaces before the sign *)
  rewrite starRun_greedy.
  2:{ intros _ i Hi.
      destruct (skipn_in_takeWhile _ _ _ Hi) as (c' & r & _ & -> & Hc' & _).
      now rewrite (isSpace_not_equals c' Hc'). }
  destruct (dropWhile isSpace (dropWhile isKeyChar rest)) as [|e afterEq];
    [reflexivity|].
  destruct (isEqualsSign e); [|reflexivity].
  (* the value, whatever the run of spaces before it *)
  set (key := firstn _ (c :: rest)).
  assert (Hkey : key = c :: takeWhile isKeyChar rest)
    by apply firstn_takeWhile.
  assert (Hvalue : forall x,
             starRun isDot x
               (fun s' =>
                  match s' with
                  | [] => Some (([] ++ [key]) ++ [firstn (length x - length s') x])
                  | _ :: _ => None
                  end)
             = if forallb isDot x then Some [key; x] else None).
  { intros x. rewrite starRun_to_end by reflexivity.
    cbn [length app]. now rewrite Nat.sub_0_r, firstn_all. }
  rewrite starRun_greedy.
  - rewrite Hvalue, Hkey.
    now destruct (forallb isDot (dropWhile isSpace afterEq)).
  - rewrite Hvalue. intros Hnone i Hi. rewrite Hvalue.
    destruct (skipn_in_takeWhile _ _ _ Hi) as (_ & _ & pre & _ & _ & ->).
    rewrite forallb_app.
    destruct (forallb isDot (dropWhile isSpace afterEq)); [discriminate|].
    now rewrite andb_false_r.
Qed.

(** With the start anchor in front, no later start index matches. *)
Lemma execFrom_anchored (input : jsstring) (r : regex) (s : jsstring) :
  length s < length input -> execFrom input (Cat Bol r) s = None.
Proof.
  induction s as [|c s IH]; intros H; cbn [execFrom run].
  - destruct (Nat.eqb_spec (length (@nil codeUnit)) (length input)); [lia|].
    reflexivity.
  - destruct (Nat.eqb_spec (length (c :: s)) (length input)); [lia|].
    apply IH. simpl in H. lia.
Qed.

(** The backtracking search of the pattern is the one greedy pass. *)
Lemma envVarMatch_greedy (line : jsstring) : envVarMatch line = greedyMatch line.
Proof.
  unfold envVarMatch, regexMatch.
  assert (H : execFrom line envVarPattern line
              = match greedyMatch line with
                | Some (key, value) => Some [key; value]
                | None => None
                end).
  { destruct line as [|c rest].
    - reflexivity.
    - cbn [execFrom]. rewrite run_envVarPattern.
      destruct (greedyMatch (c :: rest)) as [[key value]|]; [reflexivity|].
      apply execFrom_anchored. simpl. lia. }
  rewrite H. now destruct (greedyMatch line) as [[key value]|].
Qed.

(** A match of [envVarMatch] is a line of the declared shape, and the
    captured value starts with no space (the spaces went to the greedy
    run before it). *)
Lemma pattern_sound (line key value : jsstring) :
  envVarMatch line = Some (key, value) ->
  (exists w1 w2, assignmentShape line key w1 w2 value)
  /\ match value with c :: _ => isSpace c = false | [] => True end.
Proof.
  rewrite envVarMatch_greedy. unfold greedyMatch, isEqualsSign.
  destruct line as [|c rest]; [discriminate|].
  destruct (isKeyStart c) eqn:Hc; [|discriminate].
  destruct (dropWhile isSpace (dropWhile isKeyChar rest)) as [|e afterEq] eqn:Hd;
    [discriminate|].
  destruct (N.eqb_spec e 61%N) as [->|]; [|discriminate].
  destruct (forallb isDot (dropWhile isSpace afterEq)) eqn:Hv; [|discriminate].
  intros H. injection H as <- <-. split.
  - exists (takeWhile isSpace (dropWhile isKeyChar rest)),
           (takeWhile isSpace afterEq).
    unfold assignmentShape. repeat split.
    + simpl. f_equal.
      rewrite <- (takeWhile_dropWhile isKeyChar rest) at 1. f_equal.
      rewrite <- (takeWhile_dropWhile isSpace (dropWhile isKeyChar rest)) at 1.
      f_equal. rewrite Hd. f_equal. now rewrite takeWhile_dropWhile.
    + exists c, (takeWhile isKeyChar rest). auto using takeWhile_all.
    + apply takeWhile_all.
    + apply takeWhile_all.
    + exact Hv.
  - apply dropWhile_head.
Qed.

(** Every line of the declared shape is matched, with the same key; the
    captured value is the declared one less its leading spaces. *)
Lemma pattern_complete (line key w1 w2 value : jsstring) :
  assignmentShape line key w1 w2 value ->
  envVarMatch line = Some (key, dropWhile isSpace value).
Proof.
  intros (-> & (c & k & -> & Hc & Hk) & H1 & H2 & Hv).
  rewrite envVarMatch_greedy. unfold greedyMatch, isEqualsSign. simpl. rewrite Hc.
  assert (Hstop : takeWhile isKeyChar (w1 ++ 61%N :: w2 ++ value) = []
                  /\ dropWhile isKeyChar (w1 ++ 61%N :: w2 ++ value)
                     = w1 ++ 61%N :: w2 ++ value).
  { destruct w1 as [|s w1]; simpl.
    - now split.
    - simpl in H1. apply andb_true_iff in H1 as [Hs _].
      now rewrite (isSpace_not_keyChar s Hs). }
  destruct Hstop as [Ht Hd].
  rewrite (takeWhile_app_all isKeyChar k _ Hk), Ht, app_nil_r.
  rewrite (dropWhile_app_all isKeyChar k _ Hk), Hd.
  rewrite (dropWhile_app_all isSpace w1 _ H1).
  rewrite dropWhile_stop by reflexivity.
  rewrite N.eqb_refl.
  rewrite (dropWhile_app_all isSpace w2 _ H2).
  now rewrite (forallb_dropWhile isSpace isDot value Hv).
Qed.

(* ----------------------------------------------------------------- *)
(** *** Placeholder values *)

Lemma isPlaceholder_spec (value : jsstring) :
  isPlaceholder value = true <->
  value = [] \/ value = emptyDoubleQuoted \/ value = emptySingleQuoted
  \/ exists token, In token placeholderTokens
       /\ exists pre post, value = pre ++ token ++ post.
Proof.
  assert (Hempty : (match value with [] => true | _ :: _ => false end) = true
                   <-> value = []).
  { destruct value; split; congruence. }
  unfold isPlaceholder.
  rewrite !orb_true_iff, Hempty, !jsstring_eqb_eq, !includes_spec.
  unfold placeholderTokens. cbn [In]. split.
  - intros H.
    repeat match goal with H : _ \/ _ |- _ => destruct H as [H|H] end;
      try tauto;
      do 3 right; eexists; (split; [|exact H]);
      repeat (first [left; reflexivity | right]).
  - intros [H | [H | [H | (token & Hin & H)]]]; try tauto.
    repeat match goal with H : _ \/ _ |- _ => destruct H as [H|H] end;
      try contradiction; subst token; tauto.
Qed.

(** C2. A line matches the assignment pattern exactly when it is a key,
    spaces, the equals sign, spaces and a value without line terminator;
    the captured value is that value less its leading spaces.  On a line
    that matches, the captured value is classified as a placeholder exactly
    when it is empty, is one of the two empty-quoted forms, or has one of
    the ten tokens as a substring (code units compared as they are, so case
    matters).  The three lines of the specification are classified as it
    says. *)
Theorem placeholder_classification :
  (forall line key value : jsstring,
      envVarMatch line = Some (key, value) ->
      (exists w1 w2, assignmentShape line key w1 w2 value)
      /\ isPlaceholderLine line = isPlaceholder value
      /\ (isPlaceholder value = true <->
          value = [] \/ value = emptyDoubleQuoted \/ value = emptySingleQuoted
          \/ exists token, In token placeholderTokens
               /\ exists pre post, value = pre ++ token ++ post))
  /\ (forall line key w1 w2 value : jsstring,
        assignmentShape line key w1 w2 value ->
        envVarMatch line = Some (key, dropWhile isSpace value))
  /\ placeholderTokens
     = [lit "your-"; lit "YOUR_"; lit "example"; lit "EXAMPLE";
        lit "placeholder"; lit "PLACEHOLDER"; lit "change-me";
        lit "CHANGE_ME"; lit "xxx"; lit "XXX"]
  /\ (envVarMatch (lit "API_KEY=your-key-here")
        = Some (lit "API_KEY", lit "your-key-here")
      /\ isPlaceholder (lit "your-key-here") = true)
  /\ (envVarMatch (lit "PORT=8080") = Some (lit "PORT", lit "8080")
      /\ isPlaceholder (lit "8080") = false)
  /\ (envVarMatch (lit "NAME=" ++ emptyDoubleQuoted)
        = Some (lit "NAME", emptyDoubleQuoted)
      /\ isPlaceholder emptyDoubleQuoted = true).
Proof.
  split; [|split].
  - intros line key value Hm. split; [|split].
    + apply (pattern_sound line key value Hm).
    + unfold isPlaceholderLine. now rewrite Hm.
    + apply isPlaceholder_spec.
  - exact pattern_complete.
  - repeat split; vm_compute; reflexivity.
Qed.

Lemma placeholder_classification_witness :
  isPlaceholder (lit "your-key-here") = true <->
  lit "your-key-here" = [] \/ lit "your-key-here" = emptyDoubleQuoted
  \/ lit "your-key-here" = emptySingleQuoted
  \/ exists token, In token placeholderTokens
       /\ exists pre post, lit "your-key-here" = pre ++ token ++ post.
Proof.
  apply (proj2 (proj2 (proj1 placeholder_classification
           (lit "API_KEY=your-key-here") (lit "API_KEY") (lit "your-key-here")
           eq_refl))).
Defined.

(* ----------------------------------------------------------------- *)
(** *** The line loop *)

Lemma placeholderLine_inv (line : jsstring) :
  isPlaceholderLine line = true ->
  exists key value,
    envVarMatch line = Some (key, value) /\ isPlaceholder value = true.
Proof.
  unfold isPlaceholderLine.
  destruct (envVarMatch line) as [[key value]|]; [eauto | discriminate].
Qed.

Lemma loopBody_placeholder (st : Loop.state) (line key value : jsstring) :
  envVarMatch line = Some (key, value) ->
  isPlaceholder value = true ->
  loopBody st line
  = Loop.mk
      (Loop.snippetLines st
       ++ [(key ++ lit "=") ++ tabStop (Loop.tabStopIndex st) value])
      (S (Loop.tabStopIndex st))
      true
      (if Loop.hasTabStops st then Loop.firstValuePosition st
       else Some (Loop.currentPosition st + length (key ++ lit "=")))
      (Loop.currentPosition st + (length line + 1)).
Proof.
  intros Hm Hp. unfold loopBody. rewrite Hm, Hp. unfold push. cbn [Loop.hasTabStops].
  destruct (Loop.hasTabStops st); reflexivity.
Qed.

Lemma loopBody_other (st : Loop.state) (line : jsstring) :
  isPlaceholderLine line = false ->
  loopBody st line
  = Loop.mk (Loop.snippetLines st ++ [line]) (Loop.tabStopIndex st)
      (Loop.hasTabStops st) (Loop.firstValuePosition st)
      (Loop.currentPosition st + (length line + 1)).
Proof.
  unfold isPlaceholderLine, loopBody. intros H.
  destruct (envVarMatch line) as [[key value]|]; [rewrite H|]; reflexivity.
Qed.

Lemma annotate_placeholder (index : nat) (line key value : jsstring)
  (rest : list jsstring) :
  envVarMatch line = Some (key, value) ->
  isPlaceholder value = true ->
  annotate index (line :: rest)
  = ((key ++ lit "=") ++ tabStop index value) :: annotate (S index) rest.
Proof. intros Hm Hp. cbn [annotate]. now rewrite Hm, Hp. Qed.

Lemma annotate_other (index : nat) (line : jsstring) (rest : list jsstring) :
  isPlaceholderLine line = false ->
  annotate index (line :: rest) = line :: annotate index rest.
Proof.
  unfold isPlaceholderLine. intros H. cbn [annotate].
  destruct (envVarMatch line) as [[key value]|]; [rewrite H|]; reflexivity.
Qed.

(** The two shapes of an iteration, for case analysis. *)
Ltac line_cases line :=
  let Hl := fresh "Hl" in
  let key := fresh "key" in
  let value := fresh "value" in
  let Hm := fresh "Hm" in
  let Hp := fresh "Hp" in
  destruct (isPlaceholderLine line) eqn:Hl;
  [ destruct (placeholderLine_inv line Hl) as (key & value & Hm & Hp)
  | ].

Lemma loop_snippetLines (lines : list jsstring) (st : Loop.state) :
  Loop.snippetLines (fold_left loopBody lines st)
  = Loop.snippetLines st ++ annotate (Loop.tabStopIndex st) lines.
Proof.
  revert st. induction lines as [|line rest IH]; intros st; cbn [fold_left].
  - simpl. now rewrite app_nil_r.
  - rewrite IH. line_cases line.
    + rewrite (loopBody_placeholder st line key value Hm Hp).
      rewrite (annotate_placeholder _ line key value rest Hm Hp).
      cbn [Loop.snippetLines Loop.tabStopIndex]. now rewrite <- app_assoc.
    + rewrite (loopBody_other st line Hl), (annotate_other _ line rest Hl).
      cbn [Loop.snippetLines Loop.tabStopIndex]. now rewrite <- app_assoc.
Qed.

Lemma loop_hasTabStops (lines : list jsstring) (st : Loop.state) :
  Loop.hasTabStops (fold_left loopBody lines st)
  = Loop.hasTabStops st || existsb isPlaceholderLine lines.
Proof.
  revert st. induction lines as [|line rest IH]; intros st;
    cbn [fold_left existsb].
  - now rewrite orb_false_r.
  - rewrite IH. line_cases line.
    + rewrite (loopBody_placeholder st line key value Hm Hp).
      cbn [Loop.hasTabStops]. now rewrite orb_true_r.
    + rewrite (loopBody_other st line Hl). reflexivity.
Qed.

Lemma loopBody_currentPosition (st : Loop.state) (line : jsstring) :
  Loop.currentPosition (loopBody st line)
  = Loop.currentPosition st + (length line + 1).
Proof.
  line_cases line.
  - now rewrite (loopBody_placeholder st line key value Hm Hp).
  - now rewrite (loopBody_other st line Hl).
Qed.

Lemma loop_currentPosition (lines : list jsstring) (st : Loop.state) :
  Loop.currentPosition (fold_left loopBody lines st)
  = Loop.currentPosition st + lineStart lines.
Proof.
  revert st. induction lines as [|line rest IH]; intros st;
    cbn [fold_left lineStart].
  - lia.
  - rewrite IH, loopBody_currentPosition. lia.
Qed.

(** Once a tab stop has been pushed, the recorded position stays. *)
Lemma loop_first_kept (lines : list jsstring) (st : Loop.state) :
  Loop.hasTabStops st = true ->
  Loop.firstValuePosition (fold_left loopBody lines st)
  = Loop.firstValuePosition st.
Proof.
  revert st. induction lines as [|line rest IH]; intros st H;
    cbn [fold_left]; [reflexivity|].
  line_cases line.
  - rewrite (loopBody_placeholder st line key value Hm Hp).
    rewrite IH by reflexivity. cbn [Loop.firstValuePosition]. now rewrite H.
  - rewrite (loopBody_other st line Hl). now rewrite IH.
Qed.

(** Lines that are not placeholders leave the flag, the recorded position
    and the next index as they were. *)
Lemma loop_no_placeholder (lines : list jsstring) (st : Loop.state) :
  (forall line, In line lines -> isPlaceholderLine line = false) ->
  Loop.firstValuePosition (fold_left loopBody lines st)
  = Loop.firstValuePosition st
  /\ Loop.hasTabStops (fold_left loopBody lines st) = Loop.hasTabStops st
  /\ Loop.tabStopIndex (fold_left loopBody lines st) = Loop.tabStopIndex st.
Proof.
  revert st. induction lines as [|line rest IH]; intros st H;
    cbn [fold_left]; [auto|].
  assert (Hl : isPlaceholderLine line = false) by (apply H; now left).
  destruct (IH (loopBody st line)) as (-> & -> & ->);
    [intros l Hin; apply H; now right|].
  rewrite (loopBody_other st line Hl). auto.
Qed.

(** The position the loop records: the start of the first placeholder
    line, plus the length of its key, plus one. *)
Lemma first_value_position_formula
  (text : jsstring) (before after : list jsstring) (line key value : jsstring) :
  split text = before ++ line :: after ->
  (forall l, In l before -> isPlaceholderLine l = false) ->
  envVarMatch line = Some (key, value) ->
  isPlaceholder value = true ->
  firstValuePosition (processTemplateContent text)
  = Some (lineStart before + (length key + 1)).
Proof.
  intros Hs Hb Hm Hp. unfold processTemplateContent, runLoop.
  cbn [firstValuePosition].
  rewrite Hs, fold_left_app. cbn [fold_left].
  destruct (loop_no_placeholder before loopInit Hb) as (Hf & Hh & _).
  pose proof (loop_currentPosition before loopInit) as Hc.
  cbn in Hh, Hc.
  rewrite (loopBody_placeholder _ line key value Hm Hp).
  rewrite loop_first_kept by reflexivity.
  cbn [Loop.firstValuePosition]. rewrite Hh, Hc, length_app. reflexivity.
Qed.

Lemma annotate_length (index : nat) (lines : list jsstring) :
  length (annotate index lines) = length lines.
Proof.
  revert index. induction lines as [|line rest IH]; intros index;
    [reflexivity|].
  line_cases line.
  - rewrite (annotate_placeholder _ line key value rest Hm Hp).
    cbn [length]. now rewrite IH.
  - rewrite (annotate_other _ line rest Hl). cbn [length]. now rewrite IH.
Qed.

Lemma annotate_no_placeholder (index : nat) (lines : list jsstring) :
  (forall line, In line lines -> isPlaceholderLine line = false) ->
  annotate index lines = lines.
Proof.
  induction lines as [|line rest IH]; intros H; [reflexivity|].
  rewrite annotate_other by (apply H; now left).
  now rewrite IH by (intros l Hin; apply H; now right).
Qed.

Lemma placeholderCount_cons (line : jsstring) (rest : list jsstring) :
  placeholderCount (line :: rest)
  = (if isPlaceholderLine line then 1 else 0) + placeholderCount rest.
Proof.
  unfold placeholderCount. simpl. now destruct (isPlaceholderLine line).
Qed.

Lemma annotate_nth (lines : list jsstring) :
  forall index i line,
    nth_error lines i = Some line ->
    nth_error (annotate index lines) i
    = Some (emitted (index + placeholderCount (firstn i lines)) line).
Proof.
  induction lines as [|l rest IH]; intros index i line H.
  - destruct i; discriminate.
  - destruct i as [|i].
    + cbn in H. injection H as ->. cbn [firstn].
      replace (index + placeholderCount []) with index
        by (unfold placeholderCount; simpl; lia).
      unfold emitted. line_cases line.
      * rewrite (annotate_placeholder _ line key value rest Hm Hp).
        now rewrite Hm, Hp.
      * rewrite (annotate_other _ line rest Hl).
        unfold isPlaceholderLine in Hl.
        destruct (envVarMatch line) as [[key value]|]; [rewrite Hl|];
          reflexivity.
    + cbn [nth_error] in H. cbn [firstn]. rewrite placeholderCount_cons.
      line_cases l.
      * rewrite (annotate_placeholder _ l key value rest Hm Hp).
        cbn [nth_error]. rewrite (IH _ _ _ H). do 2 f_equal. lia.
      * rewrite (annotate_other _ l rest Hl).
        cbn [nth_error]. rewrite (IH _ _ _ H). reflexivity.
Qed.



(** C10. When no line of the template is a placeholder line, the snippet
    text is the input text, no tab stop is reported and no position is
    recorded; splitting at line feeds and joining the lines back is the
    identity. *)
Theorem no_placeholder_identity :
  forall text : jsstring,
    (forall line, In line (split text) -> isPlaceholderLine line = false) ->
    snippetContent (processTemplateContent text) = text
    /\ hasTabStops (processTemplateContent text) = false
    /\ firstValuePosition (processTemplateContent text) = None
    /\ join (split text) = text.
Proof.
  intros text H. unfold processTemplateContent, runLoop.
  cbn [snippetContent hasTabStops firstValuePosition].
  destruct (loop_no_placeholder (split text) loopInit H) as (-> & -> & _).
  rewrite loop_snippetLines. cbn [Loop.snippetLines Loop.tabStopIndex loopInit app].
  rewrite annotate_no_placeholder by exact H.
  rewrite join_split. auto.
Qed.

Lemma no_placeholder_identity_witness :
  snippetContent (processTemplateContent (lit "PORT=8080" ++ LF :: lit "# note"))
  = lit "PORT=8080" ++ LF :: lit "# note".
Proof.
  apply (no_placeholder_identity (lit "PORT=8080" ++ LF :: lit "# note")).
  intros line Hin.
  assert (Hs : split (lit "PORT=8080" ++ LF :: lit "# note")
               = [lit "PORT=8080"; lit "# note"]) by (vm_compute; reflexivity).
  rewrite Hs in Hin.
  destruct Hin as [<-|[<-|[]]]; vm_compute; reflexivity.
Defined.

(* ----------------------------------------------------------------- *)
(** *** Where the recorded position lies in the text *)

Lemma join_last_length (before : list jsstring) (a : jsstring) :
  length (join (before ++ [a])) = lineStart before + length a.
Proof.
  induction before as [|l rest IH]; [reflexivity|].
  cbn [app lineStart]. rewrite join_cons by (destruct rest; discriminate).
  rewrite length_app. cbn [length]. rewrite IH. lia.
Qed.

Lemma join_cut (before after : list jsstring) (a b : jsstring) :
  exists tail,
    join (before ++ (a ++ b) :: after) = join (before ++ [a]) ++ b ++ tail.
Proof.
  induction before as [|l rest [tail IH]].
  - destruct after as [|l' after'].
    + exists []. cbn. now rewrite app_nil_r.
    + exists (LF :: join (l' :: after')). cbn [app].
      rewrite join_cons by discriminate. now rewrite <- app_assoc.
  - exists tail. cbn [app].
    rewrite !join_cons by (destruct rest; discriminate).
    rewrite IH. now rewrite <- app_assoc.
Qed.

(** The text up to the position that follows the equals sign of the first
    placeholder line is the lines before it, its key, the spaces [w1]
    between key and sign, and the sign: that position is the line start
    plus the length of the key plus the length of [w1] plus one.  The
    position the loop records is the line start plus the length of the key
    plus one: the two agree exactly when [w1] is empty. *)
Lemma first_value_position_and_spaces
  (text : jsstring) (before after : list jsstring) (line key value : jsstring) :
  split text = before ++ line :: after ->
  (forall l, In l before -> isPlaceholderLine l = false) ->
  envVarMatch line = Some (key, value) ->
  isPlaceholder value = true ->
  exists w1,
    forallb isSpace w1 = true
    /\ firstn (lineStart before + (length key + length w1 + 1)) text
       = join (before ++ [key ++ w1 ++ [61%N]])
    /\ firstValuePosition (processTemplateContent text)
       = Some (lineStart before + (length key + 1)).
Proof.
  intros Hs Hb Hm Hp.
  destruct (pattern_sound line key value Hm) as [(w1 & w2 & Hshape) _].
  destruct Hshape as (Hline & _ & Hw1 & _).
  exists w1. split; [exact Hw1|]. split.
  - assert (Hline' : line = (key ++ w1 ++ [61%N]) ++ w2 ++ value)
      by (rewrite Hline, <- !app_assoc; reflexivity).
    assert (Ht : text = join (before ++ line :: after))
      by (rewrite <- Hs; symmetry; apply join_split).
    destruct (join_cut before after (key ++ w1 ++ [61%N]) (w2 ++ value))
      as [tail Hcut].
    rewrite Ht, Hline'.
    etransitivity; [apply f_equal; exact Hcut|].
    replace (lineStart before + (length key + length w1 + 1))
      with (length (join (before ++ [key ++ w1 ++ [61%N]]))).
    + rewrite firstn_app, firstn_all, Nat.sub_diag. cbn [firstn].
      apply app_nil_r.
    + rewrite join_last_length, !length_app. cbn [length]. lia.
  - now apply (first_value_position_formula text before after line key value).
Qed.

(** C4. On the one-line template [KEY = your-key] the loop records
    offset 4.  The equals sign itself sits at offset 4 of the text, so the
    position that follows it is 5: the sum of the line start and the length
    of the rebuilt [keyPart] leaves out the space before the sign. *)
Theorem first_value_position_before_equals_sign :
  envVarMatch (lit "KEY = your-key") = Some (lit "KEY", lit "your-key")
  /\ isPlaceholder (lit "your-key") = true
  /\ firstValuePosition (processTemplateContent (lit "KEY = your-key")) = Some 4
  /\ nth_error (lit "KEY = your-key") 4 = Some 61%N
  /\ firstn 5 (lit "KEY = your-key") = lit "KEY =".
Proof. repeat split; vm_compute; reflexivity. Qed.

(* ----------------------------------------------------------------- *)
(** *** The ignore file *)

Lemma forallb_rev (p : codeUnit -> bool) (s : jsstring) :
  forallb p (rev s) = forallb p s.
Proof.
  induction s as [|c s IH]; [reflexivity|]. simpl.
  rewrite forallb_app, IH. simpl. rewrite andb_true_r. apply andb_comm.
Qed.

(** Spaces around a text that neither starts nor ends with a space are
    what [trim] removes. *)
Lemma trim_padded (l r mid : jsstring) (a b : codeUnit) :
  forallb isSpace l = true -> forallb isSpace r = true ->
  isSpace a = false -> isSpace b = false ->
  trim (l ++ (a :: mid ++ [b]) ++ r) = a :: mid ++ [b].
Proof.
  intros Hl Hr Ha Hb. unfold trim, trimStart, trimEnd.
  rewrite (dropWhile_app_all isSpace l _ Hl).
  cbn [app]. rewrite (dropWhile_stop isSpace a _ Ha).
  replace (a :: (mid ++ [b]) ++ r) with (((a :: mid) ++ [b]) ++ r)
    by reflexivity.
  rewrite !rev_app_distr. cbn [rev app].
  rewrite dropWhile_app_all by (now rewrite forallb_rev).
  rewrite (dropWhile_stop isSpace b _ Hb).
  cbn [rev]. rewrite rev_app_distr, rev_involutive. reflexivity.
Qed.

Lemma isEnvEntry_spec (line : jsstring) :
  isEnvEntry line = true <->
  trim line = lit ".env" \/ trim line = lit "/.env" \/ trim line = lit "*.env".
Proof.
  unfold isEnvEntry. rewrite !orb_true_iff, !jsstring_eqb_eq. tauto.
Qed.

Lemma hasEnv_spec (gitignoreContent : jsstring) :
  hasEnv gitignoreContent = true <->
  exists line, In line (split gitignoreContent)
    /\ (trim line = lit ".env" \/ trim line = lit "/.env"
        \/ trim line = lit "*.env").
Proof.
  unfold hasEnv. rewrite existsb_exists. split.
  - intros (line & Hin & H). exists line. now rewrite <- isEnvEntry_spec.
  - intros (line & Hin & H). exists line. now rewrite isEnvEntry_spec.
Qed.

Lemma endsWith_LF_spec (s : jsstring) :
  endsWith s [LF] = true <-> exists p, s = p ++ [LF].
Proof.
  unfold endsWith. cbn [rev app]. rewrite startsWith_spec. split.
  - intros [r H]. exists (rev r).
    rewrite <- (rev_involutive s), H. reflexivity.
  - intros [p ->]. exists (rev p). now rewrite rev_app_distr.
Qed.

Lemma path_eqb_refl (p : path) : path_eqb p p = true.
Proof.
  unfold path_eqb.
  destruct (list_eq_dec (list_eq_dec N.eq_dec) p p); congruence.
Qed.

Lemma checkGitignore_present (workspaceRoot : path) (d : Disk) (u : User)
  (gitignoreContent : jsstring) :
  readGitignore workspaceRoot d = Some gitignoreContent ->
  hasEnv gitignoreContent = true ->
  checkGitignore workspaceRoot d u = {| disk := d; trace := []; threw := false |}.
Proof. intros Hr Hh. unfold checkGitignore. now rewrite Hr, Hh. Qed.

Lemma newGitignoreContent_lines (gitignoreContent : jsstring) :
  exists kept,
    split gitignoreContent
    = kept ++ (if endsWith gitignoreContent [LF] then [[]] else [])
    /\ split (newGitignoreContent gitignoreContent) = kept ++ [lit ".env"; []].
Proof.
  unfold newGitignoreContent.
  destruct (endsWith gitignoreContent [LF]) eqn:He.
  - apply endsWith_LF_spec in He as [p ->]. exists (split p). split.
    + apply (split_app_LF p []).
    + rewrite app_nil_l, <- app_assoc. cbn [app].
      rewrite split_app_LF. f_equal.
  - exists (split gitignoreContent). split; [now rewrite app_nil_r|].
    cbn [app]. rewrite split_app_LF. f_equal.
Qed.

Lemma checkGitignore_writes_once (workspaceRoot : path) (d : Disk) (u : User) :
  length (filter isWrite (trace (checkGitignore workspaceRoot d u))) <= 1.
Proof.
  unfold checkGitignore.
  destruct (readGitignore workspaceRoot d) as [c|]; [|simpl; lia].
  destruct (hasEnv c); [simpl; lia|].
  destruct (gitignoreChoice u) as [[|]|]; try (simpl; lia).
  destruct (writeFileSync d _ _); simpl; lia.
Qed.

(* ----------------------------------------------------------------- *)
(** *** The locator *)

(** Induction on a directory tree, with the hypothesis for every entry of
    a listing. *)
Lemma node_nested_ind (P : node -> Prop) :
  P File -> P Other -> P NoStat ->
  (forall readable files,
      Forall (fun e => P (snd e)) files -> P (Dir readable files)) ->
  forall n, P n.
Proof.
  intros HF HO HN HD. fix IH 1.
  intros [|readable files| |]; [exact HF| |exact HO|exact HN].
  apply HD. induction files as [|[name m] rest IHrest]; constructor.
  - apply IH.
  - exact IHrest.
Qed.

Lemma searchDirectory_Dir (dirPath : path) (files : list (jsstring * node))
  (templates : list path) :
  searchDirectory dirPath (Dir true files) templates
  = searchEntries dirPath files templates.
Proof.
  cbn [searchDirectory]. revert templates.
  induction files as [|[file n] rest IH]; intros templates; [reflexivity|].
  destruct n as [|r fs| |]; simpl; rewrite ?IH; reflexivity.
Qed.

Lemma searchDirectory_not_listed (dirPath : path) (n : node)
  (templates : list path) :
  (forall files, n <> Dir true files) ->
  searchDirectory dirPath n templates = templates.
Proof.
  destruct n as [|[|] files| |]; intros H; try reflexivity.
  now destruct (H files).
Qed.

Lemma searchableb_spec (name : jsstring) :
  searchableb name = true <-> searchable name.
Proof.
  unfold searchableb, searchable.
  rewrite andb_true_iff, !negb_true_iff, jsstring_eqb_neq. tauto.
Qed.

Lemma arrayIncludes_spec (a : list jsstring) (x : jsstring) :
  arrayIncludes a x = true <-> In x a.
Proof.
  unfold arrayIncludes. rewrite existsb_exists. split.
  - intros (y & Hin & H). apply jsstring_eqb_eq in H. now subst.
  - intros H. exists x. split; [exact H | now apply jsstring_eqb_eq].
Qed.

(** The iterations of the loop, by the kind of the entry. *)
Lemma searchEntries_NoStat dirPath name rest templates :
  searchEntries dirPath ((name, NoStat) :: rest) templates = templates.
Proof. reflexivity. Qed.

Lemma searchEntries_Other dirPath name rest templates :
  searchEntries dirPath ((name, Other) :: rest) templates
  = searchEntries dirPath rest templates.
Proof. reflexivity. Qed.

Lemma searchEntries_File dirPath name rest templates :
  searchEntries dirPath ((name, File) :: rest) templates
  = searchEntries dirPath rest
      (if arrayIncludes templatePatterns name
       then templates ++ [pathJoin dirPath name] else templates).
Proof.
  cbn [searchEntries isDirectory isFile andb].
  now destruct (arrayIncludes templatePatterns name).
Qed.

Lemma searchEntries_Dir dirPath name readable files rest templates :
  searchEntries dirPath ((name, Dir readable files) :: rest) templates
  = searchEntries dirPath rest
      (if searchableb name
       then searchDirectory (pathJoin dirPath name) (Dir readable files) templates
       else templates).
Proof.
  cbn [searchEntries isDirectory isFile andb]. unfold searchableb.
  now destruct (negb (startsWith name (lit ".")) && _).
Qed.

(** The array comes back with what was in it, followed by what the call
    found. *)
Lemma searchDirectory_acc (n : node) :
  forall dirPath templates,
    searchDirectory dirPath n templates
    = templates ++ searchDirectory dirPath n [].
Proof.
  induction n as [| | |readable files IH] using node_nested_ind;
    intros dirPath templates;
    try (rewrite !searchDirectory_not_listed by discriminate;
         now rewrite app_nil_r).
  destruct readable;
    [|rewrite !searchDirectory_not_listed by discriminate;
      now rewrite app_nil_r].
  rewrite !searchDirectory_Dir. revert templates.
  induction files as [|[name child] rest IHrest]; intros templates.
  - simpl. now rewrite app_nil_r.
  - inversion IH as [|e l Hchild Hrest]; subst. cbn [snd] in Hchild.
    specialize (IHrest Hrest).
    destruct child as [|r fs| |].
    + rewrite !searchEntries_File.
      destruct (arrayIncludes templatePatterns name).
      * rewrite IHrest, (IHrest ([] ++ _)). now rewrite <- !app_assoc.
      * apply IHrest.
    + rewrite !searchEntries_Dir. destruct (searchableb name).
      * rewrite IHrest, (IHrest (searchDirectory _ _ [])).
        rewrite (Hchild _ templates). now rewrite <- app_assoc.
      * apply IHrest.
    + rewrite !searchEntries_Other. apply IHrest.
    + rewrite !searchEntries_NoStat. now rewrite app_nil_r.
Qed.

Lemma searchEntries_acc dirPath files templates :
  searchEntries dirPath files templates
  = templates ++ searchEntries dirPath files [].
Proof.
  rewrite <- !searchDirectory_Dir. apply searchDirectory_acc.
Qed.

Lemma searchEntries_cons dirPath name child rest :
  child <> NoStat ->
  searchEntries dirPath ((name, child) :: rest) []
  = searchEntries dirPath [(name, child)] [] ++ searchEntries dirPath rest [].
Proof.
  intros H. destruct child as [|r fs| |]; [| | |congruence].
  - rewrite !searchEntries_File.
    destruct (arrayIncludes templatePatterns name); [|reflexivity].
    now rewrite searchEntries_acc.
  - rewrite !searchEntries_Dir. destruct (searchableb name); [|reflexivity].
    now rewrite searchEntries_acc.
  - reflexivity.
Qed.

Lemma located_leaf dirPath n p :
  located dirPath n p -> exists readable files, n = Dir readable files.
Proof.
  intros (names & base & _ & Hr & _).
  inversion Hr as [m Hnil|r files name child rest m Hin Hres]; subst; eauto.
  destruct names; discriminate.
Qed.

(** A template file below a directory lies in its listing, or below one of
    the searchable entries of its listing. *)
Lemma located_Dir dirPath readable files p :
  located dirPath (Dir readable files) p <->
  exists name child,
    In (name, child) files
    /\ ((child = File /\ In name templatePatterns /\ p = pathJoin dirPath name)
        \/ (searchable name /\ located (pathJoin dirPath name) child p)).
Proof.
  unfold located, pathJoin. split.
  - intros (names & base & -> & Hr & Hb & Hs).
    destruct names as [|d names]; cbn [app] in Hr.
    + inversion Hr as [|r fs name child rest m Hin Hres]; subst.
      inversion Hres; subst. exists base, File. split; [exact Hin|].
      left. auto.
    + inversion Hr as [|r fs name child rest m Hin Hres]; subst.
      inversion Hs as [|x l Hd Hs']; subst.
      exists d, child. split; [exact Hin|]. right. split; [exact Hd|].
      exists names, base. rewrite <- app_assoc. auto.
  - intros (name & child & Hin & [(-> & Hb & ->) | (Hd & names & base & -> & Hr & Hb & Hs)]).
    + exists [], name. repeat split; auto.
      cbn [app]. econstructor; [exact Hin | constructor].
    + exists (name :: names), base. rewrite <- app_assoc. repeat split; auto.
      cbn [app]. econstructor; eauto.
Qed.

(** Whatever the tree, a path the locator returns names a template file
    reached through searchable directories. *)
Lemma searchDirectory_sound (n : node) :
  forall dirPath p,
    In p (searchDirectory dirPath n []) -> located dirPath n p.
Proof.
  induction n as [| | |readable files IH] using node_nested_ind;
    intros dirPath p; try (intros []).
  destruct readable; [|intros []].
  rewrite searchDirectory_Dir. intros Hin. apply located_Dir.
  induction files as [|[name child] rest IHrest]; [destruct Hin|].
  inversion IH as [|e l Hchild Hrest]; subst. cbn [snd] in Hchild.
  assert (Hnext : In p (searchEntries dirPath rest []) ->
                  exists name0 child0, In (name0, child0) ((name, child) :: rest)
                    /\ ((child0 = File /\ In name0 templatePatterns
                         /\ p = pathJoin dirPath name0)
                        \/ (searchable name0
                            /\ located (pathJoin dirPath name0) child0 p))).
  { intros H. destruct (IHrest Hrest H) as (n0 & c0 & Hin0 & H0).
    exists n0, c0. split; [now right | exact H0]. }
  destruct child as [|r fs| |].
  - rewrite searchEntries_cons in Hin by discriminate.
    apply in_app_or in Hin as [Hin|Hin]; [|now apply Hnext].
    rewrite searchEntries_File in Hin.
    destruct (arrayIncludes templatePatterns name) eqn:Ha; [|destruct Hin].
    destruct Hin as [<-|[]]. exists name, File. split; [now left|].
    left. apply arrayIncludes_spec in Ha. auto.
  - rewrite searchEntries_cons in Hin by discriminate.
    apply in_app_or in Hin as [Hin|Hin]; [|now apply Hnext].
    rewrite searchEntries_Dir in Hin.
    destruct (searchableb name) eqn:Hs; [|destruct Hin].
    exists name, (Dir r fs). split; [now left|]. right.
    split; [now apply searchableb_spec | now apply Hchild].
  - rewrite searchEntries_Other in Hin. now apply Hnext.
  - destruct Hin.
Qed.

Lemma healthy_Dir readable files :
  healthy (Dir readable files) <->
  readable = true /\ Forall (fun e => healthy (snd e)) files.
Proof.
  cbn [healthy]. split; intros [Hr H]; (split; [exact Hr|]).
  - induction files as [|[name m] rest IH]; constructor; [apply H | apply IH, H].
  - induction files as [|[name m] rest IH]; [exact I|].
    inversion H; subst. split; [assumption | now apply IH].
Qed.

Lemma distinctNames_Dir readable files :
  distinctNames (Dir readable files) <->
  NoDup (map fst files) /\ Forall (fun e => distinctNames (snd e)) files.
Proof.
  cbn [distinctNames]. split; intros [Hr H]; (split; [exact Hr|]).
  - clear Hr. induction files as [|[name m] rest IH]; constructor;
      [apply H | apply IH, H].
  - clear Hr. induction files as [|[name m] rest IH]; [exact I|].
    inversion H; subst. split; [assumption | now apply IH].
Qed.

(** On a tree where no call fails, every template file reached through
    searchable directories is returned. *)
Lemma searchDirectory_complete (n : node) :
  healthy n ->
  forall dirPath p,
    located dirPath n p -> In p (searchDirectory dirPath n []).
Proof.
  induction n as [| | |readable files IH] using node_nested_ind;
    intros Hh dirPath p Hloc;
    try (destruct (located_leaf _ _ _ Hloc) as (r & fs & E); discriminate).
  apply healthy_Dir in Hh as [-> Hh]. rewrite searchDirectory_Dir.
  apply located_Dir in Hloc as (name & child & Hin & Hfound).
  induction files as [|[name0 child0] rest IHrest]; [destruct Hin|].
  inversion IH as [|e l Hchild Hrest]; subst. cbn [snd] in Hchild.
  inversion Hh as [|e l Hh0 Hhrest]; subst. cbn [snd] in Hh0.
  rewrite searchEntries_cons by (intros ->; exact Hh0).
  apply in_or_app. destruct Hin as [E|Hin].
  - injection E as -> ->. left.
    destruct Hfound as [(-> & Hb & ->) | (Hs & Hloc)].
    + rewrite searchEntries_File.
      apply arrayIncludes_spec in Hb. rewrite Hb. now left.
    + destruct (located_leaf _ _ _ Hloc) as (r & fs & ->).
      rewrite searchEntries_Dir.
      apply searchableb_spec in Hs. rewrite Hs. cbn [searchEntries].
      now apply Hchild.
  - right. now apply IHrest.
Qed.

(** Every path found in a listing starts with the directory and the name
    of one of its entries. *)
Lemma searchEntries_prefix dirPath files p :
  In p (searchEntries dirPath files []) ->
  exists name tail, In name (map fst files) /\ p = dirPath ++ name :: tail.
Proof.
  rewrite <- searchDirectory_Dir. intros H.
  apply searchDirectory_sound, located_Dir in H
    as (name & child & Hin & Hfound).
  exists name.
  assert (Hname : In name (map fst files))
    by (apply in_map_iff; now exists (name, child)).
  destruct Hfound as [(_ & _ & ->) | (_ & names & base & -> & _)].
  - exists []. auto.
  - exists (names ++ [base]). split; [exact Hname|].
    unfold pathJoin. now rewrite <- app_assoc.
Qed.

(** With distinct names in every listing, no path is returned twice. *)
Lemma searchDirectory_NoDup (n : node) :
  distinctNames n ->
  forall dirPath, NoDup (searchDirectory dirPath n []).
Proof.
  induction n as [| | |readable files IH] using node_nested_ind;
    intros Hd dirPath; try constructor.
  destruct readable; [|constructor].
  apply distinctNames_Dir in Hd as [Hnames Hd].
  rewrite searchDirectory_Dir.
  induction files as [|[name child] rest IHrest]; [constructor|].
  inversion IH as [|e l Hchild Hrest]; subst. cbn [snd] in Hchild.
  inversion Hd as [|e l Hd0 Hdrest]; subst. cbn [snd] in Hd0.
  cbn [map fst] in Hnames. inversion Hnames as [|x l Hfresh Hnames']; subst.
  specialize (IHrest Hrest Hnames' Hdrest).
  destruct child as [|r fs| |]; [| | |constructor].
  - rewrite searchEntries_cons by discriminate. rewrite searchEntries_File.
    destruct (arrayIncludes templatePatterns name); [|exact IHrest].
    cbn [app searchEntries]. constructor; [|exact IHrest].
    intros Hin. apply searchEntries_prefix in Hin as (name' & tail & Hin & E).
    unfold pathJoin in E. apply app_inv_head in E. injection E as -> _.
    contradiction.
  - rewrite searchEntries_cons by discriminate. rewrite searchEntries_Dir.
    destruct (searchableb name); [|exact IHrest].
    cbn [searchEntries].
    apply NoDup_app; [now apply Hchild | exact IHrest |].
    intros p Hp Hin.
    apply searchDirectory_sound in Hp as (names & base & -> & _).
    apply searchEntries_prefix in Hin as (name' & tail & Hin & E).
    unfold pathJoin in E. rewrite <- app_assoc in E.
    apply app_inv_head in E. injection E as -> _. contradiction.
  - rewrite searchEntries_Other. exact IHrest.
Qed.

Lemma unreadable_directory_skipped dirPath name files rest templates :
  searchEntries dirPath ((name, Dir false files) :: rest) templates
  = searchEntries dirPath rest templates.
Proof.
  rewrite searchEntries_Dir. now destruct (searchableb name).
Qed.

(** An entry that cannot be examined ends the scan of its listing: nothing
    listed after it is looked at. *)
Lemma entries_after_failed_stat_ignored dirPath before name after templates :
  searchEntries dirPath (before ++ (name, NoStat) :: after) templates
  = searchEntries dirPath before templates.
Proof.
  revert templates. induction before as [|[name0 child] rest IH];
    intros templates; [reflexivity|].
  cbn [app]. destruct child as [|r fs| |].
  - rewrite !searchEntries_File. apply IH.
  - rewrite !searchEntries_Dir. apply IH.
  - rewrite !searchEntries_Other. apply IH.
  - reflexivity.
Qed.

(** C8. The listing of the workspace holds an entry that can no longer
    be examined, and after it a template: the locator returns nothing,
    though the template is a regular file in a directory that was listed.
    Had the first entry been a directory that cannot be listed, the
    template after it would have been returned. *)
Theorem stat_failure_hides_readable_siblings :
  findTemplateFiles ws treeWithVanishedEntry = []
  /\ located ws treeWithVanishedEntry [lit "ws"; lit ".env.example"]
  /\ findTemplateFiles ws treeWithLockedDirectory
     = [[lit "ws"; lit ".env.example"]].
Proof.
  split; [reflexivity|]. split; [|vm_compute; reflexivity].
  exists [], (lit ".env.example"). repeat split.
  - cbn [app]. unfold treeWithVanishedEntry.
    econstructor; [right; left; reflexivity | constructor].
  - cbn. tauto.
  - constructor.
Qed.

(* ----------------------------------------------------------------- *)
(** *** The command handler *)

Lemma checkGitignore_no_backOut workspaceRoot d u :
  existsb isBackOut (trace (checkGitignore workspaceRoot d u)) = false.
Proof.
  unfold checkGitignore.
  destruct (readGitignore workspaceRoot d) as [c|]; [|reflexivity].
  destruct (hasEnv c); [reflexivity|].
  destruct (gitignoreChoice u) as [[|]|]; try reflexivity.
  destruct (writeFileSync d _ _); reflexivity.
Qed.

Lemma copyTemplate_no_backOut workspaceRoot selectedTemplate envPath d u :
  existsb isBackOut
    (trace (copyTemplate workspaceRoot selectedTemplate envPath d u)) = false.
Proof.
  unfold copyTemplate.
  destruct (readFileSync d selectedTemplate) as [c|]; [|reflexivity].
  destruct (writeFileSync d envPath _) as [d1|]; [|reflexivity].
  cbn [trace]. rewrite !existsb_app, checkGitignore_no_backOut.
  destruct (hasTabStops (processTemplateContent c)); reflexivity.
Qed.

Lemma tryCopyTemplate_no_backOut workspaceRoot selectedTemplate envPath d u before :
  existsb isBackOut before = false ->
  existsb isBackOut
    (trace (tryCopyTemplate workspaceRoot selectedTemplate envPath d u before))
  = false.
Proof.
  intros Hb. unfold tryCopyTemplate.
  destruct (threw (copyTemplate _ _ _ d u)); cbn [trace done];
    rewrite !existsb_app, Hb, copyTemplate_no_backOut; reflexivity.
Qed.

Lemma withTemplate_backOut workspaceRoot selectedTemplate d u before :
  existsb isBackOut before = false ->
  existsb changesSomething before = false ->
  existsb isBackOut
    (trace (withTemplate workspaceRoot selectedTemplate d u before)) = true ->
  existsb changesSomething
    (trace (withTemplate workspaceRoot selectedTemplate d u before)) = false
  /\ disk (withTemplate workspaceRoot selectedTemplate d u before) = d
  /\ threw (withTemplate workspaceRoot selectedTemplate d u before) = false.
Proof.
  intros Hb Hc. unfold withTemplate.
  destruct (existsSync d _).
  - destruct (existingChoice u) as [[| |]|].
    + intros _. cbn [trace disk threw done].
      rewrite existsb_app, Hc. auto.
    + rewrite tryCopyTemplate_no_backOut; [discriminate|].
      rewrite existsb_app, Hb. reflexivity.
    + intros _. cbn [trace disk threw done].
      rewrite existsb_app, Hc. auto.
    + intros _. cbn [trace disk threw done].
      rewrite existsb_app, Hc. auto.
  - rewrite tryCopyTemplate_no_backOut by exact Hb. discriminate.
Qed.

(** C9. Whenever the trace of the command holds a dismissed template
    choice, or the existing-file warning answered by Cancel, by a dismissal
    or by Open Existing, the command has returned without an exception, the
    disk is the one it started with, and no event of the trace writes a
    file or edits the text in the editor. *)
Theorem backing_out_changes_nothing :
  forall (w : World) (u : User),
    existsb isBackOut (trace (activate w u)) = true ->
    existsb changesSomething (trace (activate w u)) = false
    /\ filter isWrite (trace (activate w u)) = []
    /\ disk (activate w u) = files w
    /\ threw (activate w u) = false.
Proof.
  intros w u H.
  assert (Hmain : existsb changesSomething (trace (activate w u)) = false
                  /\ disk (activate w u) = files w
                  /\ threw (activate w u) = false).
  { revert H. unfold activate.
    destruct (workspaceFolders w) as [[|workspaceRoot others]|];
      try discriminate.
    destruct (findTemplateFiles workspaceRoot (tree w)) as [|t1 [|t2 ts]];
      try discriminate.
    - now apply withTemplate_backOut.
    - destruct (pickTemplate u _) as [item|].
      + now apply withTemplate_backOut.
      + intros _. cbn. auto. }
  destruct Hmain as (Hc & Hd & Ht). repeat split; try assumption.
  clear -Hc. induction (trace (activate w u)) as [|e t IH]; [reflexivity|].
  cbn [existsb] in Hc. apply orb_false_iff in Hc as [He Hc].
  cbn [filter]. destruct e; try discriminate; cbn [isWrite]; now apply IH.
Qed.

(** The four ways of backing out, each on the sample workspace: the
    template choice dismissed; Cancel, a dismissal and Open Existing at the
    warning. *)
Lemma backing_out_changes_nothing_witness :
  filter isWrite (trace (activate sampleWorld (userWho None None None))) = []
  /\ filter isWrite
       (trace (activate sampleWorld
                 (userWho (Some topTemplate) (Some Cancel) (Some Yes)))) = []
  /\ filter isWrite
       (trace (activate sampleWorld
                 (userWho (Some topTemplate) None (Some Yes)))) = []
  /\ filter isWrite
       (trace (activate sampleWorld
                 (userWho (Some topTemplate) (Some OpenExisting) (Some Yes)))) = [].
Proof.
  split; [|split; [|split]].
  - exact (proj1 (proj2 (backing_out_changes_nothing sampleWorld
                           (userWho None None None) eq_refl))).
  - exact (proj1 (proj2 (backing_out_changes_nothing sampleWorld
                           (userWho (Some topTemplate) (Some Cancel) (Some Yes))
                           eq_refl))).
  - exact (proj1 (proj2 (backing_out_changes_nothing sampleWorld
                           (userWho (Some topTemplate) None (Some Yes))
                           eq_refl))).
  - exact (proj1 (proj2 (backing_out_changes_nothing sampleWorld
                           (userWho (Some topTemplate) (Some OpenExisting)
                              (Some Yes))
                           eq_refl))).
Defined.

(** Where those answers are given, the handler stops at the prompt. *)
Lemma dismissed_selection_stops (w : World) (u : User)
  (workspaceRoot : path) (others : list path) :
  workspaceFolders w = Some (workspaceRoot :: others) ->
  2 <= length (findTemplateFiles workspaceRoot (tree w)) ->
  pickTemplate u
    (map (fun file => {| label := basename file;
                         description := relative workspaceRoot file |})
         (findTemplateFiles workspaceRoot (tree w))) = None ->
  exists items, activate w u = done (files w) [ShowQuickPick items None].
Proof.
  intros Hw Hlen Hpick. unfold activate. rewrite Hw.
  destruct (findTemplateFiles workspaceRoot (tree w)) as [|t1 [|t2 ts]];
    [simpl in Hlen; lia | simpl in Hlen; lia |].
  rewrite Hpick. eexists. reflexivity.
Qed.

Lemma existing_target_declined workspaceRoot selectedTemplate d u before :
  existsSync d (pathJoin (dirname selectedTemplate) (lit ".env")) = true ->
  existingChoice u = Some Cancel \/ existingChoice u = None ->
  withTemplate workspaceRoot selectedTemplate d u before
  = done d (before ++ [ShowWarningMessage (existingChoice u)]).
Proof.
  intros He Hc. unfold withTemplate. rewrite He.
  destruct Hc as [-> | ->]; reflexivity.
Qed.

Lemma existing_target_opened workspaceRoot selectedTemplate d u before :
  existsSync d (pathJoin (dirname selectedTemplate) (lit ".env")) = true ->
  existingChoice u = Some OpenExisting ->
  withTemplate workspaceRoot selectedTemplate d u before
  = done d (before
            ++ [ShowWarningMessage (Some OpenExisting);
                OpenTextDocument (pathJoin (dirname selectedTemplate) (lit ".env"));
                ShowTextDocument (pathJoin (dirname selectedTemplate) (lit ".env"))]).
Proof.
  intros He Hc. unfold withTemplate. now rewrite He, Hc.
Qed.


(* ----------------------------------------------------------------- *)
(** *** The scenarios of the specification *)

Example scenario7 :
  snippetContent (processTemplateContent
    (lit "DB_HOST=localhost" ++ LF :: lit "DB_PASSWORD=change-me" ++ LF :: lit "DEBUG=true"))
  = lit "DB_HOST=localhost" ++ LF :: lit "DB_PASSWORD=${1:change-me}" ++ LF :: lit "DEBUG=true".
Proof. vm_compute. reflexivity. Qed.

Example scenario7_flag :
  hasTabStops (processTemplateContent
    (lit "DB_HOST=localhost" ++ LF :: lit "DB_PASSWORD=change-me" ++ LF :: lit "DEBUG=true"))
  = true.
Proof. vm_compute. reflexivity. Qed.

Example scenario8 :
  processTemplateContent []
  = {| content := []; snippetContent := []; hasTabStops := false;
       firstValuePosition := None |}.
Proof. vm_compute. reflexivity. Qed.

(** A line of a file with CR LF line ends keeps its CR after the split, and
    [.] does not match it: the line is no assignment unless the CR is
    among the spaces after the sign. *)
Example carriage_return_in_value :
  envVarMatch (lit "API_KEY=your-key-here" ++ [13%N]) = None
  /\ envVarMatch (lit "API_KEY=" ++ [13%N]) = Some (lit "API_KEY", []).
Proof. split; vm_compute; reflexivity. Qed.

(** The handler on the sample workspace: the template at the top chosen,
    the existing [.env] overwritten, the ignore entry accepted. *)
Example overwrite_run :
  trace (activate sampleWorld
           (userWho (Some topTemplate) (Some Overwrite) (Some Yes)))
  = [ ShowQuickPick
        [ {| label := lit ".env.example"; description := [lit ".env.example"] |};
          {| label := lit ".env.sample";
             description := [lit "src"; lit ".env.sample"] |} ]
        (Some topTemplate);
      ShowWarningMessage (Some Overwrite);
      WriteFile [lit "ws"; lit ".env"] (lit "node_modules");
      OpenTextDocument [lit "ws"; lit ".env"];
      ShowTextDocument [lit "ws"; lit ".env"];
      ShowInformationMessage CreatedSuccessfully;
      AskAddToGitignore (Some Yes);
      WriteFile [lit "ws"; lit ".gitignore"]
        (lit "node_modules" ++ LF :: lit ".env" ++ [LF]);
      ShowInformationMessage AddedToGitignore ].
Proof. vm_compute. reflexivity. Qed.

(* ================================================================= *)
(** ** Further properties *)

(* ----------------------------------------------------------------- *)
(** *** Of the template processor *)

Lemma loop_flag_and_position (lines : list jsstring) (st : Loop.state) :
  (Loop.firstValuePosition st = None <-> Loop.hasTabStops st = false) ->
  (Loop.firstValuePosition (fold_left loopBody lines st) = None
   <-> Loop.hasTabStops (fold_left loopBody lines st) = false).
Proof.
  revert st. induction lines as [|line rest IH]; intros st H;
    cbn [fold_left]; [exact H|].
  apply IH. line_cases line.
  - rewrite (loopBody_placeholder st line key value Hm Hp).
    cbn [Loop.firstValuePosition Loop.hasTabStops].
    destruct (Loop.hasTabStops st) eqn:Hs.
    + split; [|discriminate]. intros Hn. apply H in Hn. discriminate.
    + split; discriminate.
  - rewrite (loopBody_other st line Hl). exact H.
Qed.

(** X1. The flag [hasTabStops] is true exactly when some line of the
    template is a placeholder line, and [firstValuePosition] is null
    exactly when the flag is false. *)
Theorem flag_and_position_agree :
  forall text : jsstring,
    hasTabStops (processTemplateContent text)
    = existsb isPlaceholderLine (split text)
    /\ (firstValuePosition (processTemplateContent text) = None
        <-> hasTabStops (processTemplateContent text) = false).
Proof.
  intros text. unfold processTemplateContent, runLoop.
  cbn [hasTabStops firstValuePosition]. split.
  - now rewrite loop_hasTabStops.
  - apply loop_flag_and_position. cbn. tauto.
Qed.

Lemma split_join (lines : list jsstring) :
  lines <> [] ->
  Forall (fun l => ~ In LF l) lines ->
  split (join lines) = lines.
Proof.
  induction lines as [|l rest IH]; intros Hne H; [congruence|].
  inversion H as [|x xs Hl Hrest]; subst.
  destruct rest as [|l' rest'].
  - cbn [join]. now apply split_no_LF.
  - rewrite join_cons by discriminate. rewrite split_app_LF.
    rewrite (split_no_LF l Hl). rewrite IH; [reflexivity | discriminate | exact Hrest].
Qed.

Lemma digits_are_digits (d : Decimal.uint) (c : codeUnit) :
  In c (digits d) -> (48 <= c <= 57)%N.
Proof.
  induction d; cbn [digits In];
    [intros [] | intros [<-|H]; [lia | now apply IHd] ..].
Qed.

Lemma tabStop_no_LF (index : nat) (value : jsstring) :
  ~ In LF value -> ~ In LF (tabStop index value).
Proof.
  intros Hv. unfold tabStop. rewrite !in_app_iff.
  intros [H|[H|[H|[H|H]]]].
  - cbn in H. intuition discriminate.
  - apply digits_are_digits in H. unfold LF in H. lia.
  - cbn in H. intuition discriminate.
  - contradiction.
  - cbn in H. intuition discriminate.
Qed.

(** The captures of a match are parts of the line. *)
Lemma match_parts_in_line (line key value : jsstring) (c : codeUnit) :
  envVarMatch line = Some (key, value) ->
  In c key \/ In c value -> In c line.
Proof.
  intros Hm Hin.
  destruct (pattern_sound line key value Hm) as [(w1 & w2 & Hshape) _].
  destruct Hshape as (-> & _).
  rewrite in_app_iff. destruct Hin as [H|H]; [now left|]. right.
  rewrite in_app_iff. right. right. rewrite in_app_iff. now right.
Qed.

Lemma annotate_no_LF (lines : list jsstring) :
  forall index,
    Forall (fun l => ~ In LF l) lines ->
    Forall (fun l => ~ In LF l) (annotate index lines).
Proof.
  induction lines as [|line rest IH]; intros index H; [constructor|].
  inversion H as [|x xs Hl Hrest]; subst. line_cases line.
  - rewrite (annotate_placeholder _ line key value rest Hm Hp).
    constructor; [|now apply IH].
    rewrite !in_app_iff. intros [[Hk|He]|Ht].
    + apply Hl. apply (match_parts_in_line line key value LF Hm). now left.
    + cbn in He. intuition discriminate.
    + revert Ht. apply tabStop_no_LF. intros Hv. apply Hl.
      apply (match_parts_in_line line key value LF Hm). now right.
  - rewrite (annotate_other _ line rest Hl0). constructor; [exact Hl | now apply IH].
Qed.

Lemma split_Forall_no_LF (s : jsstring) : Forall (fun l => ~ In LF l) (split s).
Proof. apply Forall_forall. intros l. apply split_lines_no_LF. Qed.

Lemma annotate_not_nil (index : nat) (lines : list jsstring) :
  lines <> [] -> annotate index lines <> [].
Proof.
  intros H E. apply H. apply length_zero_iff_nil.
  now rewrite <- (annotate_length index lines), E.
Qed.

(** The lines of the snippet text are the lines the loop pushed. *)
Lemma split_snippetContent (text : jsstring) :
  split (snippetContent (processTemplateContent text))
  = annotate 1 (split text).
Proof.
  unfold processTemplateContent, runLoop. cbn [snippetContent].
  rewrite loop_snippetLines. cbn [Loop.snippetLines Loop.tabStopIndex loopInit app].
  apply split_join.
  - apply annotate_not_nil, split_not_nil.
  - apply annotate_no_LF, split_Forall_no_LF.
Qed.

(** X2. The snippet text has one line for each line of the template: a
    tab stop never breaks or merges lines, and a line that is not a
    placeholder line is found unchanged at the same line number. *)
Theorem snippet_keeps_line_structure :
  forall text : jsstring,
    length (split (snippetContent (processTemplateContent text)))
    = length (split text)
    /\ (forall i line,
          nth_error (split text) i = Some line ->
          isPlaceholderLine line = false ->
          nth_error (split (snippetContent (processTemplateContent text))) i
          = Some line).
Proof.
  intros text. rewrite split_snippetContent. split.
  - apply annotate_length.
  - intros i line Hn Hl. rewrite (annotate_nth _ 1 i line Hn).
    unfold emitted. unfold isPlaceholderLine in Hl.
    destruct (envVarMatch line) as [[key value]|]; [rewrite Hl|]; reflexivity.
Qed.

Lemma snippet_keeps_line_structure_witness :
  nth_error (split (snippetContent (processTemplateContent twoLines))) 1
  = Some (lit "PORT=8080").
Proof.
  apply (proj2 (snippet_keeps_line_structure twoLines) 1 (lit "PORT=8080"));
    vm_compute; reflexivity.
Defined.

Lemma snippetContent_join (text : jsstring) :
  snippetContent (processTemplateContent text) = join (annotate 1 (split text)).
Proof.
  unfold processTemplateContent, runLoop. cbn [snippetContent].
  now rewrite loop_snippetLines.
Qed.

Lemma annotate_app_no_placeholder (index : nat) (before rest : list jsstring) :
  (forall l, In l before -> isPlaceholderLine l = false) ->
  annotate index (before ++ rest) = before ++ annotate index rest.
Proof.
  induction before as [|l ls IH]; intros H; [reflexivity|].
  cbn [app]. rewrite annotate_other by (apply H; now left).
  now rewrite IH by (intros l' Hin; apply H; now right).
Qed.

Lemma firstn_skipn_exact (a b : jsstring) (n : nat) :
  length a = n -> firstn n (a ++ b) = a /\ skipn n (a ++ b) = b.
Proof.
  intros <-. split.
  - rewrite firstn_app, firstn_all, Nat.sub_diag. cbn [firstn]. apply app_nil_r.
  - rewrite skipn_app, skipn_all, Nat.sub_diag. reflexivity.
Qed.

(** X3. In the snippet text, the recorded position is where the first tab
    stop begins: the text before it is the lines before the first
    placeholder line, then its key and the equals sign, and the text from
    it on starts with the tab stop of index 1 around the value. *)
Theorem first_value_position_in_snippet :
  forall (text : jsstring) (before after : list jsstring)
         (line key value : jsstring),
    split text = before ++ line :: after ->
    (forall l, In l before -> isPlaceholderLine l = false) ->
    envVarMatch line = Some (key, value) ->
    isPlaceholder value = true ->
    exists pos tail,
      firstValuePosition (processTemplateContent text) = Some pos
      /\ firstn pos (snippetContent (processTemplateContent text))
         = join (before ++ [key ++ lit "="])
      /\ skipn pos (snippetContent (processTemplateContent text))
         = tabStop 1 value ++ tail.
Proof.
  intros text before after line key value Hs Hb Hm Hp.
  destruct (join_cut before (annotate 2 after) (key ++ lit "=") (tabStop 1 value))
    as [tail Hcut].
  exists (lineStart before + (length key + 1)), tail.
  split; [now apply (first_value_position_formula text before after line key value)|].
  assert (Hsnip : snippetContent (processTemplateContent text)
                  = join (before ++ [key ++ lit "="]) ++ tabStop 1 value ++ tail).
  { rewrite snippetContent_join, Hs.
    rewrite (annotate_app_no_placeholder 1 before (line :: after) Hb).
    rewrite (annotate_placeholder 1 line key value after Hm Hp).
    exact Hcut. }
  rewrite Hsnip. apply firstn_skipn_exact.
  rewrite join_last_length, length_app. reflexivity.
Qed.

Lemma first_value_position_in_snippet_witness :
  exists pos tail,
    firstValuePosition (processTemplateContent (lit "KEY = your-key")) = Some pos
    /\ firstn pos (snippetContent (processTemplateContent (lit "KEY = your-key")))
       = lit "KEY="
    /\ skipn pos (snippetContent (processTemplateContent (lit "KEY = your-key")))
       = tabStop 1 (lit "your-key") ++ tail.
Proof.
  exact (first_value_position_in_snippet (lit "KEY = your-key") [] []
           (lit "KEY = your-key") (lit "KEY") (lit "your-key")
           eq_refl (fun l (H : In l []) => match H with end) eq_refl eq_refl).
Defined.

Lemma first_placeholder_line (lines : list jsstring) :
  existsb isPlaceholderLine lines = true ->
  exists before line after,
    lines = before ++ line :: after
    /\ (forall l, In l before -> isPlaceholderLine l = false)
    /\ isPlaceholderLine line = true.
Proof.
  induction lines as [|l ls IH]; [discriminate|]. cbn [existsb].
  destruct (isPlaceholderLine l) eqn:Hl.
  - intros _. exists [], l, ls. repeat split; [intros l' []|exact Hl].
  - cbn [orb]. intros H.
    destruct (IH H) as (before & line & after & -> & Hb & Hline).
    exists (l :: before), line, after. repeat split; [|exact Hline].
    intros l' [<-|Hin]; [exact Hl | now apply Hb].
Qed.

(** X4. A recorded position lies inside the template text: it is at least
    2 (a key has at least one code unit, and the sign follows) and at most
    the length of the text. *)
Theorem first_value_position_within_text :
  forall (text : jsstring) (pos : nat),
    firstValuePosition (processTemplateContent text) = Some pos ->
    2 <= pos <= length text.
Proof.
  intros text pos Hpos.
  destruct (existsb isPlaceholderLine (split text)) eqn:He.
  - destruct (first_placeholder_line _ He)
      as (before & line & after & Hs & Hb & Hline).
    destruct (placeholderLine_inv line Hline) as (key & value & Hm & Hp).
    destruct (first_value_position_and_spaces text before after line key value
                Hs Hb Hm Hp) as (w1 & _ & Hfirst & Hcode).
    rewrite Hcode in Hpos. injection Hpos as <-.
    destruct (pattern_sound line key value Hm) as [(v1 & v2 & Hshape) _].
    destruct Hshape as (_ & (c & k & -> & _) & _).
    apply (f_equal (@length codeUnit)) in Hfirst.
    rewrite length_firstn, join_last_length, !length_app in Hfirst.
    cbn [length] in *. lia.
  - exfalso.
    assert (Hnone : forall line, In line (split text) -> isPlaceholderLine line = false).
    { intros line Hin. destruct (isPlaceholderLine line) eqn:Hl; [|reflexivity].
      rewrite <- He. symmetry. apply existsb_exists. now exists line. }
    destruct (loop_no_placeholder (split text) loopInit Hnone) as (Hf & _).
    unfold processTemplateContent, runLoop in Hpos.
    cbn [firstValuePosition] in Hpos. rewrite Hf in Hpos. discriminate.
Qed.

Lemma first_value_position_within_text_witness :
  2 <= 8 <= length twoLines.
Proof.
  apply (first_value_position_within_text twoLines 8). vm_compute. reflexivity.
Defined.

Lemma envVarMatch_needs_key_start (line : jsstring) :
  match line with [] => True | c :: _ => isKeyStart c = false end ->
  envVarMatch line = None.
Proof.
  rewrite envVarMatch_greedy. destruct line as [|c rest]; [reflexivity|].
  intros H. cbn [greedyMatch]. now rewrite H.
Qed.

(** X5. A line that is empty, or whose first code unit is neither an
    ASCII letter nor an underscore (a comment, an indented assignment), is
    no assignment: it is found unchanged at the same line number of the
    snippet text. *)
Theorem other_lines_pass_through :
  forall (text : jsstring) (i : nat) (line : jsstring),
    nth_error (split text) i = Some line ->
    match line with [] => True | c :: _ => isKeyStart c = false end ->
    envVarMatch line = None
    /\ nth_error (split (snippetContent (processTemplateContent text))) i
       = Some line.
Proof.
  intros text i line Hn Hstart.
  pose proof (envVarMatch_needs_key_start line Hstart) as Hm.
  split; [exact Hm|].
  rewrite split_snippetContent, (annotate_nth _ 1 i line Hn).
  unfold emitted. now rewrite Hm.
Qed.

Lemma other_lines_pass_through_witness :
  nth_error
    (split (snippetContent (processTemplateContent
       (lit "# your-key goes here" ++ LF :: lit "  KEY=xxx" ++ LF :: lit "KEY=xxx"))))
    1
  = Some (lit "  KEY=xxx").
Proof.
  apply (other_lines_pass_through
           (lit "# your-key goes here" ++ LF :: lit "  KEY=xxx" ++ LF :: lit "KEY=xxx")
           1 (lit "  KEY=xxx")); reflexivity.
Defined.

Lemma app_cons_unique (x : codeUnit) (a b r s : jsstring) :
  ~ In x a -> ~ In x b -> a ++ x :: r = b ++ x :: s -> a = b /\ r = s.
Proof.
  revert b. induction a as [|c a IH]; intros b Ha Hb E.
  - destruct b as [|d b]; cbn [app] in E.
    + injection E as ->. auto.
    + injection E as -> _. exfalso. apply Hb. now left.
  - destruct b as [|d b]; cbn [app] in E.
    + injection E as -> _. exfalso. apply Ha. now left.
    + injection E as -> E.
      destruct (IH b) as [-> ->]; auto.
      * intros H. apply Ha. now right.
      * intros H. apply Hb. now right.
Qed.

Lemma digits_inj (d d' : Decimal.uint) : digits d = digits d' -> d = d'.
Proof.
  revert d'. induction d; destruct d'; cbn [digits]; intros H;
    try discriminate; try reflexivity;
    injection H as H; f_equal; now apply IHd.
Qed.

Lemma toString_inj (i j : nat) : toString i = toString j -> i = j.
Proof.
  intros H. apply DecimalNat.Unsigned.to_uint_inj. now apply digits_inj.
Qed.

(** X6. The line pushed for a placeholder can be read back: two such
    lines are equal only if they have the same key, the same stop index and
    the same value. *)
Theorem placeholder_line_reads_back :
  forall (key key' : jsstring) (i j : nat) (value value' : jsstring),
    forallb isKeyChar key = true ->
    forallb isKeyChar key' = true ->
    (key ++ lit "=") ++ tabStop i value = (key' ++ lit "=") ++ tabStop j value' ->
    key = key' /\ i = j /\ value = value'.
Proof.
  intros key key' i j value value' Hk Hk' E.
  assert (Hno : forall k, forallb isKeyChar k = true -> ~ In 61%N k).
  { intros k H Hin. rewrite forallb_forall in H. apply H in Hin. discriminate. }
  rewrite <- !app_assoc in E. cbn [lit list_ascii_of_string map app] in E.
  apply app_cons_unique in E as [-> E]; [|now apply Hno|now apply Hno].
  split; [reflexivity|].
  unfold tabStop in E. apply app_inv_head in E.
  cbn [lit list_ascii_of_string map app] in E.
  apply app_cons_unique in E as [Hd E].
  - split; [now apply toString_inj|]. now apply app_inv_tail in E.
  - intros H. apply digits_are_digits in H. cbn in H. lia.
  - intros H. apply digits_are_digits in H. cbn in H. lia.
Qed.

Lemma placeholder_line_reads_back_witness :
  lit "API_KEY" = lit "API_KEY" /\ 2 = 2 /\ lit "xxx" = lit "xxx".
Proof.
  exact (placeholder_line_reads_back (lit "API_KEY") (lit "API_KEY") 2 2
           (lit "xxx") (lit "xxx") eq_refl eq_refl eq_refl).
Defined.

(** X7. On a line that ends in a carriage return, as every line of a
    template with CR LF line ends does, the pattern matches only with an
    empty value (the carriage return goes to the spaces after the sign):
    such a line becomes a tab stop with an empty default, and an
    assignment with anything after the sign is not recognised. *)
Theorem carriage_return_line_has_empty_value :
  forall body key value : jsstring,
    envVarMatch (body ++ [13%N]) = Some (key, value) ->
    value = [] /\ isPlaceholderLine (body ++ [13%N]) = true.
Proof.
  intros body key value Hm.
  assert (Hv : value = []).
  { destruct (pattern_sound _ key value Hm) as [(w1 & w2 & Hshape) _].
    destruct Hshape as (Hline & _ & _ & _ & Hdot).
    destruct value as [|c v] using rev_ind; [reflexivity|]. exfalso.
    clear IHv.
    replace (key ++ w1 ++ 61%N :: w2 ++ v ++ [c])
      with ((key ++ w1 ++ 61%N :: w2 ++ v) ++ [c]) in Hline
      by (rewrite <- !app_assoc; cbn [app]; now rewrite <- app_assoc).
    apply app_inj_tail in Hline as [_ <-].
    rewrite forallb_app in Hdot. apply andb_true_iff in Hdot as [_ Hdot].
    discriminate. }
  split; [exact Hv|]. unfold isPlaceholderLine. now rewrite Hm, Hv.
Qed.

Lemma carriage_return_line_has_empty_value_witness :
  isPlaceholderLine (lit "API_KEY= " ++ [13%N]) = true.
Proof.
  apply (carriage_return_line_has_empty_value (lit "API_KEY= ") (lit "API_KEY") []).
  vm_compute. reflexivity.
Defined.

(* ----------------------------------------------------------------- *)
(** *** Of the ignore-file updater *)

Lemma path_eqb_neq (p q : path) : p <> q -> path_eqb p q = false.
Proof.
  intros H. unfold path_eqb.
  destruct (list_eq_dec (list_eq_dec N.eq_dec) p q); congruence.
Qed.

Lemma hasEnv_newGitignoreContent (gitignoreContent : jsstring) :
  hasEnv (newGitignoreContent gitignoreContent) = true.
Proof.
  destruct (newGitignoreContent_lines gitignoreContent) as (kept & _ & Hnew).
  unfold hasEnv. rewrite Hnew. apply existsb_exists.
  exists (lit ".env"). split; [|reflexivity].
  apply in_or_app. right. now left.
Qed.

(** X8. Appending is idempotent: the text the updater writes holds the
    entry, so a second run on the disk left by an append finds the entry,
    asks nothing and writes nothing, whatever the user would answer. *)
Theorem ignore_entry_append_is_idempotent :
  forall (workspaceRoot : path) (d : Disk) (u u' : User)
         (gitignoreContent : jsstring),
    readGitignore workspaceRoot d = Some gitignoreContent ->
    hasEnv gitignoreContent = false ->
    gitignoreChoice u = Some Yes ->
    canWrite d (gitignorePathOf workspaceRoot) = true ->
    hasEnv (newGitignoreContent gitignoreContent) = true
    /\ trace (checkGitignore workspaceRoot
                (disk (checkGitignore workspaceRoot d u)) u') = []
    /\ disk (checkGitignore workspaceRoot
               (disk (checkGitignore workspaceRoot d u)) u')
       = disk (checkGitignore workspaceRoot d u).
Proof.
  intros root d u u' c Hr Hh Hy Hw.
  pose proof (hasEnv_newGitignoreContent c) as Hnew.
  split; [exact Hnew|].
  assert (Hd : readGitignore root (disk (checkGitignore root d u))
               = Some (newGitignoreContent c)).
  { unfold checkGitignore, writeFileSync. rewrite Hr, Hh, Hy, Hw.
    cbn [disk]. unfold readGitignore. cbn [existsSync readFileSync].
    now rewrite path_eqb_refl. }
  rewrite (checkGitignore_present root _ u' _ Hd Hnew). auto.
Qed.

Lemma ignore_entry_append_is_idempotent_witness :
  trace (checkGitignore ws
           (disk (checkGitignore ws fullDisk (userWho None None (Some Yes))))
           (userWho None None (Some Yes))) = [].
Proof.
  exact (proj1 (proj2 (ignore_entry_append_is_idempotent ws fullDisk
                         (userWho None None (Some Yes))
                         (userWho None None (Some Yes))
                         (lit "node_modules") eq_refl eq_refl eq_refl eq_refl))).
Defined.

(** X9. Every write of the updater is the write of the workspace's
    [.gitignore], made after the answer Yes, when the text read did not
    hold the entry, and the text written is that text with the entry
    appended. *)
Theorem ignore_file_write_needs_yes :
  forall (workspaceRoot : path) (d : Disk) (u : User) (p : path) (c : jsstring),
    In (WriteFile p c) (trace (checkGitignore workspaceRoot d u)) ->
    gitignoreChoice u = Some Yes
    /\ p = gitignorePathOf workspaceRoot
    /\ exists prior,
         readGitignore workspaceRoot d = Some prior
         /\ hasEnv prior = false
         /\ c = newGitignoreContent prior.
Proof.
  intros root d u p c. unfold checkGitignore.
  destruct (readGitignore root d) as [prior|]; [|intros []].
  destruct (hasEnv prior) eqn:Hh; [intros []|].
  destruct (gitignoreChoice u) as [[|]|].
  - destruct (writeFileSync d _ _); cbn [trace In].
    + intros [H|[H|[H|[]]]]; try discriminate.
      injection H as <- <-. eauto 6.
    + intros [H|[]]. discriminate.
  - cbn [trace In]. intros [H|[]]. discriminate.
  - cbn [trace In]. intros [H|[]]. discriminate.
Qed.

Lemma ignore_file_write_needs_yes_witness :
  gitignoreChoice (userWho None None (Some Yes)) = Some Yes
  /\ gitignorePathOf ws = gitignorePathOf ws
  /\ exists prior,
       readGitignore ws fullDisk = Some prior
       /\ hasEnv prior = false
       /\ lit "node_modules" ++ LF :: lit ".env" ++ [LF]
          = newGitignoreContent prior.
Proof.
  apply (ignore_file_write_needs_yes ws fullDisk (userWho None None (Some Yes))).
  vm_compute. right. left. reflexivity.
Defined.

(** X10. The updater touches nothing but the workspace's [.gitignore]:
    every other path reads and exists as before, what can be written stays
    the same, and without the answer Yes the disk is left as it was. *)
Theorem ignore_update_frame :
  forall (workspaceRoot : path) (d : Disk) (u : User),
    (forall q,
        q <> gitignorePathOf workspaceRoot ->
        readFileSync (disk (checkGitignore workspaceRoot d u)) q = readFileSync d q
        /\ existsSync (disk (checkGitignore workspaceRoot d u)) q = existsSync d q)
    /\ (forall q,
          canWrite (disk (checkGitignore workspaceRoot d u)) q = canWrite d q)
    /\ (gitignoreChoice u <> Some Yes ->
        disk (checkGitignore workspaceRoot d u) = d).
Proof.
  intros root d u. unfold checkGitignore.
  destruct (readGitignore root d) as [prior|]; [|cbn; tauto].
  destruct (hasEnv prior); [cbn; tauto|].
  destruct (gitignoreChoice u) as [[|]|]; try (cbn; tauto).
  unfold writeFileSync. destruct (canWrite d (gitignorePathOf root));
    [|cbn; tauto].
  cbn [disk readFileSync existsSync canWrite]. split; [|split].
  - intros q Hq. now rewrite (path_eqb_neq q _ Hq).
  - reflexivity.
  - congruence.
Qed.

Lemma ignore_update_frame_witness :
  disk (checkGitignore ws fullDisk (userWho None None (Some No))) = fullDisk.
Proof.
  apply (proj2 (proj2 (ignore_update_frame ws fullDisk
                         (userWho None None (Some No))))).
  discriminate.
Defined.

(* ----------------------------------------------------------------- *)
(** *** Of the locator *)

Lemma searchEntries_app dirPath (a b : list (jsstring * node)) :
  Forall (fun e => snd e <> NoStat) a ->
  forall templates,
    searchEntries dirPath (a ++ b) templates
    = searchEntries dirPath b (searchEntries dirPath a templates).
Proof.
  induction a as [|[name child] rest IH]; intros H templates; [reflexivity|].
  inversion H as [|e l Hchild Hrest]; subst. cbn [snd] in Hchild. cbn [app].
  destruct child as [|r fs| |]; [| | |congruence].
  - rewrite !searchEntries_File. now apply IH.
  - rewrite !searchEntries_Dir. now apply IH.
  - rewrite !searchEntries_Other. now apply IH.
Qed.

(** X11. The result is in depth-first listing order.  The matches of a
    listing are those of its first entries followed by those of its later
    entries (as long as the first ones could be examined); a searchable
    directory gives the matches found inside it, under its path; a regular
    file with a template name gives its own path. *)
Theorem locator_order :
  (forall rootPath a b,
      Forall (fun e => snd e <> NoStat) a ->
      findTemplateFiles rootPath (Dir true (a ++ b))
      = findTemplateFiles rootPath (Dir true a)
        ++ findTemplateFiles rootPath (Dir true b))
  /\ (forall rootPath name readable files,
        searchable name ->
        findTemplateFiles rootPath (Dir true [(name, Dir readable files)])
        = findTemplateFiles (pathJoin rootPath name) (Dir readable files))
  /\ (forall rootPath name,
        In name templatePatterns ->
        findTemplateFiles rootPath (Dir true [(name, File)])
        = [pathJoin rootPath name]).
Proof.
  unfold findTemplateFiles. split; [|split].
  - intros rootPath a b Ha. rewrite !searchDirectory_Dir.
    rewrite (searchEntries_app rootPath a b Ha). apply searchEntries_acc.
  - intros rootPath name readable files Hs. rewrite searchDirectory_Dir.
    rewrite searchEntries_Dir.
    apply searchableb_spec in Hs. now rewrite Hs.
  - intros rootPath name Hin. rewrite searchDirectory_Dir.
    rewrite searchEntries_File.
    apply arrayIncludes_spec in Hin. now rewrite Hin.
Qed.

Lemma locator_order_witness :
  findTemplateFiles ws sampleTree
  = findTemplateFiles ws (Dir true [(lit ".env.example", File)])
    ++ findTemplateFiles ws
         (Dir true
            [ (lit "src", Dir true [(lit ".env.sample", File); (lit "main.ts", File)]);
              (lit ".git", Dir true [(lit ".env.dist", File)]);
              (lit "node_modules", Dir true [(lit ".env.template", File)]) ]).
Proof.
  apply (proj1 locator_order ws [(lit ".env.example", File)]).
  constructor; [discriminate | constructor].
Defined.

Lemma prune_Dir (files : list (jsstring * node)) :
  prune (Dir true files) = Dir true (pruneEntries files).
Proof.
  reflexivity.
Qed.

Lemma searchDirectory_prune (n : node) :
  forall dirPath templates,
    searchDirectory dirPath n templates
    = searchDirectory dirPath (prune n) templates.
Proof.
  induction n as [| | |readable files IH] using node_nested_ind;
    intros dirPath templates; try reflexivity.
  destruct readable; [|reflexivity].
  rewrite prune_Dir, !searchDirectory_Dir. revert templates.
  induction files as [|[name child] rest IHrest]; intros templates;
    [reflexivity|].
  inversion IH as [|e l Hchild Hrest]; subst. cbn [snd] in Hchild.
  specialize (IHrest Hrest). cbn [pruneEntries].
  destruct child as [|r fs| |].
  - cbn [prune]. rewrite !searchEntries_File. apply IHrest.
  - assert (E : exists fs', prune (Dir r fs) = Dir true fs').
    { destruct r; eexists; reflexivity. }
    destruct E as [fs' E]. rewrite searchEntries_Dir.
    rewrite (Hchild (pathJoin dirPath name) templates).
    rewrite E, searchEntries_Dir. apply IHrest.
  - cbn [prune]. rewrite !searchEntries_Other. apply IHrest.
  - reflexivity.
Qed.

Lemma healthy_prune (n : node) : healthy (prune n).
Proof.
  induction n as [| | |readable files IH] using node_nested_ind;
    try exact I.
  destruct readable; [|cbn; auto].
  rewrite prune_Dir. apply healthy_Dir. split; [reflexivity|].
  induction files as [|[name child] rest IHrest]; [constructor|].
  inversion IH as [|e l Hchild Hrest]; subst. cbn [snd] in Hchild.
  cbn [pruneEntries].
  destruct child; try constructor; auto.
Qed.

(** X12. Whatever fails, the locator returns exactly the template files of
    the tree it can see: the tree in which each listing is cut at its first
    entry that cannot be examined and each directory that cannot be listed
    is empty.  A path is returned exactly when, in that tree, a regular
    file with a template name lies there below searchable directories. *)
Theorem locator_sees_pruned_tree :
  forall (rootPath : path) (root : node),
    findTemplateFiles rootPath root = findTemplateFiles rootPath (prune root)
    /\ (forall p,
          In p (findTemplateFiles rootPath root)
          <-> located rootPath (prune root) p).
Proof.
  intros rootPath root. unfold findTemplateFiles.
  split; [apply searchDirectory_prune|].
  intros p. rewrite searchDirectory_prune. split.
  - apply searchDirectory_sound.
  - apply searchDirectory_complete, healthy_prune.
Qed.

Example prune_cuts_at_vanished_entry :
  prune treeWithVanishedEntry = Dir true []
  /\ prune treeWithLockedDirectory
     = Dir true [(lit "locked", Dir true []); (lit ".env.example", File)].
Proof. split; reflexivity. Qed.

(* ----------------------------------------------------------------- *)
(** *** Of the command handler *)

Lemma withTemplate_returns workspaceRoot selectedTemplate d u before :
  threw (withTemplate workspaceRoot selectedTemplate d u before) = false.
Proof.
  unfold withTemplate, tryCopyTemplate.
  destruct (existsSync d _); [destruct (existingChoice u) as [[| |]|]|];
    try reflexivity;
    destruct (threw (copyTemplate _ _ _ d u)); reflexivity.
Qed.

(** X13. No exception of the file system leaves the handler: a failed
    read or write is caught and reported.  The handler ends by an exception
    in one case only, an empty array of workspace folders, where it reads
    the first folder of none. *)
Theorem handler_throws_only_without_first_folder :
  forall (w : World) (u : User),
    threw (activate w u) = true <-> workspaceFolders w = Some [].
Proof.
  intros w u. unfold activate.
  destruct (workspaceFolders w) as [[|workspaceRoot others]|].
  - cbn. tauto.
  - destruct (findTemplateFiles workspaceRoot (tree w)) as [|t1 [|t2 ts]].
    + cbn. split; discriminate.
    + rewrite withTemplate_returns. split; discriminate.
    + destruct (pickTemplate u _).
      * rewrite withTemplate_returns. split; discriminate.
      * cbn. split; discriminate.
  - cbn. split; discriminate.
Qed.

Lemma checkGitignore_writes workspaceRoot d u :
  filter isWrite (trace (checkGitignore workspaceRoot d u)) = []
  \/ exists prior,
       readGitignore workspaceRoot d = Some prior
       /\ filter isWrite (trace (checkGitignore workspaceRoot d u))
          = [WriteFile (gitignorePathOf workspaceRoot) (newGitignoreContent prior)].
Proof.
  unfold checkGitignore.
  destruct (readGitignore workspaceRoot d) as [prior|]; [|now left].
  destruct (hasEnv prior); [now left|].
  destruct (gitignoreChoice u) as [[|]|]; try (now left).
  destruct (writeFileSync d _ _); [|now left].
  right. exists prior. split; reflexivity.
Qed.

Lemma copyTemplate_writes workspaceRoot selectedTemplate envPath d u :
  filter isWrite (trace (copyTemplate workspaceRoot selectedTemplate envPath d u)) = []
  \/ exists c,
       readFileSync d selectedTemplate = Some c
       /\ (filter isWrite
             (trace (copyTemplate workspaceRoot selectedTemplate envPath d u))
           = [WriteFile envPath c]
           \/ exists prior,
                filter isWrite
                  (trace (copyTemplate workspaceRoot selectedTemplate envPath d u))
                = [WriteFile envPath c;
                   WriteFile (gitignorePathOf workspaceRoot)
                     (newGitignoreContent prior)]).
Proof.
  unfold copyTemplate.
  destruct (readFileSync d selectedTemplate) as [c|]; [|now left].
  destruct (writeFileSync d envPath _) as [d1|]; [|now left].
  right. exists c. split; [reflexivity|]. cbn [trace content processTemplateContent].
  rewrite !filter_app.
  assert (E : filter isWrite
                (if hasTabStops (processTemplateContent c)
                 then [DeleteFullRange;
                       InsertSnippet (snippetContent (processTemplateContent c))]
                 else []) = [])
    by (destruct (hasTabStops (processTemplateContent c)); reflexivity).
  rewrite E. cbn [filter isWrite app].
  destruct (checkGitignore_writes workspaceRoot d1 u) as [-> | (prior & _ & ->)].
  - now left.
  - right. now exists prior.
Qed.

Lemma tryCopyTemplate_writes workspaceRoot selectedTemplate envPath d u before :
  filter isWrite
    (trace (tryCopyTemplate workspaceRoot selectedTemplate envPath d u before))
  = filter isWrite before
    ++ filter isWrite
         (trace (copyTemplate workspaceRoot selectedTemplate envPath d u)).
Proof.
  unfold tryCopyTemplate.
  destruct (threw (copyTemplate _ _ _ d u)); cbn [trace done];
    rewrite !filter_app; cbn [filter isWrite]; now rewrite ?app_nil_r.
Qed.

Lemma withTemplate_writes workspaceRoot selectedTemplate d u before :
  filter isWrite before = [] ->
  let envPath := pathJoin (dirname selectedTemplate) (lit ".env") in
  let writes :=
    filter isWrite (trace (withTemplate workspaceRoot selectedTemplate d u before)) in
  writes = []
  \/ exists c,
       readFileSync d selectedTemplate = Some c
       /\ (writes = [WriteFile envPath c]
           \/ exists prior,
                writes = [WriteFile envPath c;
                          WriteFile (gitignorePathOf workspaceRoot)
                            (newGitignoreContent prior)]).
Proof.
  intros Hb envPath writes. subst writes. unfold withTemplate. fold envPath.
  assert (Hcopy : forall before',
             filter isWrite before' = [] ->
             filter isWrite
               (trace (tryCopyTemplate workspaceRoot selectedTemplate envPath d u before')) = []
             \/ exists c,
                  readFileSync d selectedTemplate = Some c
                  /\ (filter isWrite
                        (trace (tryCopyTemplate workspaceRoot selectedTemplate envPath d u before'))
                      = [WriteFile envPath c]
                      \/ exists prior,
                           filter isWrite
                             (trace (tryCopyTemplate workspaceRoot selectedTemplate envPath d u before'))
                           = [WriteFile envPath c;
                              WriteFile (gitignorePathOf workspaceRoot)
                                (newGitignoreContent prior)])).
  { intros before' Hb'. rewrite tryCopyTemplate_writes, Hb'. cbn [app].
    apply copyTemplate_writes. }
  destruct (existsSync d envPath); [|now apply Hcopy].
  destruct (existingChoice u) as [[| |]|].
  - left. cbn [trace done]. rewrite filter_app, Hb. reflexivity.
  - apply Hcopy. rewrite filter_app, Hb. reflexivity.
  - left. cbn [trace done]. rewrite filter_app, Hb. reflexivity.
  - left. cbn [trace done]. rewrite filter_app, Hb. reflexivity.
Qed.

Lemma activate_withTemplate (w : World) (u : User) :
  (exists m, activate w u = done (files w) [ShowErrorMessage m])
  \/ activate w u = {| disk := files w; trace := []; threw := true |}
  \/ (exists workspaceRoot others items,
        workspaceFolders w = Some (workspaceRoot :: others)
        /\ activate w u = done (files w) [ShowQuickPick items None])
  \/ exists workspaceRoot others selectedTemplate before,
       workspaceFolders w = Some (workspaceRoot :: others)
       /\ filter isWrite before = []
       /\ activate w u
          = withTemplate workspaceRoot selectedTemplate (files w) u before.
Proof.
  unfold activate.
  destruct (workspaceFolders w) as [[|workspaceRoot others]|].
  - right. left. reflexivity.
  - destruct (findTemplateFiles workspaceRoot (tree w)) as [|t1 [|t2 ts]].
    + left. eauto.
    + do 3 right. exists workspaceRoot, others, t1, []. auto.
    + destruct (pickTemplate u _) as [item|].
      * do 3 right. eexists workspaceRoot, others, _, _. split; [reflexivity|].
        split; [|reflexivity]. reflexivity.
      * right. right. left. eauto 6.
  - left. eauto.
Qed.

Lemma found_template_base rootPath root p :
  In p (findTemplateFiles rootPath root) -> In (last p []) templatePatterns.
Proof.
  intros H. apply searchDirectory_sound in H as (names & base & -> & _ & Hb & _).
  now rewrite app_assoc, last_last.
Qed.

(** X15. The command never writes to a template: no file it writes is one
    of the files the locator found in the workspace. *)
Theorem templates_are_never_written :
  forall (w : World) (u : User) (workspaceRoot : path) (others : list path)
         (p : path) (c : jsstring),
    workspaceFolders w = Some (workspaceRoot :: others) ->
    In (WriteFile p c) (trace (activate w u)) ->
    ~ In p (findTemplateFiles workspaceRoot (tree w)).
Proof.
  intros w u root others p c Hw Hin Hfound.
  apply found_template_base in Hfound.
  assert (Hf : In (WriteFile p c) (filter isWrite (trace (activate w u))))
    by (apply filter_In; auto).
  assert (Hlast : last p [] = lit ".env" \/ last p [] = lit ".gitignore").
  { destruct (activate_withTemplate w u)
      as [[m E] | [E | [(r & o & items & _ & E)
                        | (r & o & sel & before & _ & Hb & E)]]];
      rewrite E in Hf; try (cbn in Hf; tauto).
    destruct (withTemplate_writes r sel (files w) u before Hb)
      as [H | (c' & _ & [H | (prior & H)])];
      cbv zeta in H; rewrite H in Hf; cbn [In] in Hf.
    - destruct Hf.
    - destruct Hf as [Hf|[]]. injection Hf as <- _.
      left. apply last_last.
    - destruct Hf as [Hf|[Hf|[]]]; injection Hf as <- _.
      + left. apply last_last.
      + right. apply last_last. }
  destruct Hlast as [E|E]; rewrite E in Hfound; cbn in Hfound;
    intuition discriminate.
Qed.

Lemma templates_are_never_written_witness :
  ~ In [lit "ws"; lit ".env"] (findTemplateFiles ws oneTemplateTree).
Proof.
  apply (templates_are_never_written freshWorld (userWho None None (Some Yes))
           ws [] [lit "ws"; lit ".env"] twoLines eq_refl).
  vm_compute. left. reflexivity.
Defined.

Lemma relative_round_trip rootPath root file :
  In file (findTemplateFiles rootPath root) ->
  rootPath ++ relative rootPath file = file.
Proof.
  intros H. apply searchDirectory_sound in H as (names & base & -> & _).
  unfold relative. rewrite skipn_app, skipn_all, Nat.sub_diag. reflexivity.
Qed.

(** X16. The item of the quick pick leads back to its template: when
    several templates are found and the user picks the item made for one of
    them, and no [.env] lies beside that template, the command writes the
    text of that very template to the [.env] in its directory, right after
    the pick. *)
Theorem picked_template_is_copied :
  forall (w : World) (u : User) (workspaceRoot : path) (others : list path)
         (file : path) (c : jsstring),
    workspaceFolders w = Some (workspaceRoot :: others) ->
    2 <= length (findTemplateFiles workspaceRoot (tree w)) ->
    In file (findTemplateFiles workspaceRoot (tree w)) ->
    pickTemplate u
      (quickPickItems workspaceRoot (findTemplateFiles workspaceRoot (tree w)))
    = Some {| label := basename file;
              description := relative workspaceRoot file |} ->
    existsSync (files w) (pathJoin (dirname file) (lit ".env")) = false ->
    readFileSync (files w) file = Some c ->
    canWrite (files w) (pathJoin (dirname file) (lit ".env")) = true ->
    exists items answer rest,
      trace (activate w u)
      = ShowQuickPick items answer
        :: WriteFile (pathJoin (dirname file) (lit ".env")) c :: rest.
Proof.
  intros w u root others file c Hw Hlen Hin Hpick Hex Hread Hcw.
  pose proof (relative_round_trip root (tree w) file Hin) as Hback.
  unfold activate. rewrite Hw. unfold quickPickItems in Hpick.
  destruct (findTemplateFiles root (tree w)) as [|t1 [|t2 ts]];
    [simpl in Hlen; lia | simpl in Hlen; lia |].
  rewrite Hpick. cbn [description]. rewrite Hback.
  unfold withTemplate. rewrite Hex.
  unfold tryCopyTemplate, copyTemplate, writeFileSync. rewrite Hread, Hcw.
  cbn [threw trace content processTemplateContent].
  destruct (threw (checkGitignore root _ u)); cbn [trace done app];
    do 3 eexists; reflexivity.
Qed.

Lemma picked_template_is_copied_witness :
  exists items answer rest,
    trace (activate twoTemplateWorld (userWho (Some topTemplate) None (Some No)))
    = ShowQuickPick items answer
      :: WriteFile [lit "ws"; lit ".env"] twoLines :: rest.
Proof.
  apply (picked_template_is_copied twoTemplateWorld
           (userWho (Some topTemplate) None (Some No)) ws []
           [lit "ws"; lit ".env.example"] twoLines eq_refl).
  - vm_compute. lia.
  - vm_compute. left. reflexivity.
  - reflexivity.
  - reflexivity.
  - reflexivity.
  - reflexivity.
Defined.

Lemma envPath_not_gitignore (dir workspaceRoot : path) :
  pathJoin dir (lit ".env") <> gitignorePathOf workspaceRoot.
Proof.
  unfold gitignorePathOf, pathJoin. intros E.
  apply app_inj_tail in E as [_ E]. discriminate.
Qed.

(** The ignore-file updater asks and answers the same after a write to
    another path. *)
Lemma checkGitignore_after_write workspaceRoot d u p c d1 :
  p <> gitignorePathOf workspaceRoot ->
  writeFileSync d p c = Some d1 ->
  trace (checkGitignore workspaceRoot d1 u) = trace (checkGitignore workspaceRoot d u)
  /\ threw (checkGitignore workspaceRoot d1 u) = threw (checkGitignore workspaceRoot d u).
Proof.
  intros Hp Hw. unfold writeFileSync in Hw.
  destruct (canWrite d p); [|discriminate]. injection Hw as <-.
  assert (Hg : path_eqb (gitignorePathOf workspaceRoot) p = false)
    by (apply path_eqb_neq; congruence).
  unfold checkGitignore, readGitignore, writeFileSync.
  cbn [existsSync readFileSync canWrite]. rewrite Hg.
  destruct (if existsSync d (gitignorePathOf workspaceRoot)
            then readFileSync d (gitignorePathOf workspaceRoot)
            else Some []) as [prior|]; [|auto].
  destruct (hasEnv prior); [auto|].
  destruct (gitignoreChoice u) as [[|]|]; auto.
  destruct (canWrite d (gitignorePathOf workspaceRoot)); auto.
Qed.

Lemma checkGitignore_threw_disk workspaceRoot d u :
  threw (checkGitignore workspaceRoot d u) = true ->
  disk (checkGitignore workspaceRoot d u) = d.
Proof.
  unfold checkGitignore.
  destruct (readGitignore workspaceRoot d) as [prior|]; [|reflexivity].
  destruct (hasEnv prior); [reflexivity|].
  destruct (gitignoreChoice u) as [[|]|]; try reflexivity.
  destruct (writeFileSync d _ _); [discriminate | reflexivity].
Qed.

Lemma checkGitignore_events workspaceRoot d u e :
  In e (trace (checkGitignore workspaceRoot d u)) -> ignoreEvent e = true.
Proof.
  unfold checkGitignore.
  destruct (readGitignore workspaceRoot d) as [prior|]; [|intros []].
  destruct (hasEnv prior); [intros []|].
  destruct (gitignoreChoice u) as [[|]|];
    [destruct (writeFileSync d _ _)| |]; cbn [trace In];
    intros H; repeat (destruct H as [<-|H]; [reflexivity|]); destruct H.
Qed.

Lemma copyTemplate_events workspaceRoot selectedTemplate envPath d u e :
  In e (trace (copyTemplate workspaceRoot selectedTemplate envPath d u)) ->
  copyEvent e = true.
Proof.
  unfold copyTemplate.
  destruct (readFileSync d selectedTemplate) as [c|]; [|intros []].
  destruct (writeFileSync d envPath _) as [d1|]; [|intros []].
  cbn [trace]. rewrite !in_app_iff. intros [[H|[H|H]]|H].
  - cbn [In] in H. repeat (destruct H as [<-|H]; [reflexivity|]). destruct H.
  - destruct (hasTabStops (processTemplateContent c)); cbn [In] in H;
      repeat (destruct H as [<-|H]; [reflexivity|]); destruct H.
  - cbn [In] in H. destruct H as [<-|[]]. reflexivity.
  - apply checkGitignore_events in H. unfold copyEvent. now rewrite H.
Qed.

Lemma withTemplate_events workspaceRoot selectedTemplate d u before e :
  In e (trace (withTemplate workspaceRoot selectedTemplate d u before)) ->
  In e before \/ copyEvent e = true.
Proof.
  assert (Hcopy : forall before',
             In e (trace (tryCopyTemplate workspaceRoot selectedTemplate
                            (pathJoin (dirname selectedTemplate) (lit ".env"))
                            d u before')) ->
             In e before' \/ copyEvent e = true).
  { intros before'. unfold tryCopyTemplate.
    destruct (threw (copyTemplate _ _ _ d u)); cbn [trace done];
      rewrite !in_app_iff; intros H.
    - destruct H as [H|[H|H]]; [now left | right | right].
      + now apply copyTemplate_events in H.
      + destruct H as [<-|[]]. reflexivity.
    - destruct H as [H|H]; [now left | right].
      now apply copyTemplate_events in H. }
  unfold withTemplate. destruct (existsSync d _); [|apply Hcopy].
  destruct (existingChoice u) as [[| |]|].
  - cbn [trace done]. rewrite in_app_iff. intros [H|H]; [now left|right].
    cbn [In] in H. repeat (destruct H as [<-|H]; [reflexivity|]). destruct H.
  - intros H. apply Hcopy in H. rewrite in_app_iff in H.
    destruct H as [[H|H]|H]; [now left | right | now right].
    destruct H as [<-|[]]. reflexivity.
  - cbn [trace done]. rewrite in_app_iff. intros [H|H]; [now left|right].
    destruct H as [<-|[]]. reflexivity.
  - cbn [trace done]. rewrite in_app_iff. intros [H|H]; [now left|right].
    destruct H as [<-|[]]. reflexivity.
Qed.

Lemma withTemplate_keeps_before workspaceRoot selectedTemplate d u before :
  exists rest,
    trace (withTemplate workspaceRoot selectedTemplate d u before) = before ++ rest.
Proof.
  unfold withTemplate, tryCopyTemplate.
  destruct (existsSync d _); [destruct (existingChoice u) as [[| |]|]|];
    try (cbn [trace done]; eexists; reflexivity);
    destruct (threw (copyTemplate _ _ _ d u)); cbn [trace done];
    rewrite <- ?app_assoc; eexists; reflexivity.
Qed.

Lemma hasTabStops_spec (c : jsstring) :
  hasTabStops (processTemplateContent c) = existsb isPlaceholderLine (split c).
Proof.
  unfold processTemplateContent, runLoop. cbn [hasTabStops].
  now rewrite loop_hasTabStops.
Qed.

Lemma checkGitignore_no_editor_edit workspaceRoot d u :
  existsb isEditorEdit (trace (checkGitignore workspaceRoot d u)) = false.
Proof.
  unfold checkGitignore.
  destruct (readGitignore workspaceRoot d) as [prior|]; [|reflexivity].
  destruct (hasEnv prior); [reflexivity|].
  destruct (gitignoreChoice u) as [[|]|]; try reflexivity.
  destruct (writeFileSync d _ _); reflexivity.
Qed.

Lemma checkGitignore_other_paths workspaceRoot d u q :
  q <> gitignorePathOf workspaceRoot ->
  readFileSync (disk (checkGitignore workspaceRoot d u)) q = readFileSync d q
  /\ existsSync (disk (checkGitignore workspaceRoot d u)) q = existsSync d q.
Proof.
  intros Hq. unfold checkGitignore.
  destruct (readGitignore workspaceRoot d) as [prior|]; [|auto].
  destruct (hasEnv prior); [auto|].
  destruct (gitignoreChoice u) as [[|]|]; auto.
  unfold writeFileSync.
  destruct (canWrite d (gitignorePathOf workspaceRoot)); [|auto].
  cbn [disk readFileSync existsSync]. now rewrite (path_eqb_neq q _ Hq).
Qed.

Lemma tryCopyTemplate_disk workspaceRoot selectedTemplate envPath d u before :
  disk (tryCopyTemplate workspaceRoot selectedTemplate envPath d u before)
  = disk (copyTemplate workspaceRoot selectedTemplate envPath d u).
Proof.
  unfold tryCopyTemplate. now destruct (threw (copyTemplate _ _ _ d u)).
Qed.

(** X20. After a run that copies (no [.env] beside the template, or the
    answer Overwrite), with a template that can be read and a target that
    can be written, the [.env] exists and reads as the text of the
    template, whatever happened to the ignore file afterwards. *)
Theorem env_reads_back_template :
  forall (workspaceRoot selectedTemplate : path) (d : Disk) (u : User)
         (before : list Event) (c : jsstring),
    existsSync d (pathJoin (dirname selectedTemplate) (lit ".env")) = false
    \/ existingChoice u = Some Overwrite ->
    readFileSync d selectedTemplate = Some c ->
    canWrite d (pathJoin (dirname selectedTemplate) (lit ".env")) = true ->
    readFileSync (disk (withTemplate workspaceRoot selectedTemplate d u before))
      (pathJoin (dirname selectedTemplate) (lit ".env")) = Some c
    /\ existsSync (disk (withTemplate workspaceRoot selectedTemplate d u before))
         (pathJoin (dirname selectedTemplate) (lit ".env")) = true.
Proof.
  intros root sel d u before c Hgo Hread Hcw.
  set (envPath := pathJoin (dirname sel) (lit ".env")) in *.
  assert (Hcopy : readFileSync (disk (copyTemplate root sel envPath d u)) envPath
                  = Some c
                  /\ existsSync (disk (copyTemplate root sel envPath d u)) envPath
                     = true).
  { unfold copyTemplate, writeFileSync. rewrite Hread, Hcw. cbn [disk].
    destruct (checkGitignore_other_paths root
                {| existsSync := fun q => if path_eqb q envPath then true
                                          else existsSync d q;
                   readFileSync := fun q => if path_eqb q envPath
                                            then Some (content (processTemplateContent c))
                                            else readFileSync d q;
                   canWrite := canWrite d |} u envPath
                (envPath_not_gitignore _ _)) as [-> ->].
    cbn [readFileSync existsSync]. now rewrite path_eqb_refl. }
  unfold withTemplate. fold envPath.
  destruct (existsSync d envPath) eqn:Hex.
  - destruct Hgo as [Hgo|Hgo]; [discriminate|]. rewrite Hgo.
    now rewrite tryCopyTemplate_disk.
  - now rewrite tryCopyTemplate_disk.
Qed.

Lemma env_reads_back_template_witness :
  readFileSync
    (disk (activate sampleWorld
             (userWho (Some topTemplate) (Some Overwrite) (Some Yes))))
    [lit "ws"; lit ".env"]
  = Some (lit "node_modules").
Proof.
  exact (proj1 (env_reads_back_template ws [lit "ws"; lit ".env.example"]
                  fullDisk (userWho (Some topTemplate) (Some Overwrite) (Some Yes))
                  [ShowQuickPick (quickPickItems ws (findTemplateFiles ws sampleTree))
                     (Some topTemplate)]
                  (lit "node_modules") (or_intror eq_refl) eq_refl eq_refl)).
Defined.

(** X21. The quick pick is shown exactly when the locator finds at least
    two templates (a single one is taken without asking); its items are made
    from the templates in the order found, and the answer is the user's. *)
Theorem quick_pick_only_for_several_templates :
  forall (w : World) (u : User) (workspaceRoot : path) (others : list path)
         (items : list QuickPickItem) (answer : option QuickPickItem),
    workspaceFolders w = Some (workspaceRoot :: others) ->
    (In (ShowQuickPick items answer) (trace (activate w u))
     <-> 2 <= length (findTemplateFiles workspaceRoot (tree w))
         /\ items = quickPickItems workspaceRoot
                      (findTemplateFiles workspaceRoot (tree w))
         /\ answer = pickTemplate u items).
Proof.
  intros w u root others items answer Hw. unfold activate. rewrite Hw.
  unfold quickPickItems.
  destruct (findTemplateFiles root (tree w)) as [|t1 [|t2 ts]].
  - cbn [trace done In length]. split.
    + intros [H|[]]. discriminate.
    + intros [H _]. lia.
  - cbn [length]. split.
    + intros H. apply withTemplate_events in H as [[]|H]. discriminate.
    + intros [H _]. lia.
  - set (found := t1 :: t2 :: ts).
    set (items0 := map _ found).
    destruct (pickTemplate u items0) as [item|] eqn:Hpick.
    + split.
      * intros H. apply withTemplate_events in H as [[H|[]]|H]; [|discriminate].
        injection H as <- <-. repeat split; [cbn; lia | now rewrite Hpick].
      * intros (_ & -> & ->).
        destruct (withTemplate_keeps_before root (root ++ description item)
                    (files w) u [ShowQuickPick items0 (Some item)]) as [rest ->].
        rewrite Hpick. now left.
    + cbn [trace done In]. split.
      * intros [H|[]]. injection H as <- <-.
        repeat split; [cbn; lia | now rewrite Hpick].
      * intros (_ & -> & ->). rewrite Hpick. now left.
Qed.

Lemma quick_pick_only_for_several_templates_witness :
  In (ShowQuickPick (quickPickItems ws (findTemplateFiles ws sampleTree)) None)
     (trace (activate twoTemplateWorld (userWho None None None))).
Proof.
  apply (proj2 (quick_pick_only_for_several_templates twoTemplateWorld
                  (userWho None None None) ws []
                  (quickPickItems ws (findTemplateFiles ws sampleTree)) None
                  eq_refl)).
  split; [vm_compute; lia | split; reflexivity].
Defined.

Lemma copyTemplate_no_error workspaceRoot selectedTemplate envPath d u :
  filter isErrorMessage
    (trace (copyTemplate workspaceRoot selectedTemplate envPath d u)) = [].
Proof.
  destruct (filter isErrorMessage _) as [|e rest] eqn:E; [reflexivity|].
  assert (Hin : In e (filter isErrorMessage
                        (trace (copyTemplate workspaceRoot selectedTemplate envPath d u))))
    by (rewrite E; now left).
  apply filter_In in Hin as [Hin He].
  unfold copyTemplate in Hin.
  destruct (readFileSync d selectedTemplate) as [c|]; [|destruct Hin].
  destruct (writeFileSync d envPath _) as [d1|]; [|destruct Hin].
  cbn [trace] in Hin. rewrite !in_app_iff in Hin.
  destruct Hin as [[H|[H|H]]|H].
  - cbn [In] in H. repeat (destruct H as [<-|H]; [discriminate|]). destruct H.
  - destruct (hasTabStops (processTemplateContent c)); cbn [In] in H;
      repeat (destruct H as [<-|H]; [discriminate|]); destruct H.
  - destruct H as [<-|[]]. discriminate.
  - apply checkGitignore_events in H. destruct e; discriminate.
Qed.

Lemma withTemplate_errors workspaceRoot selectedTemplate d u before :
  filter isErrorMessage before = [] ->
  length (filter isErrorMessage
            (trace (withTemplate workspaceRoot selectedTemplate d u before))) <= 1.
Proof.
  intros Hb. unfold withTemplate, tryCopyTemplate.
  destruct (existsSync d _); [destruct (existingChoice u) as [[| |]|]|];
    try (cbn [trace done]; rewrite filter_app, Hb; cbn; lia);
    destruct (threw (copyTemplate _ _ _ d u)); cbn [trace done];
    rewrite !filter_app, ?Hb, copyTemplate_no_error; cbn; lia.
Qed.

(** X22. A run reports at most one error.  It reports that no workspace
    folder is open exactly when there is none, and that no template was
    found exactly when the locator returns nothing for the first folder. *)
Theorem error_reports :
  forall (w : World) (u : User),
    length (filter isErrorMessage (trace (activate w u))) <= 1
    /\ (In (ShowErrorMessage NoWorkspaceFolderOpen) (trace (activate w u))
        <-> workspaceFolders w = None)
    /\ (In (ShowErrorMessage NoTemplateFilesFound) (trace (activate w u))
        <-> exists workspaceRoot others,
              workspaceFolders w = Some (workspaceRoot :: others)
              /\ findTemplateFiles workspaceRoot (tree w) = []).
Proof.
  intros w u. unfold activate.
  destruct (workspaceFolders w) as [[|root others]|].
  - cbn [trace In]. split; [cbn; lia|]. split; split.
    + intros [].
    + discriminate.
    + intros [].
    + intros (r & o & H & _). discriminate.
  - assert (Hwith : forall sel before m,
               filter isErrorMessage before = [] ->
               m <> FailedToCreate ->
               ~ In (ShowErrorMessage m) (trace (withTemplate root sel (files w) u before))).
    { intros sel before m Hb Hm H. apply withTemplate_events in H as [H|H].
      - assert (Hf : In (ShowErrorMessage m) (filter isErrorMessage before))
          by (apply filter_In; auto).
        rewrite Hb in Hf. destruct Hf.
      - destruct m; try discriminate. congruence. }
    destruct (findTemplateFiles root (tree w)) as [|t1 [|t2 ts]] eqn:Hfound.
    + cbn [trace done In]. split; [cbn; lia|]. split; split.
      * intros [H|[]]. discriminate.
      * discriminate.
      * intros _. exists root, others. auto.
      * intros _. now left.
    + split; [now apply withTemplate_errors|]. split; split.
      * intros H. now apply Hwith in H.
      * discriminate.
      * intros H. now apply Hwith in H.
      * intros (r & o & E & Hnil). injection E as <- <-. congruence.
    + destruct (pickTemplate u _) as [item|].
      * split; [now apply withTemplate_errors|]. split; split.
        -- intros H. now apply Hwith in H.
        -- discriminate.
        -- intros H. now apply Hwith in H.
        -- intros (r & o & E & Hnil). injection E as <- <-. congruence.
      * cbn [trace done In]. split; [cbn; lia|]. split; split.
        -- intros [H|[]]. discriminate.
        -- discriminate.
        -- intros [H|[]]. discriminate.
        -- intros (r & o & E & Hnil). injection E as <- <-. congruence.
  - cbn [trace done In]. split; [cbn; lia|]. split; split.
    + reflexivity.
    + intros _. now left.
    + intros [H|[]]. discriminate.
    + intros (r & o & H & _). discriminate.
Qed.

(* ================================================================= *)
(** ** The updater, the locator and the handler on given texts, disks and trees *)

(* ----------------------------------------------------------------- *)
(** *** The snippet text and its markers *)





















(* ----------------------------------------------------------------- *)
(** *** The ignore file on the disk *)

Lemma checkGitignore_read (workspaceRoot : path) (d : Disk) (u : User)
  (gitignoreContent : jsstring) :
  existsSync d (workspaceRoot ++ [lit ".gitignore"]) = true
  /\ readFileSync d (workspaceRoot ++ [lit ".gitignore"]) = Some gitignoreContent
  \/ existsSync d (workspaceRoot ++ [lit ".gitignore"]) = false
     /\ gitignoreContent = [] ->
  readGitignore workspaceRoot d = Some gitignoreContent.
Proof.
  unfold readGitignore, gitignorePathOf, pathJoin.
  intros [[-> ->] | [-> ->]]; reflexivity.
Qed.

Lemma not_ending_in_LF (s : jsstring) :
  (forall p, s <> p ++ [LF]) -> endsWith s [LF] = false.
Proof.
  intros H. destruct (endsWith s [LF]) eqn:E; [|reflexivity].
  apply endsWith_LF_spec in E as [p ->]. now destruct (H p).
Qed.

(** C5. The entry counts as present exactly when some line of the text,
    trimmed, is [.env], [/.env] or [*.env].  When the file [.gitignore] of
    the workspace root exists and its text has the entry, the updater asks
    nothing and writes nothing, whatever the user would answer; when its
    text has not, or when there is no such file (which reads as the empty
    text), the updater goes on to ask.  A line [/.env] of the file, with
    spaces around it, makes the entry present. *)
Theorem ignore_entry_detection :
  (forall gitignoreContent : jsstring,
      hasEnv gitignoreContent = true <->
      exists line, In line (split gitignoreContent)
        /\ (trim line = lit ".env" \/ trim line = lit "/.env"
            \/ trim line = lit "*.env"))
  /\ (forall workspaceRoot d u gitignoreContent,
        existsSync d (workspaceRoot ++ [lit ".gitignore"]) = true ->
        readFileSync d (workspaceRoot ++ [lit ".gitignore"])
        = Some gitignoreContent ->
        (hasEnv gitignoreContent = true ->
         checkGitignore workspaceRoot d u
         = {| disk := d; trace := []; threw := false |})
        /\ (hasEnv gitignoreContent = false ->
            exists rest,
              trace (checkGitignore workspaceRoot d u)
              = AskAddToGitignore (gitignoreChoice u) :: rest))
  /\ (forall workspaceRoot d u,
        existsSync d (workspaceRoot ++ [lit ".gitignore"]) = false ->
        exists rest,
          trace (checkGitignore workspaceRoot d u)
          = AskAddToGitignore (gitignoreChoice u) :: rest)
  /\ (forall workspaceRoot d u gitignoreContent before after l r,
        existsSync d (workspaceRoot ++ [lit ".gitignore"]) = true ->
        readFileSync d (workspaceRoot ++ [lit ".gitignore"])
        = Some gitignoreContent ->
        split gitignoreContent = before ++ (l ++ lit "/.env" ++ r) :: after ->
        forallb isSpace l = true ->
        forallb isSpace r = true ->
        checkGitignore workspaceRoot d u
        = {| disk := d; trace := []; threw := false |}).
Proof.
  assert (Hask : forall workspaceRoot d u c,
             readGitignore workspaceRoot d = Some c -> hasEnv c = false ->
             exists rest,
               trace (checkGitignore workspaceRoot d u)
               = AskAddToGitignore (gitignoreChoice u) :: rest).
  { intros root d u c Hr Hh. unfold checkGitignore. rewrite Hr, Hh.
    destruct (gitignoreChoice u) as [[|]|];
      [destruct (writeFileSync d _ _)| |]; cbn [trace]; eexists; reflexivity. }
  split; [exact hasEnv_spec|]. split; [|split].
  - intros root d u c Hex Hread.
    pose proof (checkGitignore_read root d u c (or_introl (conj Hex Hread)))
      as Hr.
    split; intros Hh.
    + exact (checkGitignore_present root d u c Hr Hh).
    + exact (Hask root d u c Hr Hh).
  - intros root d u Hex.
    apply (Hask root d u []); [|reflexivity].
    exact (checkGitignore_read root d u [] (or_intror (conj Hex eq_refl))).
  - intros root d u c before after l r Hex Hread Hs Hl Hr.
    apply (checkGitignore_present root d u c).
    + exact (checkGitignore_read root d u c (or_introl (conj Hex Hread))).
    + apply hasEnv_spec. exists (l ++ lit "/.env" ++ r). split.
      * rewrite Hs. apply in_elt.
      * right; left.
        apply (trim_padded l r (lit ".en") 47%N 118%N Hl Hr); reflexivity.
Qed.

Lemma ignore_entry_detection_witness :
  checkGitignore ws
    (ignoreFileDisk
       (lit "node_modules" ++ LF :: lit "  /.env " ++ LF :: lit "dist"))
    (userWho None None (Some Yes))
  = {| disk := ignoreFileDisk
                 (lit "node_modules" ++ LF :: lit "  /.env " ++ LF :: lit "dist");
       trace := []; threw := false |}
  /\ exists rest,
       trace (checkGitignore ws emptyDisk (userWho None None None))
       = AskAddToGitignore None :: rest.
Proof.
  split.
  - apply (proj2 (proj2 (proj2 ignore_entry_detection)) ws
             (ignoreFileDisk
                (lit "node_modules" ++ LF :: lit "  /.env " ++ LF :: lit "dist"))
             (userWho None None (Some Yes))
             (lit "node_modules" ++ LF :: lit "  /.env " ++ LF :: lit "dist")
             [lit "node_modules"] [lit "dist"] (lit "  ") (lit " "));
      vm_compute; reflexivity.
  - exact (proj1 (proj2 (proj2 ignore_entry_detection)) ws emptyDisk
             (userWho None None None) eq_refl).
Defined.

(** C6. When the updater appends (the text of the ignore file, or the
    empty text when there is no file, lacks the entry, the user answers Yes
    and the file can be written), it writes the file [.gitignore] of the
    workspace root once.  The text it writes is the text it read, followed
    by [.env] and a line feed when the text read ends in a line feed, and by
    a line feed, [.env] and a line feed when it does not.  So the lines of
    the text read are the first lines of the text written, in order, and
    [.env] is a line of its own after them.  Whatever the inputs, one run of
    the updater writes at most once. *)
Theorem ignore_entry_append :
  (forall workspaceRoot d u prior,
      existsSync d (workspaceRoot ++ [lit ".gitignore"]) = true
      /\ readFileSync d (workspaceRoot ++ [lit ".gitignore"]) = Some prior
      \/ existsSync d (workspaceRoot ++ [lit ".gitignore"]) = false
         /\ prior = [] ->
      hasEnv prior = false ->
      gitignoreChoice u = Some Yes ->
      canWrite d (workspaceRoot ++ [lit ".gitignore"]) = true ->
      exists new,
        trace (checkGitignore workspaceRoot d u)
        = [AskAddToGitignore (Some Yes);
           WriteFile (workspaceRoot ++ [lit ".gitignore"]) new;
           ShowInformationMessage AddedToGitignore]
        /\ readFileSync (disk (checkGitignore workspaceRoot d u))
             (workspaceRoot ++ [lit ".gitignore"]) = Some new
        /\ ((exists p, prior = p ++ [LF]) -> new = prior ++ lit ".env" ++ [LF])
        /\ ((forall p, prior <> p ++ [LF]) ->
            new = prior ++ LF :: lit ".env" ++ [LF])
        /\ exists kept,
             ((exists p, prior = p ++ [LF]) -> split prior = kept ++ [[]])
             /\ ((forall p, prior <> p ++ [LF]) -> split prior = kept)
             /\ split new = kept ++ [lit ".env"; []])
  /\ (forall workspaceRoot d u,
        length (filter isWrite (trace (checkGitignore workspaceRoot d u))) <= 1).
Proof.
  split; [|exact checkGitignore_writes_once].
  intros root d u c Hfile Hh Hy Hw.
  pose proof (checkGitignore_read root d u c Hfile) as Hr.
  exists (newGitignoreContent c).
  unfold checkGitignore, writeFileSync, gitignorePathOf, pathJoin.
  rewrite Hr, Hh, Hy, Hw. cbn [trace disk readFileSync].
  rewrite path_eqb_refl.
  split; [reflexivity|]. split; [reflexivity|].
  unfold newGitignoreContent. split; [|split].
  - intros He. apply endsWith_LF_spec in He. now rewrite He.
  - intros He. now rewrite (not_ending_in_LF c He).
  - destruct (newGitignoreContent_lines c) as (kept & Hk & Hn).
    exists kept. split; [|split; [|exact Hn]].
    + intros He. apply endsWith_LF_spec in He. now rewrite He in Hk.
    + intros He. rewrite (not_ending_in_LF c He), app_nil_r in Hk. exact Hk.
Qed.

Lemma ignore_entry_append_witness :
  trace (checkGitignore ws (ignoreFileDisk (lit "node_modules"))
           (userWho None None (Some Yes)))
  = [AskAddToGitignore (Some Yes);
     WriteFile [lit "ws"; lit ".gitignore"]
       (lit "node_modules" ++ LF :: lit ".env" ++ [LF]);
     ShowInformationMessage AddedToGitignore]
  /\ trace (checkGitignore ws (ignoreFileDisk (lit "node_modules" ++ [LF]))
              (userWho None None (Some Yes)))
     = [AskAddToGitignore (Some Yes);
        WriteFile [lit "ws"; lit ".gitignore"]
          (lit "node_modules" ++ LF :: lit ".env" ++ [LF]);
        ShowInformationMessage AddedToGitignore]
  /\ trace (checkGitignore ws emptyDisk (userWho None None (Some Yes)))
     = [AskAddToGitignore (Some Yes);
        WriteFile [lit "ws"; lit ".gitignore"] (LF :: lit ".env" ++ [LF]);
        ShowInformationMessage AddedToGitignore].
Proof.
  split; [|split].
  - destruct (proj1 ignore_entry_append ws (ignoreFileDisk (lit "node_modules"))
                (userWho None None (Some Yes)) (lit "node_modules")
                (or_introl (conj eq_refl eq_refl)) eq_refl eq_refl eq_refl)
      as (new & Ht & _ & _ & Hn & _).
    rewrite Ht, Hn; [vm_compute; reflexivity|].
    intros p E. apply (f_equal (@rev codeUnit)) in E.
    rewrite rev_app_distr in E. vm_compute in E. discriminate E.
  - destruct (proj1 ignore_entry_append ws
                (ignoreFileDisk (lit "node_modules" ++ [LF]))
                (userWho None None (Some Yes)) (lit "node_modules" ++ [LF])
                (or_introl (conj eq_refl eq_refl)) eq_refl eq_refl eq_refl)
      as (new & Ht & _ & Hn & _).
    rewrite Ht, Hn; [vm_compute; reflexivity|].
    now exists (lit "node_modules").
  - destruct (proj1 ignore_entry_append ws emptyDisk
                (userWho None None (Some Yes)) []
                (or_intror (conj eq_refl eq_refl)) eq_refl eq_refl eq_refl)
      as (new & Ht & _ & _ & Hn & _).
    rewrite Ht, Hn; [vm_compute; reflexivity|].
    intros [|c p] E; discriminate E.
Defined.

(* ----------------------------------------------------------------- *)
(** *** The locator on a tree where calls fail *)

Lemma pruneEntries_In (files : list (jsstring * node)) (name : jsstring)
  (child' : node) :
  In (name, child') (pruneEntries files) ->
  exists child, In (name, child) files /\ child' = prune child.
Proof.
  induction files as [|[name0 m] rest IH]; [intros []|].
  cbn [pruneEntries].
  destruct m as [|r fs| |]; [| | |intros []];
    (intros [E|Hin];
     [injection E as <- <-; eexists; split; [now left | reflexivity]
     |destruct (IH Hin) as (child & Hc & ->); exists child; split;
      [now right | reflexivity]]).
Qed.

Lemma pruneEntries_examined (files : list (jsstring * node)) (name : jsstring)
  (child : node) :
  Forall (fun e => snd e <> NoStat) files ->
  In (name, child) files ->
  In (name, prune child) (pruneEntries files).
Proof.
  induction files as [|[name0 m] rest IH]; intros Hall Hin; [destruct Hin|].
  inversion Hall as [|e l Hm Hrest]; subst. cbn [snd] in Hm.
  cbn [pruneEntries]. destruct Hin as [E|Hin].
  - injection E as -> ->. destruct child; [now left..|congruence].
  - destruct m; [right; now apply IH..|congruence].
Qed.

(** What the locator can see of a tree lies in the tree, below directories
    that can be listed. *)
Lemma resolves_prune_reaches (names : list jsstring) :
  forall n, resolves (prune n) names File -> reaches n names File.
Proof.
  induction names as [|name rest IH]; intros n H.
  - inversion H as [m Hm|]; subst.
    destruct n as [|[|] fs| |]; try discriminate. constructor.
  - destruct n as [|[|] fs| |]; try (inversion H; fail).
    + rewrite prune_Dir in H.
      inversion H as [|r files name0 child' names0 m Hin Hres]; subst.
      apply pruneEntries_In in Hin as (child & Hin & ->).
      econstructor; [exact Hin|]. now apply IH.
    + inversion H as [|r files name0 child' names0 m Hin Hres]; subst.
      destruct Hin.
Qed.

Lemma scanExamines_Dir (files : list (jsstring * node)) :
  scanExamines (Dir true files) <->
  Forall (fun e => snd e <> NoStat
                   /\ (searchable (fst e) -> scanExamines (snd e))) files.
Proof.
  cbn [scanExamines]. split; intros H.
  - induction files as [|[name m] rest IH]; constructor.
    + cbn [fst snd]. destruct H as (H1 & H2 & _). auto.
    + apply IH, H.
  - induction files as [|[name m] rest IH]; [exact I|].
    inversion H as [|e l [H1 H2] Hrest]; subst. cbn [fst snd] in *.
    split; [exact H1|]. split; [exact H2|]. now apply IH.
Qed.

(** Where the scan examines every entry it meets, a template file below
    searchable directories that can be listed is in what the locator sees. *)
Lemma reaches_prune_resolves (names : list jsstring) :
  forall n base,
    scanExamines n ->
    Forall searchable names ->
    reaches n (names ++ [base]) File ->
    resolves (prune n) (names ++ [base]) File.
Proof.
  induction names as [|d rest IH]; intros n base Hn Hs Hr; cbn [app] in *.
  - inversion Hr as [|files name child names0 m Hin Hres]; subst.
    inversion Hres; subst.
    apply scanExamines_Dir in Hn. rewrite prune_Dir.
    econstructor; [|constructor].
    apply (pruneEntries_examined files base File); [|exact Hin].
    eapply Forall_impl; [|exact Hn]. now intros e [H _].
  - inversion Hr as [|files name child names0 m Hin Hres]; subst.
    inversion Hs as [|x l Hd Hs']; subst.
    apply scanExamines_Dir in Hn. rewrite prune_Dir.
    econstructor.
    + apply (pruneEntries_examined files d child); [|exact Hin].
      eapply Forall_impl; [|exact Hn]. now intros e [H _].
    + apply IH; [|exact Hs'|exact Hres].
      rewrite Forall_forall in Hn. exact (proj2 (Hn _ Hin) Hd).
Qed.

(** A template in a directory that cannot be listed is not found, although
    it lies in no hidden directory and not in [node_modules]. *)
Lemma template_in_unlistable_directory_not_found :
  resolves treeWithLockedTemplate [lit "locked"; lit ".env.example"] File
  /\ startsWith (lit "locked") (lit ".") = false
  /\ lit "locked" <> lit "node_modules"
  /\ In (lit ".env.example")
        [lit ".env.example"; lit ".env.template"; lit ".env.sample";
         lit ".env.dist"]
  /\ findTemplateFiles ws treeWithLockedTemplate = [].
Proof.
  split; [|split; [|split; [|split]]].
  - unfold treeWithLockedTemplate.
    econstructor; [left; reflexivity|].
    econstructor; [left; reflexivity | constructor].
  - reflexivity.
  - discriminate.
  - left. reflexivity.
  - reflexivity.
Qed.

(** C7. Whatever the tree, every path the locator returns is the root
    followed by directory names and a base name such that a regular file
    lies at that place below directories that can be listed, the base name
    is one of [.env.example], [.env.template], [.env.sample] and
    [.env.dist], and none of the directories starts with a dot or is
    [node_modules].  When the names of each listing are distinct, no path
    is returned twice.  When every entry the scan meets can be examined,
    every such file is returned, at any depth; a file in a directory that
    cannot be listed is not among them. *)
Theorem locator_finds_each_reachable_template_once :
  forall (rootPath : path) (root : node),
    (forall p,
        In p (findTemplateFiles rootPath root) ->
        exists names base,
          p = rootPath ++ names ++ [base]
          /\ reaches root (names ++ [base]) File
          /\ In base [lit ".env.example"; lit ".env.template";
                      lit ".env.sample"; lit ".env.dist"]
          /\ Forall (fun d => startsWith d (lit ".") = false
                              /\ d <> lit "node_modules") names)
    /\ (distinctNames root -> NoDup (findTemplateFiles rootPath root))
    /\ (scanExamines root ->
        forall names base,
          reaches root (names ++ [base]) File ->
          In base [lit ".env.example"; lit ".env.template";
                   lit ".env.sample"; lit ".env.dist"] ->
          Forall (fun d => startsWith d (lit ".") = false
                           /\ d <> lit "node_modules") names ->
          In (rootPath ++ names ++ [base]) (findTemplateFiles rootPath root)).
Proof.
  intros rootPath root. unfold findTemplateFiles. split; [|split].
  - intros p Hin. rewrite searchDirectory_prune in Hin.
    apply searchDirectory_sound in Hin as (names & base & E & Hr & Hb & Hs).
    exists names, base. split; [exact E|]. split; [|split].
    + now apply resolves_prune_reaches.
    + exact Hb.
    + exact Hs.
  - intros Hd. now apply searchDirectory_NoDup.
  - intros Hn names base Hr Hb Hs. rewrite searchDirectory_prune.
    apply searchDirectory_complete; [apply healthy_prune|].
    exists names, base. split; [reflexivity|]. split; [|split].
    + now apply reaches_prune_resolves.
    + exact Hb.
    + exact Hs.
Qed.

Lemma roughTree_scanExamines : scanExamines roughTree.
Proof.
  unfold roughTree. apply scanExamines_Dir.
  constructor; [|constructor; [|constructor; [|constructor; [|constructor]]]];
    cbn [fst snd]; (split; [discriminate|]).
  - intros _. exact I.
  - intros _. exact I.
  - intros [_ H]. now destruct H.
  - intros _. apply scanExamines_Dir. constructor; [|constructor].
    cbn [fst snd]. split; [discriminate|]. intros _.
    apply scanExamines_Dir. constructor; [|constructor].
    cbn [fst snd]. split; [discriminate | intros _; exact I].
Qed.

Lemma roughTree_distinctNames : distinctNames roughTree.
Proof.
  cbn [roughTree distinctNames map fst].
  repeat split;
    repeat (constructor; [cbn [In]; intuition discriminate|]); constructor.
Qed.

Lemma locator_finds_each_reachable_template_once_witness :
  NoDup (findTemplateFiles ws roughTree)
  /\ In [lit "ws"; lit "src"; lit "deep"; lit ".env.sample"]
        (findTemplateFiles ws roughTree)
  /\ findTemplateFiles ws roughTree
     = [[lit "ws"; lit ".env.example"];
        [lit "ws"; lit "src"; lit "deep"; lit ".env.sample"]].
Proof.
  destruct (locator_finds_each_reachable_template_once ws roughTree)
    as (_ & Honce & Hall).
  split; [exact (Honce roughTree_distinctNames)|]. split.
  - apply (Hall roughTree_scanExamines [lit "src"; lit "deep"]
             (lit ".env.sample")).
    + cbn [app]. unfold roughTree.
      econstructor; [do 3 right; left; reflexivity|].
      econstructor; [left; reflexivity|].
      econstructor; [left; reflexivity | constructor].
    + cbn. tauto.
    + repeat constructor; discriminate.
  - vm_compute. reflexivity.
Defined.

(* ----------------------------------------------------------------- *)
(** *** What a run of the handler writes and reports *)

Lemma readGitignore_cases (workspaceRoot : path) (d : Disk) (prior : jsstring) :
  readGitignore workspaceRoot d = Some prior ->
  existsSync d (workspaceRoot ++ [lit ".gitignore"]) = true
  /\ readFileSync d (workspaceRoot ++ [lit ".gitignore"]) = Some prior
  \/ existsSync d (workspaceRoot ++ [lit ".gitignore"]) = false /\ prior = [].
Proof.
  unfold readGitignore, gitignorePathOf, pathJoin.
  destruct (existsSync d _); intros H; [left; auto|].
  right. injection H as <-. auto.
Qed.

Lemma readGitignore_after_write workspaceRoot d p c d1 :
  p <> gitignorePathOf workspaceRoot ->
  writeFileSync d p c = Some d1 ->
  readGitignore workspaceRoot d1 = readGitignore workspaceRoot d.
Proof.
  intros Hp Hw. unfold writeFileSync in Hw.
  destruct (canWrite d p); [|discriminate]. injection Hw as <-.
  unfold readGitignore. cbn [existsSync readFileSync].
  rewrite (path_eqb_neq (gitignorePathOf workspaceRoot) p) by congruence.
  reflexivity.
Qed.

Lemma newGitignoreContent_cases (prior : jsstring) :
  ((exists p, prior = p ++ [LF]) ->
   newGitignoreContent prior = prior ++ lit ".env" ++ [LF])
  /\ ((forall p, prior <> p ++ [LF]) ->
      newGitignoreContent prior = prior ++ LF :: lit ".env" ++ [LF]).
Proof.
  unfold newGitignoreContent. split; intros He.
  - apply endsWith_LF_spec in He. now rewrite He.
  - now rewrite (not_ending_in_LF prior He).
Qed.

(** The one write of the updater, with what led to it. *)
Lemma checkGitignore_writes_tied workspaceRoot d u :
  filter isWrite (trace (checkGitignore workspaceRoot d u)) = []
  \/ exists prior,
       readGitignore workspaceRoot d = Some prior
       /\ hasEnv prior = false
       /\ gitignoreChoice u = Some Yes
       /\ filter isWrite (trace (checkGitignore workspaceRoot d u))
          = [WriteFile (workspaceRoot ++ [lit ".gitignore"])
               (newGitignoreContent prior)].
Proof.
  unfold checkGitignore.
  destruct (readGitignore workspaceRoot d) as [prior|]; [|now left].
  destruct (hasEnv prior) eqn:Hh; [now left|].
  destruct (gitignoreChoice u) as [[|]|]; try (now left).
  destruct (writeFileSync d _ _); [|now left].
  right. exists prior. repeat split; auto.
Qed.

Lemma copyTemplate_writes_tied workspaceRoot selectedTemplate envPath d u :
  envPath <> gitignorePathOf workspaceRoot ->
  filter isWrite
    (trace (copyTemplate workspaceRoot selectedTemplate envPath d u)) = []
  \/ exists c,
       readFileSync d selectedTemplate = Some c
       /\ (filter isWrite
             (trace (copyTemplate workspaceRoot selectedTemplate envPath d u))
           = [WriteFile envPath c]
           \/ exists prior,
                readGitignore workspaceRoot d = Some prior
                /\ hasEnv prior = false
                /\ gitignoreChoice u = Some Yes
                /\ filter isWrite
                     (trace (copyTemplate workspaceRoot selectedTemplate
                               envPath d u))
                   = [WriteFile envPath c;
                      WriteFile (workspaceRoot ++ [lit ".gitignore"])
                        (newGitignoreContent prior)]).
Proof.
  intros Hp. unfold copyTemplate.
  destruct (readFileSync d selectedTemplate) as [c|]; [|now left].
  destruct (writeFileSync d envPath _) as [d1|] eqn:Hw; [|now left].
  right. exists c. split; [reflexivity|].
  cbn [trace content processTemplateContent] in *.
  rewrite !filter_app.
  assert (E : filter isWrite
                (if hasTabStops (processTemplateContent c)
                 then [DeleteFullRange;
                       InsertSnippet (snippetContent (processTemplateContent c))]
                 else []) = [])
    by (destruct (hasTabStops (processTemplateContent c)); reflexivity).
  rewrite E. cbn [filter isWrite app].
  destruct (checkGitignore_writes_tied workspaceRoot d1 u)
    as [-> | (prior & Hr & Hh & Hy & ->)].
  - now left.
  - right. exists prior.
    rewrite (readGitignore_after_write workspaceRoot d envPath c d1 Hp Hw) in Hr.
    auto.
Qed.

Lemma withTemplate_writes_tied workspaceRoot selectedTemplate d u before :
  filter isWrite before = [] ->
  let envPath := pathJoin (dirname selectedTemplate) (lit ".env") in
  let writes :=
    filter isWrite (trace (withTemplate workspaceRoot selectedTemplate d u before)) in
  writes = []
  \/ exists c,
       readFileSync d selectedTemplate = Some c
       /\ (writes = [WriteFile envPath c]
           \/ exists prior,
                readGitignore workspaceRoot d = Some prior
                /\ hasEnv prior = false
                /\ gitignoreChoice u = Some Yes
                /\ writes = [WriteFile envPath c;
                             WriteFile (workspaceRoot ++ [lit ".gitignore"])
                               (newGitignoreContent prior)]).
Proof.
  intros Hb envPath writes. subst writes. unfold withTemplate. fold envPath.
  assert (Hcopy : forall before',
             filter isWrite before' = [] ->
             filter isWrite
               (trace (tryCopyTemplate workspaceRoot selectedTemplate envPath
                         d u before'))
             = filter isWrite
                 (trace (copyTemplate workspaceRoot selectedTemplate envPath d u))).
  { intros before' Hb'. now rewrite tryCopyTemplate_writes, Hb'. }
  pose proof (copyTemplate_writes_tied workspaceRoot selectedTemplate envPath d u
                (envPath_not_gitignore _ _)) as Hc.
  destruct (existsSync d envPath); [|now rewrite (Hcopy before Hb)].
  destruct (existingChoice u) as [[| |]|].
  - left. cbn [trace done]. rewrite filter_app, Hb. reflexivity.
  - rewrite Hcopy; [exact Hc|]. rewrite filter_app, Hb. reflexivity.
  - left. cbn [trace done]. rewrite filter_app, Hb. reflexivity.
  - left. cbn [trace done]. rewrite filter_app, Hb. reflexivity.
Qed.

(** The template the handler goes on with: the only one found, or the one
    the picked item names. *)
Lemma activate_selected (w : World) (u : User) :
  filter isWrite (trace (activate w u)) = []
  \/ exists workspaceRoot others selectedTemplate before,
       workspaceFolders w = Some (workspaceRoot :: others)
       /\ filter isWrite before = []
       /\ (findTemplateFiles workspaceRoot (tree w) = [selectedTemplate]
           \/ 2 <= length (findTemplateFiles workspaceRoot (tree w))
              /\ exists item,
                   pickTemplate u
                     (quickPickItems workspaceRoot
                        (findTemplateFiles workspaceRoot (tree w)))
                   = Some item
                   /\ selectedTemplate = workspaceRoot ++ description item)
       /\ activate w u
          = withTemplate workspaceRoot selectedTemplate (files w) u before.
Proof.
  unfold activate.
  destruct (workspaceFolders w) as [[|workspaceRoot others]|];
    [now left| |now left].
  destruct (findTemplateFiles workspaceRoot (tree w)) as [|t1 [|t2 ts]] eqn:Hf;
    [now left| |].
  - right. exists workspaceRoot, others, t1, [].
    split; [reflexivity|]. split; [reflexivity|].
    split; [left; exact Hf | reflexivity].
  - destruct (pickTemplate u _) as [item|] eqn:Hpick; [|now left].
    right. eexists workspaceRoot, others, _, _.
    split; [reflexivity|]. split; [|split]. 3: reflexivity.
    + reflexivity.
    + right. rewrite Hf. split; [simpl; lia|]. exists item.
      split; [exact Hpick | reflexivity].
Qed.

(** X14. One run of the command writes at most two files, in this order.
    First the file [.env] in the directory of the selected template, which
    is the only template found or, among several, the one the picked item
    names; the text written is the text read from that template.  Then,
    only after it, the [.gitignore] of the first workspace folder, and only
    when the text read from it (the empty text when there is none) lacks
    the entry and the user answered Yes; the text written is that text with
    the entry appended on a line of its own. *)
Theorem handler_writes_env_then_gitignore :
  forall (w : World) (u : User),
    let writes := filter isWrite (trace (activate w u)) in
    writes = []
    \/ exists workspaceRoot others selectedTemplate c,
         workspaceFolders w = Some (workspaceRoot :: others)
         /\ (findTemplateFiles workspaceRoot (tree w) = [selectedTemplate]
             \/ 2 <= length (findTemplateFiles workspaceRoot (tree w))
                /\ exists item,
                     pickTemplate u
                       (quickPickItems workspaceRoot
                          (findTemplateFiles workspaceRoot (tree w)))
                     = Some item
                     /\ selectedTemplate = workspaceRoot ++ description item)
         /\ readFileSync (files w) selectedTemplate = Some c
         /\ (writes
             = [WriteFile (pathJoin (dirname selectedTemplate) (lit ".env")) c]
             \/ exists prior new,
                  (existsSync (files w) (workspaceRoot ++ [lit ".gitignore"])
                   = true
                   /\ readFileSync (files w)
                        (workspaceRoot ++ [lit ".gitignore"]) = Some prior
                   \/ existsSync (files w)
                        (workspaceRoot ++ [lit ".gitignore"]) = false
                      /\ prior = [])
                  /\ hasEnv prior = false
                  /\ gitignoreChoice u = Some Yes
                  /\ writes
                     = [WriteFile
                          (pathJoin (dirname selectedTemplate) (lit ".env")) c;
                        WriteFile (workspaceRoot ++ [lit ".gitignore"]) new]
                  /\ ((exists p, prior = p ++ [LF]) ->
                      new = prior ++ lit ".env" ++ [LF])
                  /\ ((forall p, prior <> p ++ [LF]) ->
                      new = prior ++ LF :: lit ".env" ++ [LF])).
Proof.
  intros w u writes. subst writes.
  destruct (activate_selected w u)
    as [H | (root & others & sel & before & Hw & Hb & Hsel & E)];
    [now left|].
  rewrite E.
  destruct (withTemplate_writes_tied root sel (files w) u before Hb)
    as [H | (c & Hc & H)]; [now left|].
  right. exists root, others, sel, c.
  split; [exact Hw|]. split; [exact Hsel|]. split; [exact Hc|].
  destruct H as [H | (prior & Hr & Hh & Hy & H)]; [now left|].
  right. exists prior, (newGitignoreContent prior).
  split; [now apply readGitignore_cases|].
  split; [exact Hh|]. split; [exact Hy|]. split; [exact H|].
  apply newGitignoreContent_cases.
Qed.

Lemma handler_writes_env_then_gitignore_witness :
  filter isWrite
    (trace (activate pickingWorld (userWho (Some sampleItem) None (Some Yes))))
  = [WriteFile [lit "ws"; lit "src"; lit ".env"] (lit "B=xxx");
     WriteFile [lit "ws"; lit ".gitignore"] (LF :: lit ".env" ++ [LF])].
Proof.
  destruct (handler_writes_env_then_gitignore pickingWorld
              (userWho (Some sampleItem) None (Some Yes)))
    as [H | (root & others & sel & c & Hw & Hsel & Hread & H)].
  - vm_compute in H. discriminate H.
  - cbn [workspaceFolders pickingWorld] in Hw. injection Hw as <- <-.
    destruct Hsel as [Hsel | (_ & item & Hpick & ->)];
      [vm_compute in Hsel; discriminate Hsel|].
    cbn [pickTemplate userWho] in Hpick. injection Hpick as <-.
    assert (Hc : c = lit "B=xxx").
    { vm_compute in Hread. injection Hread as <-. reflexivity. }
    subst c.
    destruct H as [H | (prior & new & Hprior & _ & _ & H & _ & Hnew)].
    + vm_compute in H. discriminate H.
    + destruct Hprior as [[Hex _] | [_ ->]];
        [vm_compute in Hex; discriminate Hex|].
      rewrite H, Hnew; [reflexivity|].
      intros [|x p] Hp; discriminate Hp.
Defined.

(** The two ways the updater throws: the ignore file exists and cannot be
    read, and then nothing is asked; or its text lacks the entry, the user
    answers Yes and the file cannot be written. *)
Lemma checkGitignore_fails workspaceRoot d u asked :
  existsSync d (workspaceRoot ++ [lit ".gitignore"]) = true
  /\ readFileSync d (workspaceRoot ++ [lit ".gitignore"]) = None
  /\ asked = []
  \/ (exists prior,
        (existsSync d (workspaceRoot ++ [lit ".gitignore"]) = true
         /\ readFileSync d (workspaceRoot ++ [lit ".gitignore"]) = Some prior
         \/ existsSync d (workspaceRoot ++ [lit ".gitignore"]) = false
            /\ prior = [])
        /\ hasEnv prior = false
        /\ gitignoreChoice u = Some Yes
        /\ canWrite d (workspaceRoot ++ [lit ".gitignore"]) = false)
     /\ asked = [AskAddToGitignore (Some Yes)] ->
  checkGitignore workspaceRoot d u = {| disk := d; trace := asked; threw := true |}.
Proof.
  intros [(Hex & Hread & ->) | [(prior & Hfile & Hh & Hy & Hw) ->]].
  - unfold checkGitignore, readGitignore, gitignorePathOf, pathJoin.
    now rewrite Hex, Hread.
  - pose proof (checkGitignore_read workspaceRoot d u prior Hfile) as Hr.
    unfold checkGitignore, writeFileSync, gitignorePathOf, pathJoin.
    now rewrite Hr, Hh, Hy, Hw.
Qed.

(** A run that copies goes through the [try] block, after the warning when
    a [.env] was there. *)
Lemma withTemplate_copies workspaceRoot selectedTemplate d u before :
  existsSync d (pathJoin (dirname selectedTemplate) (lit ".env")) = false
  \/ existingChoice u = Some Overwrite ->
  withTemplate workspaceRoot selectedTemplate d u before
  = tryCopyTemplate workspaceRoot selectedTemplate
      (pathJoin (dirname selectedTemplate) (lit ".env")) d u
      (before
       ++ (if existsSync d (pathJoin (dirname selectedTemplate) (lit ".env"))
           then [ShowWarningMessage (Some Overwrite)] else [])).
Proof.
  intros Hgo. unfold withTemplate.
  destruct (existsSync d _) eqn:Hex; [|now rewrite app_nil_r].
  destruct Hgo as [Hgo|Hgo]; [discriminate|]. now rewrite Hgo.
Qed.

(** X17. The update of the ignore file runs inside the same [try] as the
    copy.  In a run that copies (no [.env] beside the template, or the
    answer Overwrite), when the update throws after the [.env] has been
    written, because the ignore file exists and cannot be read, or because
    it is to be appended to and cannot be written, the run reports that the
    file was created and then, as its last message, that creating it
    failed; the [.env] stays written with the text of the template. *)
Theorem ignore_failure_reported_as_create_failure :
  forall (workspaceRoot selectedTemplate : path) (d : Disk) (u : User)
         (before : list Event) (c : jsstring) (asked : list Event),
    existsSync d (pathJoin (dirname selectedTemplate) (lit ".env")) = false
    \/ existingChoice u = Some Overwrite ->
    readFileSync d selectedTemplate = Some c ->
    canWrite d (pathJoin (dirname selectedTemplate) (lit ".env")) = true ->
    existsSync d (workspaceRoot ++ [lit ".gitignore"]) = true
    /\ readFileSync d (workspaceRoot ++ [lit ".gitignore"]) = None
    /\ asked = []
    \/ (exists prior,
          (existsSync d (workspaceRoot ++ [lit ".gitignore"]) = true
           /\ readFileSync d (workspaceRoot ++ [lit ".gitignore"]) = Some prior
           \/ existsSync d (workspaceRoot ++ [lit ".gitignore"]) = false
              /\ prior = [])
          /\ hasEnv prior = false
          /\ gitignoreChoice u = Some Yes
          /\ canWrite d (workspaceRoot ++ [lit ".gitignore"]) = false)
       /\ asked = [AskAddToGitignore (Some Yes)] ->
    trace (withTemplate workspaceRoot selectedTemplate d u before)
    = before
      ++ (if existsSync d (pathJoin (dirname selectedTemplate) (lit ".env"))
          then [ShowWarningMessage (Some Overwrite)] else [])
      ++ [WriteFile (pathJoin (dirname selectedTemplate) (lit ".env")) c;
          OpenTextDocument (pathJoin (dirname selectedTemplate) (lit ".env"));
          ShowTextDocument (pathJoin (dirname selectedTemplate) (lit ".env"))]
      ++ (if existsb isPlaceholderLine (split c)
          then [DeleteFullRange;
                InsertSnippet (snippetContent (processTemplateContent c))]
          else [])
      ++ [ShowInformationMessage CreatedSuccessfully]
      ++ asked
      ++ [ShowErrorMessage FailedToCreate]
    /\ readFileSync (disk (withTemplate workspaceRoot selectedTemplate d u before))
         (pathJoin (dirname selectedTemplate) (lit ".env")) = Some c
    /\ threw (withTemplate workspaceRoot selectedTemplate d u before) = false.
Proof.
  intros root sel d u before c asked Hgo Hread Hcw Hfail.
  rewrite (withTemplate_copies root sel d u before Hgo).
  set (envPath := pathJoin (dirname sel) (lit ".env")) in *.
  set (pre := before ++ (if existsSync d envPath
                         then [ShowWarningMessage (Some Overwrite)] else [])).
  destruct (writeFileSync d envPath c) as [d1|] eqn:Hw;
    [|unfold writeFileSync in Hw; rewrite Hcw in Hw; discriminate].
  pose proof (checkGitignore_fails root d u asked Hfail) as Hg.
  destruct (checkGitignore_after_write root d u envPath c d1
              (envPath_not_gitignore _ _) Hw) as [Ht Hthrew].
  rewrite Hg in Ht, Hthrew. cbn [trace threw] in Ht, Hthrew.
  assert (Hd1 : readFileSync d1 envPath = Some c).
  { unfold writeFileSync in Hw. rewrite Hcw in Hw. injection Hw as <-.
    cbn [readFileSync]. now rewrite path_eqb_refl. }
  unfold tryCopyTemplate, copyTemplate. rewrite Hread.
  cbn [content processTemplateContent]. rewrite Hw.
  cbn [threw trace disk]. rewrite Hthrew. cbn [trace disk threw done].
  rewrite (checkGitignore_threw_disk root d1 u Hthrew), Ht, hasTabStops_spec.
  split; [|split; [exact Hd1 | reflexivity]].
  subst pre. cbn [app]. rewrite <- !app_assoc. reflexivity.
Qed.

Lemma ignore_failure_reported_as_create_failure_witness :
  trace (withTemplate ws [lit "ws"; lit ".env.example"] lockedIgnoreDisk
           (userWho None None (Some Yes)) [])
  = [WriteFile [lit "ws"; lit ".env"] twoLines;
     OpenTextDocument [lit "ws"; lit ".env"];
     ShowTextDocument [lit "ws"; lit ".env"];
     DeleteFullRange;
     InsertSnippet (lit "API_KEY=${1:your-key-here}" ++ LF :: lit "PORT=8080");
     ShowInformationMessage CreatedSuccessfully;
     AskAddToGitignore (Some Yes);
     ShowErrorMessage FailedToCreate]
  /\ trace (withTemplate ws [lit "ws"; lit ".env.example"] staleEnvDisk
              (userWho None (Some Overwrite) (Some Yes)) [])
     = [ShowWarningMessage (Some Overwrite);
        WriteFile [lit "ws"; lit ".env"] twoLines;
        OpenTextDocument [lit "ws"; lit ".env"];
        ShowTextDocument [lit "ws"; lit ".env"];
        DeleteFullRange;
        InsertSnippet (lit "API_KEY=${1:your-key-here}" ++ LF :: lit "PORT=8080");
        ShowInformationMessage CreatedSuccessfully;
        AskAddToGitignore (Some Yes);
        ShowErrorMessage FailedToCreate].
Proof.
  assert (Hfail : forall d,
             existsSync d [lit "ws"; lit ".gitignore"] = false ->
             canWrite d [lit "ws"; lit ".gitignore"] = false ->
             existsSync d (ws ++ [lit ".gitignore"]) = true
             /\ readFileSync d (ws ++ [lit ".gitignore"]) = None
             /\ [AskAddToGitignore (Some Yes)] = []
             \/ (exists prior,
                   (existsSync d (ws ++ [lit ".gitignore"]) = true
                    /\ readFileSync d (ws ++ [lit ".gitignore"]) = Some prior
                    \/ existsSync d (ws ++ [lit ".gitignore"]) = false
                       /\ prior = [])
                   /\ hasEnv prior = false
                   /\ gitignoreChoice (userWho None None (Some Yes)) = Some Yes
                   /\ canWrite d (ws ++ [lit ".gitignore"]) = false)
                /\ [AskAddToGitignore (Some Yes)] = [AskAddToGitignore (Some Yes)]).
  { intros d Hex Hw. right. split; [|reflexivity]. exists [].
    split; [right; split; [exact Hex | reflexivity]|].
    split; [reflexivity|]. split; [reflexivity | exact Hw]. }
  split.
  - rewrite (proj1 (ignore_failure_reported_as_create_failure ws
                      [lit "ws"; lit ".env.example"] lockedIgnoreDisk
                      (userWho None None (Some Yes)) [] twoLines
                      [AskAddToGitignore (Some Yes)]
                      (or_introl eq_refl) eq_refl eq_refl
                      (Hfail lockedIgnoreDisk eq_refl eq_refl))).
    vm_compute. reflexivity.
  - rewrite (proj1 (ignore_failure_reported_as_create_failure ws
                      [lit "ws"; lit ".env.example"] staleEnvDisk
                      (userWho None (Some Overwrite) (Some Yes)) [] twoLines
                      [AskAddToGitignore (Some Yes)]
                      (or_intror eq_refl) eq_refl eq_refl
                      (Hfail staleEnvDisk eq_refl eq_refl))).
    vm_compute. reflexivity.
Defined.

(** X18. In a run that copies (no [.env] beside the template, or the
    answer Overwrite): when the template cannot be read, the run leaves the
    disk as it was and adds one error report to what was shown before;
    when the [.env] cannot be written, the run likewise shows one error
    report and nothing else: it opens nothing, inserts nothing and does
    not reach the prompt of the ignore file. *)
Theorem failed_copy_reports_one_error :
  forall (workspaceRoot selectedTemplate : path) (d : Disk) (u : User)
         (before : list Event),
    existsSync d (pathJoin (dirname selectedTemplate) (lit ".env")) = false
    \/ existingChoice u = Some Overwrite ->
    (readFileSync d selectedTemplate = None ->
     withTemplate workspaceRoot selectedTemplate d u before
     = done d
         (before
          ++ (if existsSync d (pathJoin (dirname selectedTemplate) (lit ".env"))
              then [ShowWarningMessage (Some Overwrite)] else [])
          ++ [ShowErrorMessage FailedToCreate]))
    /\ (canWrite d (pathJoin (dirname selectedTemplate) (lit ".env")) = false ->
        trace (withTemplate workspaceRoot selectedTemplate d u before)
        = before
          ++ (if existsSync d (pathJoin (dirname selectedTemplate) (lit ".env"))
              then [ShowWarningMessage (Some Overwrite)] else [])
          ++ [ShowErrorMessage FailedToCreate]
        /\ threw (withTemplate workspaceRoot selectedTemplate d u before)
           = false).
Proof.
  intros root sel d u before Hgo.
  rewrite (withTemplate_copies root sel d u before Hgo).
  unfold tryCopyTemplate, copyTemplate, writeFileSync. split.
  - intros Hread. rewrite Hread. cbn [threw trace disk app].
    now rewrite <- app_assoc.
  - intros Hcw. rewrite Hcw.
    destruct (readFileSync d sel) as [c|]; cbn [threw trace disk done app];
      now rewrite <- app_assoc.
Qed.

Lemma failed_copy_reports_one_error_witness :
  activate {| workspaceFolders := Some [ws]; tree := oneTemplateTree;
              files := unreadableTemplateDisk |}
           (userWho None None (Some Yes))
  = done unreadableTemplateDisk [ShowErrorMessage FailedToCreate]
  /\ trace (activate {| workspaceFolders := Some [ws]; tree := oneTemplateTree;
                        files := readOnlyDisk |}
              (userWho None None (Some Yes)))
     = [ShowErrorMessage FailedToCreate].
Proof.
  split.
  - exact (proj1 (failed_copy_reports_one_error ws [lit "ws"; lit ".env.example"]
                    unreadableTemplateDisk (userWho None None (Some Yes)) []
                    (or_introl eq_refl))
             eq_refl).
  - exact (proj1 (proj2 (failed_copy_reports_one_error ws
                           [lit "ws"; lit ".env.example"]
                           readOnlyDisk (userWho None None (Some Yes)) []
                           (or_introl eq_refl))
                    eq_refl)).
Defined.

(** X19. A copy shows the new file and, exactly when the template has a
    placeholder line, replaces the text in the editor by the snippet: it
    deletes the whole text and inserts the annotated text of the template
    that was read.  For a template without a placeholder line it makes no
    edit in the editor.  What follows the report of the creation, the
    events of the ignore-file update, edits nothing in the editor. *)
Theorem snippet_inserted_exactly_for_placeholders :
  forall (workspaceRoot selectedTemplate envPath : path) (d : Disk) (u : User)
         (c : jsstring),
    readFileSync d selectedTemplate = Some c ->
    canWrite d envPath = true ->
    exists rest,
      trace (copyTemplate workspaceRoot selectedTemplate envPath d u)
      = [WriteFile envPath c; OpenTextDocument envPath; ShowTextDocument envPath]
        ++ (if existsb isPlaceholderLine (split c)
            then [DeleteFullRange;
                  InsertSnippet (snippetContent (processTemplateContent c))]
            else [])
        ++ ShowInformationMessage CreatedSuccessfully :: rest
      /\ existsb isEditorEdit rest = false.
Proof.
  intros root sel env d u c Hread Hcw.
  unfold copyTemplate, writeFileSync. rewrite Hread, Hcw. cbn [trace].
  eexists. split.
  - rewrite hasTabStops_spec, <- !app_assoc. reflexivity.
  - apply checkGitignore_no_editor_edit.
Qed.

Lemma snippet_inserted_exactly_for_placeholders_witness :
  exists rest,
    trace (copyTemplate ws [lit "ws"; lit ".env.example"] [lit "ws"; lit ".env"]
             freshDisk (userWho None None (Some No)))
    = [WriteFile [lit "ws"; lit ".env"] twoLines;
       OpenTextDocument [lit "ws"; lit ".env"];
       ShowTextDocument [lit "ws"; lit ".env"];
       DeleteFullRange;
       InsertSnippet (lit "API_KEY=${1:your-key-here}" ++ LF :: lit "PORT=8080");
       ShowInformationMessage CreatedSuccessfully]
      ++ rest
    /\ existsb isEditorEdit rest = false.
Proof.
  destruct (snippet_inserted_exactly_for_placeholders ws
              [lit "ws"; lit ".env.example"] [lit "ws"; lit ".env"]
              freshDisk (userWho None None (Some No)) twoLines
              eq_refl eq_refl) as (rest & Ht & Hrest).
  exists rest. split; [|exact Hrest]. rewrite Ht. reflexivity.
Defined.
